(** * The language-learning front end: quiz, flashcards and text-to-speech

    A shallow embedding of the application logic of the repository:

    - [JS]: the fragment of JavaScript's Number arithmetic the quiz score
      uses (IEEE 754 binary64 division and multiplication, [Math.round]);
    - [Quiz]: the React component [Quiz] (components/quiz/Quiz.tsx): its
      state, its handlers as closures over the render that created them,
      and the browser events that drive it;
    - [TTS]: the class [TextToSpeechService] and the singleton accessors
      [initTTS] / [getTTS] (utils/textToSpeech.ts);
    - [LanguageLearning]: the parts of the component [LanguageLearning]
      that configure and call the speech service ([handleSpeak],
      [handleSaveElevenLabsKey]) and that navigate the flashcards, and
      the screen that creates flashcards and quizzes;
    - [App]: the page component of app.tsx: theme, stored key, and the
      flashcards it shows;
    - [Tools]: the memory tools of the agent (tools.ts);
    - [Chat]: the standalone chat: the state of the exercises shown in
      the replies, and the conversation itself ([handleSubmit] and its
      timeout callback).

    Definitions come first, the theorems about them follow. *)

From Stdlib Require Import ZArith Bool List String Ascii Lia.
From Stdlib Require Import Floats.SpecFloat.
From Stdlib Require Import Decimal DecimalString DecimalPos DecimalZ.
From stdpp Require Import base list strings gmap.
Import ListNotations.
Local Open Scope Z_scope.

(* ===================================================================== *)
(** * JavaScript numbers *)
(* ===================================================================== *)

Module JS.

(** A JavaScript Number is an IEEE 754 binary64 value.  [spec_float] is
    the Standard Library's executable specification of such values;
    [SFdiv] and [SFmul] round to nearest, ties to even, which is what
    the operators [/] and [*] do. *)
Definition prec : Z := 53.
Definition emax : Z := 1024.

Definition Number : Type := spec_float.

(** The Number of an array length (exact: lengths are below 2^53). *)
Definition of_nat (n : nat) : Number :=
  binary_normalize prec emax (Z.of_nat n) 0 false.

Definition div (x y : Number) : Number := SFdiv prec emax x y.
Definition mul (x y : Number) : Number := SFmul prec emax x y.

(** The result of [Math.round]: an integral Number, NaN or an infinity.
    An integral binary64 value is written as the integer it denotes
    (the sign of a zero result is not kept). *)
Inductive Rounded : Type :=
| Int (z : Z)
| NaN
| Infinity (negative : bool).

(** [Math.round x]: the integer closest to [x], ties going towards
    +infinity, that is floor (x + 1/2) computed exactly.  For
    x = (+/-) m * 2^e with e < 0 this is
    floor (((+/-) 2m + 2^(-e)) / 2^(1-e)). *)
Definition Math_round (x : Number) : Rounded :=
  match x with
  | S754_zero _ => Int 0
  | S754_infinity s => Infinity s
  | S754_nan => NaN
  | S754_finite s m e =>
      let sm := if s then Z.neg m else Z.pos m in
      if 0 <=? e then Int (sm * 2 ^ e)
      else Int ((2 * sm + 2 ^ (- e)) / 2 ^ (1 - e))
  end.

(** ** Strings

    A JavaScript string is written as the UTF-8 encoding of its text, a
    [string] of bytes (what a string literal of this file is).

    [String.prototype.trim] removes the white space and the line
    terminators from both ends.  These are the code points
    U+0009 to U+000D and U+0020, of one byte;
    U+00A0 (C2 A0), of two bytes; and, of three bytes,
    U+1680 (E1 9A 80), U+2000 to U+200A (E2 80 80 to E2 80 8A),
    U+2028 and U+2029 (E2 80 A8, E2 80 A9), U+202F (E2 80 AF),
    U+205F (E2 81 9F), U+3000 (E3 80 80) and U+FEFF (EF BB BF). *)
Definition isWhiteSpace1 (a : ascii) : bool :=
  let n := nat_of_ascii a in
  ((9 <=? n)%nat && (n <=? 13)%nat) || (n =? 32)%nat.

Definition isWhiteSpace2 (a b : ascii) : bool :=
  (nat_of_ascii a =? 194)%nat && (nat_of_ascii b =? 160)%nat.

Definition isWhiteSpace3 (a b c : ascii) : bool :=
  let '(x, y, z) := (nat_of_ascii a, nat_of_ascii b, nat_of_ascii c) in
  ((x =? 225) && (y =? 154) && (z =? 128))%nat
  || ((x =? 226) && (y =? 128)
      && (((128 <=? z) && (z <=? 138)) || (z =? 168) || (z =? 169) || (z =? 175)))%nat
  || ((x =? 226) && (y =? 129) && (z =? 159))%nat
  || ((x =? 227) && (y =? 128) && (z =? 128))%nat
  || ((x =? 239) && (y =? 187) && (z =? 191))%nat.

(** Removing the leading code points that [w1], [w2] and [w3] accept,
    of one, two and three bytes. *)
Fixpoint dropWhile3 (w1 : ascii -> bool) (w2 : ascii -> ascii -> bool)
  (w3 : ascii -> ascii -> ascii -> bool) (s : string) : string :=
  match s with
  | EmptyString => EmptyString
  | String a s1 =>
      if w1 a then dropWhile3 w1 w2 w3 s1
      else match s1 with
           | EmptyString => s
           | String b s2 =>
               if w2 a b then dropWhile3 w1 w2 w3 s2
               else match s2 with
                    | EmptyString => s
                    | String c s3 =>
                        if w3 a b c then dropWhile3 w1 w2 w3 s3 else s
                    end
           end
  end.

Definition trimStart (s : string) : string :=
  dropWhile3 isWhiteSpace1 isWhiteSpace2 isWhiteSpace3 s.

(** At the end of the text the bytes of a code point are met last byte
    first. *)
Definition trimEnd (s : string) : string :=
  String.rev
    (dropWhile3 isWhiteSpace1 (fun b a => isWhiteSpace2 a b)
       (fun c b a => isWhiteSpace3 a b c) (String.rev s)).

Definition trim (s : string) : string := trimEnd (trimStart s).

(** Truthiness of a string: the empty string is falsy. *)
Definition nonEmpty (s : string) : bool :=
  match s with
  | EmptyString => false
  | String _ _ => true
  end.

(** Rounding the exact rational [p / q] (q > 0) to the nearest integer,
    halves up: the reading of "round" in the specification. *)
Definition round_half_up (p q : Z) : Z := (2 * p + q) / (2 * q).

(** [Math.round((c / n) * 100)] for two array lengths [c] and [n]. *)
Definition percentage (c n : nat) : Rounded :=
  Math_round (mul (div (of_nat c) (of_nat n)) (of_nat 100)).

Definition Rounded_eqb (a b : Rounded) : bool :=
  match a, b with
  | Int x, Int y => x =? y
  | NaN, NaN => true
  | Infinity s, Infinity t => Bool.eqb s t
  | _, _ => false
  end.

(** For every total from 1 to [N] and every count up to the total,
    [percentage] is the exact percentage rounded half up. *)
Definition exactUpTo (N : nat) : bool :=
  forallb
    (fun n =>
       forallb
         (fun c =>
            Rounded_eqb (percentage c n)
              (Int (round_half_up (100 * Z.of_nat c) (Z.of_nat n))))
         (seq 0 (S n)))
    (seq 1 N).

(** [n.toString()] for an integral Number below 1e21 in magnitude: its
    decimal digits, after a minus sign when it is negative. *)
Definition toString (z : Z) : string := NilZero.string_of_int (Z.to_int z).

(** [s.padStart(targetLength, c)] with a pad string of one character. *)
Definition padStart (targetLength : nat) (c : ascii) (s : string) : string :=
  string_of_list_ascii (repeat c (targetLength - String.length s)%nat) +:+ s.

(** [a % n] on integers: the remainder takes the sign of the dividend,
    and is NaN when the divisor is 0. *)
Definition remainder (a n : Z) : Rounded :=
  if n =? 0 then NaN else Int (Z.rem a n).

(** ** Numbers of integral value

    The Number nearest to an integer (an infinity beyond the largest
    finite Number). *)
Definition of_Z (z : Z) : Number := binary_normalize prec emax z 0 false.

(** [Math.floor x] (the sign of a zero result is not kept). *)
Definition Math_floor (x : Number) : Rounded :=
  match x with
  | S754_zero _ => Int 0
  | S754_infinity s => Infinity s
  | S754_nan => NaN
  | S754_finite s m e =>
      let sm := if s then Z.neg m else Z.pos m in
      if 0 <=? e then Int (sm * 2 ^ e) else Int (sm / 2 ^ (- e))
  end.

(** [x % n] for a Number [x] of integral value and an integer [n]: it
    is NaN when [x] is not finite or [n] is 0. *)
Definition rem (x : Number) (n : Z) : Rounded :=
  match Math_floor x with
  | Int v => remainder v n
  | _ => NaN
  end.

(** [Number::toString] of an integral Number [z > 0] takes the decimal
    with the fewest digits [s], [k] of them, such that [s * 10^(n-k)]
    reads back as [z], that is, has [z] as its nearest Number. *)
Definition readsAs (z v : Z) : bool := Rounded_eqb (Math_floor (of_Z v)) (Int z).

Definition digits (z : Z) : nat := String.length (toString z).

(** Of the decimals of [k] digits next to [z], below and above, the one
    that reads back as [z]: the closer one when both do, the even one
    when they are as close. *)
Definition shortestAt (z : Z) (k : nat) : option Z :=
  let p := 10 ^ Z.of_nat (digits z - k) in
  let s := z / p in
  let below := readsAs z (s * p) in
  let above := readsAs z ((s + 1) * p) in
  if below && above then
    if z - s * p <? (s + 1) * p - z then Some (s * p)
    else if (s + 1) * p - z <? z - s * p then Some ((s + 1) * p)
    else if Z.even s then Some (s * p) else Some ((s + 1) * p)
  else if below then Some (s * p)
  else if above then Some ((s + 1) * p)
  else None.

(** The search from [k] digits upwards; with all its digits [z] reads
    back as itself. *)
Fixpoint shortestFrom (z : Z) (k fuel : nat) : Z :=
  match fuel with
  | O => z
  | S fuel' =>
      match shortestAt z k with
      | Some v => v
      | None => shortestFrom z (S k) fuel'
      end
  end.

Definition shortest (z : Z) : Z := shortestFrom z 1 (digits z).

Fixpoint dropZeros (reversed : string) : string :=
  match reversed with
  | String "0" rest => dropZeros rest
  | _ => reversed
  end.

(** The text of the decimal [v > 0]: its digits when there are at most
    21; otherwise its digits without the zeros at the end, a point
    after the first digit when there are several, and the exponent. *)
Definition positiveToString (v : Z) : string :=
  let all := toString v in
  if (String.length all <=? 21)%nat then all
  else
    let exponent := "e+" +:+ toString (Z.of_nat (String.length all) - 1) in
    match String.rev (dropZeros (String.rev all)) with
    | String d EmptyString => String d exponent
    | String d rest => String d ("." +:+ rest +:+ exponent)
    | EmptyString => all
    end.

(** [Number::toString] of an integral Number, NaN or an infinity. *)
Definition Number_toString (x : Rounded) : string :=
  match x with
  | Int 0 => "0"
  | Int (Z.pos p) => positiveToString (shortest (Z.pos p))
  | Int (Z.neg p) => "-" +:+ positiveToString (shortest (Z.pos p))
  | NaN => "NaN"
  | Infinity false => "Infinity"
  | Infinity true => "-Infinity"
  end.

(** The double-quote character, and a text between two of them. *)
Definition quote : string := String "034" EmptyString.

Definition quoted (s : string) : string := quote +:+ s +:+ quote.

(** What [s.toLowerCase()] is on a text of ASCII characters: the
    letters A to Z become a to z.  (On other texts the result is that
    of the Unicode case mappings of the engine; see [Chat].) *)
Definition lowerCase (a : ascii) : ascii :=
  let n := nat_of_ascii a in
  if (65 <=? n)%nat && (n <=? 90)%nat then ascii_of_nat (n + 32) else a.

Fixpoint toLowerCaseASCII (s : string) : string :=
  match s with
  | String a s' => String (lowerCase a) (toLowerCaseASCII s')
  | EmptyString => EmptyString
  end.

(** [s.startsWith(searchString)] and [s.includes(searchString)]. *)
Fixpoint startsWith (s searchString : string) : bool :=
  match searchString with
  | EmptyString => true
  | String b rest =>
      match s with
      | String a s' => Ascii.eqb a b && startsWith s' rest
      | EmptyString => false
      end
  end.

Fixpoint includes (s searchString : string) : bool :=
  startsWith s searchString
  || match s with
     | String _ s' => includes s' searchString
     | EmptyString => false
     end.

End JS.

(* ===================================================================== *)
(** * Abrupt completion of handlers *)
(* ===================================================================== *)

(** What a handler can raise.  The source has no [throw] statement in
    the quiz: the only abrupt completion is the [TypeError] of reading a
    property of [undefined].  The other constructors are the error
    conditions the specification names; no statement of the source
    raises them. *)
Inductive Thrown : Type :=
| TypeError
| InvalidAnswerIndex
| QuestionAlreadyLocked
| InvalidStateTransition
| NotComplete.

Inductive Completion (A : Type) : Type :=
| Normal (a : A)
| Throw (e : Thrown).
Arguments Normal {A} a.
Arguments Throw {A} e.

(** [Completion] is a monad; the handlers use stdpp's notation
    [x ← c; k] for sequencing. *)
#[global] Instance Completion_ret : MRet Completion := fun A a => Normal a.
#[global] Instance Completion_bind : MBind Completion := fun A B k x =>
  match x with
  | Normal a => k a
  | Throw e => Throw e
  end.

(* ===================================================================== *)
(** * The Quiz component *)
(* ===================================================================== *)

Module Quiz.

Record QuizQuestion : Type := {
  id : string;
  question : string;
  options : list string;
  correctAnswer : Z;
  explanation : option string;
  audioText : option string
}.

Record QuizResult : Type := {
  questionId : string;
  selected : option Z;        (* number | null *)
  correct : bool;
  timeSpent : Z
}.

(** The props the handlers read.  [onComplete] is the caller's callback;
    its calls are logged in the component ([reported]). *)
Record QuizProps : Type := {
  questions : list QuizQuestion;
  timeLimit : Z
}.

(** The values of the seven [useState] cells in one render.  Every
    handler is a closure created by a render and reads the values of
    that render. *)
Record QuizState : Type := {
  currentQuestionIndex : nat;
  selectedAnswer : option Z;
  showResult : bool;
  results : list QuizResult;
  timeLeft : Z;
  startTime : Z;              (* Date.now() stamp, milliseconds *)
  isComplete : bool
}.

(** The live [setInterval] callback: the render whose [handleTimeUp] it
    calls, and when it is next due. *)
Record Interval : Type := {
  closure : QuizState;
  nextTick : Z
}.

(** A pending [setTimeout] callback of [handleAnswerSubmit]: the two
    variables of the submitting render it reads, and when it is due. *)
Record Timeout : Type := {
  t_currentQuestionIndex : nat;
  t_newResults : list QuizResult;
  due : Z
}.

(** The mounted component: the committed state, the timers, and the
    calls [onComplete(score, results)] made so far, oldest first. *)
Record Component : Type := {
  state : QuizState;
  interval : option Interval;
  timeouts : list Timeout;
  reported : list (JS.Rounded * list QuizResult)
}.

(** ** State setters *)

Definition withState (f : QuizState -> QuizState) (c : Component) : Component :=
  {| state := f (state c); interval := interval c;
     timeouts := timeouts c; reported := reported c |}.

Definition setCurrentQuestionIndex (f : nat -> nat) : Component -> Component :=
  withState (fun s =>
    {| currentQuestionIndex := f (currentQuestionIndex s);
       selectedAnswer := selectedAnswer s; showResult := showResult s;
       results := results s; timeLeft := timeLeft s;
       startTime := startTime s; isComplete := isComplete s |}).

Definition setSelectedAnswer (a : option Z) : Component -> Component :=
  withState (fun s =>
    {| currentQuestionIndex := currentQuestionIndex s;
       selectedAnswer := a; showResult := showResult s;
       results := results s; timeLeft := timeLeft s;
       startTime := startTime s; isComplete := isComplete s |}).

Definition setShowResult (b : bool) : Component -> Component :=
  withState (fun s =>
    {| currentQuestionIndex := currentQuestionIndex s;
       selectedAnswer := selectedAnswer s; showResult := b;
       results := results s; timeLeft := timeLeft s;
       startTime := startTime s; isComplete := isComplete s |}).

Definition setResults (l : list QuizResult) : Component -> Component :=
  withState (fun s =>
    {| currentQuestionIndex := currentQuestionIndex s;
       selectedAnswer := selectedAnswer s; showResult := showResult s;
       results := l; timeLeft := timeLeft s;
       startTime := startTime s; isComplete := isComplete s |}).

Definition setTimeLeft (f : Z -> Z) : Component -> Component :=
  withState (fun s =>
    {| currentQuestionIndex := currentQuestionIndex s;
       selectedAnswer := selectedAnswer s; showResult := showResult s;
       results := results s; timeLeft := f (timeLeft s);
       startTime := startTime s; isComplete := isComplete s |}).

Definition setStartTime (t : Z) : Component -> Component :=
  withState (fun s =>
    {| currentQuestionIndex := currentQuestionIndex s;
       selectedAnswer := selectedAnswer s; showResult := showResult s;
       results := results s; timeLeft := timeLeft s;
       startTime := t; isComplete := isComplete s |}).

Definition setIsComplete (b : bool) : Component -> Component :=
  withState (fun s =>
    {| currentQuestionIndex := currentQuestionIndex s;
       selectedAnswer := selectedAnswer s; showResult := showResult s;
       results := results s; timeLeft := timeLeft s;
       startTime := startTime s; isComplete := b |}).

Definition setTimeout (t : Timeout) (c : Component) : Component :=
  {| state := state c; interval := interval c;
     timeouts := timeouts c ++ [t]; reported := reported c |}.

Definition onComplete (score : JS.Rounded) (rs : list QuizResult)
  (c : Component) : Component :=
  {| state := state c; interval := interval c;
     timeouts := timeouts c; reported := reported c ++ [(score, rs)] |}.

(** ** The handlers *)

(** [const currentQuestion = questions[currentQuestionIndex]]:
    [None] is [undefined]. *)
Definition currentQuestion (P : QuizProps) (r : QuizState) : option QuizQuestion :=
  questions P !! currentQuestionIndex r.

(** [setCurrentQuestionIndex(prev => prev + 1); setSelectedAnswer(null);
    setShowResult(false)]. *)
Definition handleNextQuestion (c : Component) : Completion Component :=
  Normal (setShowResult false (setSelectedAnswer None (setCurrentQuestionIndex S c))).

(** [Math.round((finalResults.filter(r => r.correct).length
                 / finalResults.length) * 100)]. *)
Definition score (finalResults : list QuizResult) : JS.Rounded :=
  JS.Math_round
    (JS.mul
       (JS.div (JS.of_nat (length (List.filter correct finalResults)))
               (JS.of_nat (length finalResults)))
       (JS.of_nat 100)).

Definition handleQuizComplete (finalResults : list QuizResult) (c : Component)
  : Completion Component :=
  Normal (onComplete (score finalResults) finalResults (setIsComplete true c)).

(** The callback [handleAnswerSubmit] hands to [setTimeout(..., 2000)]. *)
Definition autoAdvance (P : QuizProps) (t : Timeout) (c : Component)
  : Completion Component :=
  if Z.of_nat (t_currentQuestionIndex t) <? Z.of_nat (length (questions P)) - 1
  then handleNextQuestion c
  else handleQuizComplete (t_newResults t) c.

(** [selectedAnswer === currentQuestion.correctAnswer]. *)
Definition strictEq (a : option Z) (b : Z) : bool :=
  match a with
  | Some x => x =? b
  | None => false
  end.

(** [handleAnswerSubmit] of the render [r], called at time [now]. *)
Definition handleAnswerSubmit (P : QuizProps) (r : QuizState) (now : Z)
  (c : Component) : Completion Component :=
  let timeSpent := (now - startTime r) / 1000 in
  match currentQuestion P r with
  | None => Throw TypeError
  | Some q =>
      let isCorrect := strictEq (selectedAnswer r) (correctAnswer q) in
      let result :=
        {| questionId := id q; selected := selectedAnswer r;
           correct := isCorrect; timeSpent := timeSpent |} in
      let newResults := results r ++ [result] in
      Normal
        (setTimeout
           {| t_currentQuestionIndex := currentQuestionIndex r;
              t_newResults := newResults; due := now + 2000 |}
           (setShowResult true (setResults newResults c)))
  end.

(** [handleTimeUp] of the render [r]. *)
Definition handleTimeUp (P : QuizProps) (r : QuizState) (now : Z)
  (c : Component) : Completion Component :=
  if negb (showResult r) then handleAnswerSubmit P r now c else Normal c.

(** [handleAnswerSelect] of the render [r]. *)
Definition handleAnswerSelect (r : QuizState) (answerIndex : Z)
  (c : Component) : Completion Component :=
  if showResult r then Normal c
  else Normal (setSelectedAnswer (Some answerIndex) c).

(** ** Rendering and effects

    React calls the component function after every state change.  The
    model follows React 18 and later: the updates one callback makes are
    applied together, then the component renders once, then the effects
    whose dependencies changed run.  An effect that does not run again
    keeps the closures of the render in which it last ran. *)

(** The render reads [currentQuestion.question] unless the quiz is
    complete: with [currentQuestion] undefined it throws. *)
Definition render (P : QuizProps) (s : QuizState) : Completion unit :=
  if isComplete s then Normal tt
  else match currentQuestion P s with
       | Some _ => Normal tt
       | None => Throw TypeError
       end.

(** Timer effect, dependencies [[currentQuestionIndex, isComplete]]:
    the cleanup clears the old interval; the effect starts a new one
    unless the quiz is complete.  The interval callback closes over
    [handleTimeUp] of the render [state c] in which the effect runs. *)
Definition timerEffect (now : Z) (c : Component) : Component :=
  {| state := state c;
     interval := if isComplete (state c) then None
                 else Some {| closure := state c; nextTick := now + 1000 |};
     timeouts := timeouts c; reported := reported c |}.

(** Reset effect, dependencies [[currentQuestionIndex, timeLimit]]:
    [setTimeLeft(timeLimit); setStartTime(Date.now())]. *)
Definition resetEffect (P : QuizProps) (now : Z) (c : Component) : Component :=
  setStartTime now (setTimeLeft (fun _ => timeLimit P) c).

(** The effects after the render that follows a callback; [old] is the
    state of the previous render.  The timer effect is declared first,
    so its closure is the render before the reset effect's updates. *)
Definition commit (P : QuizProps) (now : Z) (old : QuizState) (c : Component)
  : Component :=
  let indexChanged :=
    negb (Nat.eqb (currentQuestionIndex old) (currentQuestionIndex (state c))) in
  let completeChanged := negb (Bool.eqb (isComplete old) (isComplete (state c))) in
  let c1 := if indexChanged || completeChanged then timerEffect now c else c in
  if indexChanged then resetEffect P now c1 else c1.

(** Mounting at time [now]: the initial values of the [useState] cells,
    the first render, then both effects. *)
Definition initialState (P : QuizProps) (now : Z) : QuizState :=
  {| currentQuestionIndex := 0%nat; selectedAnswer := None;
     showResult := false; results := []; timeLeft := timeLimit P;
     startTime := now; isComplete := false |}.

Definition mount (P : QuizProps) (now : Z) : Completion Component :=
  let c := {| state := initialState P now; interval := None;
              timeouts := []; reported := [] |} in
  _ ← render P (state c);
  Normal (resetEffect P now (timerEffect now c)).

(** ** Browser events *)

(** The interval callback:
    [setTimeLeft(prev => { if (prev <= 1) { handleTimeUp(); return 0; }
                           return prev - 1; })],
    with [handleTimeUp] the one of the interval's closure. *)
Definition tick (P : QuizProps) (i : Interval) (now : Z) (c : Component)
  : Completion Component :=
  let c := {| state := state c;
              interval := Some {| closure := closure i;
                                  nextTick := nextTick i + 1000 |};
              timeouts := timeouts c; reported := reported c |} in
  if timeLeft (state c) <=? 1 then
    c' ← handleTimeUp P (closure i) now c;
    Normal (setTimeLeft (fun _ => 0) c')
  else Normal (setTimeLeft (fun prev => prev - 1) c).

Inductive Event : Type :=
| ClickOption (answerIndex : Z)   (* onClick of an option button *)
| ClickSubmit                     (* onClick of "Submit Answer" *)
| IntervalTick                    (* the setInterval callback runs *)
| TimeoutFires.                   (* the oldest setTimeout callback runs *)

(** The callback an event runs.  Click handlers are those of the latest
    render. *)
Definition dispatch (P : QuizProps) (now : Z) (ev : Event) (c : Component)
  : Completion Component :=
  match ev with
  | ClickOption answerIndex => handleAnswerSelect (state c) answerIndex c
  | ClickSubmit => handleAnswerSubmit P (state c) now c
  | IntervalTick =>
      match interval c with
      | Some i => tick P i now c
      | None => Normal c
      end
  | TimeoutFires =>
      match timeouts c with
      | t :: rest =>
          autoAdvance P t
            {| state := state c; interval := interval c;
               timeouts := rest; reported := reported c |}
      | [] => Normal c
      end
  end.

(** One turn of the event loop at time [now]: the callback, the render,
    the effects. *)
Definition step (P : QuizProps) (c : Component) (e : Z * Event)
  : Completion Component :=
  c' ← dispatch P e.1 e.2 c;
  _ ← render P (state c');
  Normal (commit P e.1 (state c) c').

Fixpoint run (P : QuizProps) (c : Component) (evs : list (Z * Event))
  : Completion Component :=
  match evs with
  | [] => Normal c
  | e :: evs' => c' ← step P c e; run P c' evs'
  end.

(** The session: mount at [t0], then the events. *)
Definition session (P : QuizProps) (t0 : Z) (evs : list (Z * Event))
  : Completion Component :=
  c ← mount P t0; run P c evs.

(** ** Which events the browser can deliver

    A click needs its button: option buttons are rendered while the quiz
    is not complete and are [disabled] once [showResult]; "Submit
    Answer" is rendered when [!showResult && selectedAnswer !== null].
    A timer callback never runs before it is due, and of two timers the
    one due first runs first. *)
Definition earliestTimeout (c : Component) : option Z :=
  match timeouts c with
  | t :: _ => Some (due t)
  | [] => None
  end.

Definition deliverable (P : QuizProps) (now : Z) (ev : Event) (c : Component)
  : bool :=
  match ev with
  | ClickOption answerIndex =>
      negb (isComplete (state c)) && negb (showResult (state c))
      && match currentQuestion P (state c) with
         | Some q => (0 <=? answerIndex)
                     && (answerIndex <? Z.of_nat (length (options q)))
         | None => false
         end
  | ClickSubmit =>
      negb (isComplete (state c)) && negb (showResult (state c))
      && match selectedAnswer (state c) with Some _ => true | None => false end
  | IntervalTick =>
      match interval c with
      | Some i =>
          (nextTick i <=? now)
          && match earliestTimeout c with
             | Some d => nextTick i <=? d
             | None => true
             end
      | None => false
      end
  | TimeoutFires =>
      match earliestTimeout c with
      | Some d =>
          (d <=? now)
          && match interval c with
             | Some i => d <=? nextTick i
             | None => true
             end
      | None => false
      end
  end.

(** [schedule P t c evs]: the events [evs] can be delivered in this
    order from [c], with a clock that starts at [t] and never runs
    backwards, and no callback throws. *)
Fixpoint schedule (P : QuizProps) (t : Z) (c : Component)
  (evs : list (Z * Event)) : bool :=
  match evs with
  | [] => true
  | e :: evs' =>
      (t <=? e.1) && deliverable P e.1 e.2 c
      && match step P c e with
         | Normal c' => schedule P e.1 c' evs'
         | Throw _ => false
         end
  end.

(** The whole session can happen: the component mounts and the browser
    can deliver [evs] in this order. *)
Definition deliverableSession (P : QuizProps) (t0 : Z) (evs : list (Z * Event))
  : bool :=
  match mount P t0 with
  | Normal c => schedule P t0 c evs
  | Throw _ => false
  end.

(** The timer expires, or expires again, while a result is shown: the
    interval callback runs with the countdown at 1 or 0 during the two
    seconds between a submission and the advance. *)
Definition lateExpiry (c : Component) (ev : Event) : bool :=
  match ev with
  | IntervalTick => showResult (state c) && (timeLeft (state c) <=? 1)
  | _ => false
  end.

(** A deliverable run without late expiry. *)
Fixpoint orderly (P : QuizProps) (t : Z) (c : Component)
  (evs : list (Z * Event)) : bool :=
  match evs with
  | [] => true
  | e :: evs' =>
      (t <=? e.1) && deliverable P e.1 e.2 c && negb (lateExpiry c e.2)
      && match step P c e with
         | Normal c' => orderly P e.1 c' evs'
         | Throw _ => false
         end
  end.

Definition orderlySession (P : QuizProps) (t0 : Z) (evs : list (Z * Event))
  : bool :=
  match mount P t0 with
  | Normal c => orderly P t0 c evs
  | Throw _ => false
  end.

(** One record per question: while the quiz runs there are as many
    results as questions passed, plus the one on display, whose advance
    is the only pending timeout; once it is complete, [onComplete] was
    called once, with one result per question. *)
Definition oneRecordPerQuestion (P : QuizProps) (c : Component) : Prop :=
  (isComplete (state c) = false ->
   reported c = []
   /\ (showResult (state c) = false ->
       length (results (state c)) = currentQuestionIndex (state c)
       /\ timeouts c = [])
   /\ (showResult (state c) = true ->
       length (results (state c)) = S (currentQuestionIndex (state c))
       /\ exists d,
            timeouts c =
            [ {| t_currentQuestionIndex := currentQuestionIndex (state c);
                 t_newResults := results (state c); due := d |} ]))
  /\ (isComplete (state c) = true ->
      interval c = None
      /\ timeouts c = []
      /\ reported c = [(score (results (state c)), results (state c))]
      /\ length (results (state c)) = length (questions P)).

(** ** What the live interval knows

    The interval callback is replaced only when [currentQuestionIndex]
    or [isComplete] changes.  So the render it closes over is the one in
    which the current question became current: nothing selected, no
    result shown, and (until the question is finalized) the results of
    the questions before. *)
Definition timerClosure (P : QuizProps) (c : Component) : Prop :=
  (isComplete (state c) = false -> is_Some (currentQuestion P (state c)))
  /\ match interval c with
     | Some i =>
         showResult (closure i) = false
         /\ selectedAnswer (closure i) = None
         /\ currentQuestionIndex (closure i) = currentQuestionIndex (state c)
         /\ isComplete (state c) = false
         /\ (showResult (state c) = false -> results (closure i) = results (state c))
     | None => True
     end.

(** [n] runs of the interval callback, [period] milliseconds apart, the
    first at [from].  The callback is due every 1000 ms; the browser may
    run it later (a busy page, a throttled background tab). *)
Fixpoint ticksEvery (period : Z) (n : nat) (from : Z) : list (Z * Event) :=
  match n with
  | O => []
  | S k => (from, IntervalTick) :: ticksEvery period k (from + period)
  end.

Definition ticks : nat -> Z -> list (Z * Event) := ticksEvery 1000.

(** ** What the render shows *)

Inductive Icon : Type := CheckCircle | XCircle.

Definition baseClasses : string :=
  "w-full p-4 text-left border rounded-lg transition-all duration-200".

Definition selectedClasses : string :=
  "border-blue-500 bg-blue-50 dark:bg-blue-900/20".
Definition idleClasses : string :=
  "border-gray-300 dark:border-gray-600 hover:border-gray-400 dark:hover:border-gray-500".
Definition correctClasses : string :=
  "border-green-500 bg-green-50 dark:bg-green-900/20 text-green-800 dark:text-green-200".
Definition wrongClasses : string :=
  "border-red-500 bg-red-50 dark:bg-red-900/20 text-red-800 dark:text-red-200".
Definition dimmedClasses : string :=
  "border-gray-300 dark:border-gray-600 opacity-60".

(** [getOptionClassName(optionIndex)] of the render [r]. *)
Definition getOptionClassName (P : QuizProps) (r : QuizState) (optionIndex : Z)
  : Completion string :=
  if negb (showResult r) then
    Normal (baseClasses +:+ " " +:+
            (if strictEq (selectedAnswer r) optionIndex
             then selectedClasses else idleClasses))
  else
    match currentQuestion P r with
    | None => Throw TypeError
    | Some q =>
        if optionIndex =? correctAnswer q then
          Normal (baseClasses +:+ " " +:+ correctClasses)
        else if strictEq (selectedAnswer r) optionIndex
                && negb (optionIndex =? correctAnswer q) then
          Normal (baseClasses +:+ " " +:+ wrongClasses)
        else Normal (baseClasses +:+ " " +:+ dimmedClasses)
    end.

(** [getOptionIcon(optionIndex)] of the render [r]: [None] is [null]. *)
Definition getOptionIcon (P : QuizProps) (r : QuizState) (optionIndex : Z)
  : Completion (option Icon) :=
  if negb (showResult r) then Normal None
  else
    match currentQuestion P r with
    | None => Throw TypeError
    | Some q =>
        if optionIndex =? correctAnswer q then Normal (Some CheckCircle)
        else if strictEq (selectedAnswer r) optionIndex
                && negb (optionIndex =? correctAnswer q) then
          Normal (Some XCircle)
        else Normal None
    end.

(** One option button as the render makes it. *)
Record OptionButton : Type := {
  label : string;
  className : string;
  disabled : bool;
  icon : option Icon
}.

(** [currentQuestion.options.map((option, index) => <button ...>)]. *)
Fixpoint optionButtons (P : QuizProps) (r : QuizState) (index : Z)
  (opts : list string) : Completion (list OptionButton) :=
  match opts with
  | [] => Normal []
  | opt :: rest =>
      cls ← getOptionClassName P r index;
      ico ← getOptionIcon P r index;
      buttons ← optionButtons P r (index + 1) rest;
      Normal ({| label := opt; className := cls;
                 disabled := showResult r; icon := ico |} :: buttons)
  end.

Definition renderOptions (P : QuizProps) (r : QuizState)
  : Completion (list OptionButton) :=
  match currentQuestion P r with
  | None => Throw TypeError
  | Some q => optionButtons P r 0 (options q)
  end.

(** [formatTime(seconds)]:
    [`${Math.floor(seconds / 60)}:${(seconds % 60).toString().padStart(2, '0')}`],
    computed on Numbers as the code does: the division is the binary64
    one, and the conversions to text are those of [Number::toString]
    (an exponent from 1e21 on, [Infinity], [NaN]). *)
Definition formatTime (seconds : Z) : string :=
  let mins := JS.Math_floor (JS.div (JS.of_Z seconds) (JS.of_Z 60)) in
  let secs := JS.rem (JS.of_Z seconds) 60 in
  JS.Number_toString mins +:+ ":" +:+ JS.padStart 2 "0" (JS.Number_toString secs).



(** [getTimeColor()] of the render [r]. *)
Definition getTimeColor (r : QuizState) : string :=
  if timeLeft r <=? 5 then "text-red-600"
  else if timeLeft r <=? 10 then "text-yellow-600"
  else "text-gray-600 dark:text-gray-400".


Definition readDecimal (s : string) : option Z :=
  Z.of_uint <$> NilZero.uint_of_string s.


(** A record is sound for the quiz: it names one of the questions, and
    it is marked correct exactly when the option it holds is that
    question's correct answer. *)
Definition soundFor (q : QuizQuestion) (r : QuizResult) : Prop :=
  questionId r = id q /\ correct r = strictEq (selected r) (correctAnswer q).

Definition sound (P : QuizProps) (r : QuizResult) : Prop :=
  exists q, In q (questions P) /\ soundFor q r.

(** The countdown is within the time of a question. *)
Definition countdownInRange (P : QuizProps) (c : Component) : Prop :=
  0 <= timeLeft (state c) <= timeLimit P.

(** Every list of records the component holds or has handed out is
    sound: the results, those the interval callback closes over, those
    of the pending timeouts, and those given to [onComplete]. *)
Definition recordsSound (P : QuizProps) (c : Component) : Prop :=
  Forall (sound P) (results (state c))
  /\ match interval c with
     | Some i => Forall (sound P) (results (closure i))
     | None => True
     end
  /\ Forall (fun t => Forall (sound P) (t_newResults t)) (timeouts c)
  /\ Forall (fun p => Forall (sound P) p.2) (reported c).

(** How the button of option [index] looks once the result is shown:
    disabled; the check icon and the green classes on the correct
    answer; the cross and the red classes on a wrong selection. *)
Definition marked (q : QuizQuestion) (r : QuizState) (index : Z) (b : OptionButton)
  : Prop :=
  disabled b = true
  /\ (icon b = Some CheckCircle <-> index = correctAnswer q)
  /\ (icon b = Some XCircle <->
      selectedAnswer r = Some index /\ index <> correctAnswer q)
  /\ (className b = baseClasses +:+ " " +:+ correctClasses <->
      icon b = Some CheckCircle)
  /\ (className b = baseClasses +:+ " " +:+ wrongClasses <->
      icon b = Some XCircle).



(** The quiz is complete exactly when [onComplete] has been called,
    and exactly then no interval is running. *)
Definition completionIsFinal (c : Component) : Prop :=
  (isComplete (state c) = true <-> reported c <> [])
  /\ (isComplete (state c) = true <-> interval c = None).

End Quiz.

(* ===================================================================== *)
(** * The text-to-speech service *)
(* ===================================================================== *)

Module TTS.

(** ** What the service does to the outside *)

Inductive Method : Type := GET | POST.

(** [JSON.stringify({ text, model_id, voice_settings })]; the
    [voice_settings] object is the same literal in every request. *)
Record SpeakBody : Type := {
  text : string;
  model_id : string;
  voice_settings : string
}.

Record Request : Type := {
  url : string;
  method : Method;
  headers : list (string * string);
  body : option SpeakBody
}.

(** A [SpeechSynthesisUtterance]; [rate] in hundredths (the browser's
    default rate is 1). *)
Record Utterance : Type := {
  u_text : string;
  lang : string;
  rate : Z
}.

(** The observable actions, in the order they happen. *)
Inductive Effect : Type :=
| Fetch (req : Request)               (* fetch(url, init) is called *)
| CreateObjectURL (audioUrl : string)
| AudioPlay (audioUrl : string)       (* audio.play(): the sound starts *)
| AudioEnded                          (* the audio's 'ended' event *)
| AudioError                          (* the audio's 'error' event *)
| RevokeObjectURL (audioUrl : string)
| ConsoleError (label : string)
| SpeechSynthesisSpeak (u : Utterance).

(** Values a promise rejects with (what [catch (error)] binds). *)
Inductive Reason : Type :=
| NetworkFailure            (* fetch() rejected *)
| ApiError (status : Z)     (* new Error(`ElevenLabs API error: ${status}`) *)
| BodyFailure               (* response.blob() / response.json() rejected *)
| PlaybackError             (* the event passed to audio.onerror *)
| PlayRejected              (* audio.play() rejected *)
| PropertyOfNull.           (* TypeError: reading a property of null *)

(** ** JSON values, as [response.json()] produces them *)

#[local] Unset Elimination Schemes.
Inductive Json : Type :=
| JNull
| JBool (b : bool)
| JNumber (x : JS.Number)
| JString (s : string)
| JArray (items : list Json)
| JObject (fields : list (string * Json)).
#[local] Set Elimination Schemes.

(** A JavaScript value read from parsed JSON: [None] is [undefined]. *)
Definition Value : Type := option Json.

(** [data.name]: a [TypeError] on [null]; on an object the member, the
    last one when the text repeated the key; [undefined] otherwise. *)
Definition getProperty (data : Json) (name : string) : Reason + Value :=
  match data with
  | JNull => inl PropertyOfNull
  | JObject fields =>
      inr (snd <$> List.find (fun kv => String.eqb (fst kv) name) (rev fields))
  | _ => inr None
  end.

Definition truthy (v : Value) : bool :=
  match v with
  | None | Some JNull | Some (JBool false) => false
  | Some (JNumber (S754_zero _)) | Some (JNumber S754_nan) => false
  | Some (JString EmptyString) => false
  | Some _ => true
  end.

(** ** The browser and the network, as one call finds them

    A [Browser] says how each request ends, with a response or with a
    rejection: it describes the calls whose requests settle.  (The code
    sets no timeout; a request that never settles leaves the awaiting
    function pending, and is not described.) *)

Record Response : Type := {
  ok : bool;
  status : Z;
  blob_result : option string;     (* response.blob(): None rejects *)
  json_result : option Json        (* response.json(): None rejects *)
}.

Inductive Playback : Type :=
| PlaysToEnd          (* 'ended' fires *)
| ErrorEvent          (* 'error' fires *)
| PlayRejects         (* the promise of audio.play() rejects *)
| NeverEnds.          (* neither event fires *)

Record Browser : Type := {
  fetch_result : Request -> option Response;   (* None: fetch rejects *)
  playback : Playback;
  objectUrl : string;                          (* URL.createObjectURL's answer *)
  hasSpeechSynthesis : bool                    (* 'speechSynthesis' in window *)
}.

(** ** Asynchronous computations

    The state a promise ends in, with the effects up to that point. *)
Inductive Settled (A : Type) : Type :=
| Fulfilled (a : A)
| Rejected (e : Reason)
| Pending.
Arguments Fulfilled {A} a.
Arguments Rejected {A} e.
Arguments Pending {A}.

Definition Async (A : Type) : Type := Browser -> Settled A * list Effect.

#[global] Instance Async_ret : MRet Async := fun A a _ => (Fulfilled a, []).
#[global] Instance Async_bind : MBind Async := fun A B k m w =>
  match m w with
  | (Fulfilled a, tr) => let '(r, tr') := k a w in (r, tr ++ tr')
  | (Rejected e, tr) => (Rejected e, tr)
  | (Pending, tr) => (Pending, tr)
  end.

Definition emit (e : Effect) : Async unit := fun _ => (Fulfilled tt, [e]).
Definition throw {A : Type} (e : Reason) : Async A := fun _ => (Rejected e, []).

(** [try { body } catch (error) { handler }] inside an async function:
    a rejection of an awaited promise, or a [throw], runs the handler; a
    body that never resumes stays pending. *)
Definition tryCatch {A : Type} (body : Async A) (handler : Reason -> Async A)
  : Async A := fun w =>
  match body w with
  | (Rejected e, tr) => let '(r, tr') := handler e w in (r, tr ++ tr')
  | other => other
  end.

(** [await fetch(url, init)], for a request that settles. *)
Definition fetch (req : Request) : Async Response := fun w =>
  match fetch_result w req with
  | Some response => (Fulfilled response, [Fetch req])
  | None => (Rejected NetworkFailure, [Fetch req])
  end.

(** [await response.blob()] and [await response.json()]. *)
Definition blob (response : Response) : Async string := fun _ =>
  match blob_result response with
  | Some b => (Fulfilled b, [])
  | None => (Rejected BodyFailure, [])
  end.

Definition json (response : Response) : Async Json := fun _ =>
  match json_result response with
  | Some j => (Fulfilled j, [])
  | None => (Rejected BodyFailure, [])
  end.

Definition createObjectURL (audioBlob : string) : Async string := fun w =>
  (Fulfilled (objectUrl w), [CreateObjectURL (objectUrl w)]).

(** [new Promise((resolve, reject) => { audio.onended = ...;
    audio.onerror = ...; audio.play().catch(reject); })].  The executor
    runs at once, so the sound starts when the promise is made; the
    value is the promise, a computation that settles when the audio
    element says so. *)
Definition playbackPromise (audioUrl : string) : Async (Async unit) := fun _ =>
  (Fulfilled (fun w =>
     match playback w with
     | PlaysToEnd => (Fulfilled tt, [AudioEnded; RevokeObjectURL audioUrl])
     | ErrorEvent => (Rejected PlaybackError, [AudioError; RevokeObjectURL audioUrl])
     | PlayRejects => (Rejected PlayRejected, [])
     | NeverEnds => (Pending, [])
     end),
   [AudioPlay audioUrl]).

(** ** The class *)

Record ElevenLabsConfig : Type := {
  config_apiKey : string;
  config_voiceId : option string;
  config_model : option string
}.

Record TextToSpeechService : Type := {
  apiKey : string;
  baseUrl : string;
  defaultVoiceId : string;
  defaultModel : string
}.

Definition new (config : ElevenLabsConfig) : TextToSpeechService :=
  {| apiKey := config_apiKey config;
     baseUrl := "https://api.elevenlabs.io/v1";
     defaultVoiceId := "Rachel";
     defaultModel := "eleven_monolingual_v1" |}.

(** [voiceId || this.defaultVoiceId]: undefined and the empty string are
    falsy. *)
Definition orDefault (voiceId : option string) (default : string) : string :=
  match voiceId with
  | None | Some EmptyString => default
  | Some v => v
  end.

Definition speakRequest (this : TextToSpeechService) (spoken : string)
  (voiceId : option string) : Request :=
  let voice := orDefault voiceId (defaultVoiceId this) in
  {| url := baseUrl this +:+ "/text-to-speech/" +:+ voice;
     method := POST;
     headers := [("Accept", "audio/mpeg"); ("Content-Type", "application/json");
                 ("xi-api-key", apiKey this)];
     body := Some {| text := spoken; model_id := defaultModel this;
                     voice_settings :=
                       "stability:0.5,similarity_boost:0.5,style:0.0,use_speaker_boost:true" |} |}.

(** [fallbackSpeak(text)]. *)
Definition fallbackSpeak (spoken : string) : Async unit := fun w =>
  if hasSpeechSynthesis w
  then (Fulfilled tt,
        [SpeechSynthesisSpeak {| u_text := spoken; lang := "en-US"; rate := 80 |}])
  else (Fulfilled tt, []).

(** [async speak(text, voiceId)].  Inside [try] the function awaits
    [fetch] and [response.blob()] and then returns the playback promise
    without awaiting it: the [try] block has completed, and the promise
    of [speak] takes the state of the returned one. *)
Definition speak (this : TextToSpeechService) (spoken : string)
  (voiceId : option string) : Async unit :=
  returned ← tryCatch
    (response ← fetch (speakRequest this spoken voiceId);
     if negb (ok response) then throw (ApiError (status response))
     else
       audioBlob ← blob response;
       audioUrl ← createObjectURL audioBlob;
       p ← playbackPromise audioUrl;
       mret (Some p))
    (fun error =>
       _ ← emit (ConsoleError "Text-to-speech error:");
       _ ← fallbackSpeak spoken;
       mret None);
  match returned with
  | Some p => p
  | None => mret tt
  end.

Definition voicesRequest (this : TextToSpeechService) : Request :=
  {| url := baseUrl this +:+ "/voices"; method := GET;
     headers := [("xi-api-key", apiKey this)]; body := None |}.

(** [async getVoices()]: [return data.voices || []]. *)
Definition getVoices (this : TextToSpeechService) : Async Json :=
  tryCatch
    (response ← fetch (voicesRequest this);
     if negb (ok response) then throw (ApiError (status response))
     else
       data ← json response;
       match getProperty data "voices" with
       | inl e => throw e
       | inr voices =>
           mret (match voices with
                 | Some v => if truthy voices then v else JArray []
                 | None => JArray []
                 end)
       end)
    (fun error =>
       _ ← emit (ConsoleError "Error fetching voices:");
       mret (JArray [])).

Definition userRequest (this : TextToSpeechService) : Request :=
  {| url := baseUrl this +:+ "/user"; method := GET;
     headers := [("xi-api-key", apiKey this)]; body := None |}.

(** The Number [0]. *)
Definition zero : Json := JNumber (S754_zero false).

(** [subscription?.character_count]: [undefined] when the subscription
    is [undefined] or [null]. *)
Definition character_count (subscription : Value) : Value :=
  match subscription with
  | None | Some JNull => None
  | Some s =>
      match getProperty s "character_count" with
      | inr v => v
      | inl _ => None
      end
  end.

(** [async checkCredits()]:
    [return data.subscription?.character_count || 0]. *)
Definition checkCredits (this : TextToSpeechService) : Async Json :=
  tryCatch
    (response ← fetch (userRequest this);
     if negb (ok response) then throw (ApiError (status response))
     else
       data ← json response;
       match getProperty data "subscription" with
       | inl e => throw e
       | inr subscription =>
           let count := character_count subscription in
           mret (match count with
                 | Some v => if truthy count then v else zero
                 | None => zero
                 end)
       end)
    (fun error =>
       _ ← emit (ConsoleError "Error checking credits:");
       mret zero).

(** ** The singleton: [let ttsService = null], [initTTS], [getTTS].
    The module variable is passed explicitly. *)
Definition Singleton : Type := option TextToSpeechService.

Definition initTTS (key : string) (ttsService : Singleton)
  : Singleton * TextToSpeechService :=
  let service := new {| config_apiKey := key; config_voiceId := None;
                        config_model := None |} in
  (Some service, service).

Definition getTTS (ttsService : Singleton) : option TextToSpeechService :=
  ttsService.

(** ** Callers and observers *)

(** A caller that awaits one call after the other,
    [for (const t of texts) await tts.speak(t)]; each call finds the
    browser and the network in a state of its own. *)
Fixpoint speakSerially (this : TextToSpeechService)
  (calls : list (string * Browser)) : Settled unit * list Effect :=
  match calls with
  | [] => (Fulfilled tt, [])
  | (spoken, w) :: rest =>
      match speak this spoken None w with
      | (Fulfilled _, tr) =>
          let '(r, tr') := speakSerially this rest in (r, tr ++ tr')
      | other => other
      end
  end.

(** Does a sound start while another may still be heard?  An audio
    element sounds from [AudioPlay] to its ['ended'] or ['error'] event.
    An utterance given to [speechSynthesis] is queued behind earlier
    utterances, and the code never learns when it ends. *)
Fixpoint soundsOverlap (audio speech : bool) (tr : list Effect) : bool :=
  match tr with
  | [] => false
  | AudioPlay _ :: tr' => audio || speech || soundsOverlap true speech tr'
  | AudioEnded :: tr' | AudioError :: tr' => soundsOverlap false speech tr'
  | SpeechSynthesisSpeak _ :: tr' => audio || soundsOverlap audio true tr'
  | _ :: tr' => soundsOverlap audio speech tr'
  end.

(** The remote part of a call, as the environment answers it: the
    network delivers a response, its status is a success, and its body
    can be read as a blob. *)
Definition remoteSucceeds (req : Request) (w : Browser) : bool :=
  match fetch_result w req with
  | Some response =>
      ok response
      && match blob_result response with Some _ => true | None => false end
  | None => false
  end.

(** The voice list the provider sends: the array under ["voices"] in
    the JSON document of a successful response. *)
Definition providerVoices (req : Request) (w : Browser) : option (list Json) :=
  match fetch_result w req with
  | Some response =>
      if ok response then
        match json_result response with
        | Some data =>
            match getProperty data "voices" with
            | inr (Some (JArray l)) => Some l
            | _ => None
            end
        | None => None
        end
      else None
  | None => None
  end.

(** The request for the voices fails: network error, non-success status,
    or a body that is not JSON. *)
Definition voicesFail (req : Request) (w : Browser) : bool :=
  match fetch_result w req with
  | Some response =>
      negb (ok response)
      || match json_result response with Some _ => false | None => true end
  | None => true
  end.


(** The key a request carries: the value of its [xi-api-key] header. *)
Definition apiKeyHeader (req : Request) : option string :=
  snd <$> List.find (fun h => String.eqb (fst h) "xi-api-key") (headers req).

(** The object URLs a trace leaves behind: created by
    [URL.createObjectURL] and not given to [URL.revokeObjectURL] since. *)
Fixpoint unrevoked (live : list string) (tr : list Effect) : list string :=
  match tr with
  | [] => live
  | CreateObjectURL u :: tr' => unrevoked (live ++ [u]) tr'
  | RevokeObjectURL u :: tr' =>
      unrevoked (List.filter (fun v => negb (String.eqb v u)) live) tr'
  | _ :: tr' => unrevoked live tr'
  end.

(** A trace revokes only what it holds: every [URL.revokeObjectURL(u)]
    finds [u] created and not yet revoked. *)
Fixpoint revokesOwn (live : list string) (tr : list Effect) : bool :=
  match tr with
  | [] => true
  | CreateObjectURL u :: tr' => revokesOwn (live ++ [u]) tr'
  | RevokeObjectURL u :: tr' =>
      existsb (String.eqb u) live
      && revokesOwn (List.filter (fun v => negb (String.eqb v u)) live) tr'
  | _ :: tr' => revokesOwn live tr'
  end.



End TTS.

(* ===================================================================== *)
(** * The LanguageLearning component and its Flashcard child *)
(* ===================================================================== *)

Module LanguageLearning.

Inductive Difficulty : Type := beginner | intermediate | advanced.

Record FlashcardData : Type := {
  id : string;
  front : string;
  back : string;
  pronunciation : option string;
  example : option string;
  difficulty : option Difficulty;
  partOfSpeech : option string
}.

(** The [useState] cells the speech settings and the flashcard view
    use ([mode], [quizQuestions] and [isLoading] play no part in
    them). *)
Record State : Type := {
  flashcards : list FlashcardData;
  currentCardIndex : Z;
  isCardFlipped : bool;
  error : option string;
  elevenLabsKey : string;
  ttsEnabled : bool
}.

(** The page: the component, the item ['elevenlabs_api_key'] of
    [localStorage] ([None]: [getItem] returns null), and the module
    variable [ttsService] of utils/textToSpeech.ts. *)
Record Page : Type := {
  component : State;
  localStorage : option string;
  ttsService : TTS.Singleton
}.

Definition initialState : State :=
  {| flashcards := []; currentCardIndex := 0; isCardFlipped := false;
     error := None; elevenLabsKey := ""; ttsEnabled := false |}.

Definition setElevenLabsKey (k : string) (s : State) : State :=
  {| flashcards := flashcards s; currentCardIndex := currentCardIndex s;
     isCardFlipped := isCardFlipped s; error := error s;
     elevenLabsKey := k; ttsEnabled := ttsEnabled s |}.

Definition setTtsEnabled (b : bool) (s : State) : State :=
  {| flashcards := flashcards s; currentCardIndex := currentCardIndex s;
     isCardFlipped := isCardFlipped s; error := error s;
     elevenLabsKey := elevenLabsKey s; ttsEnabled := b |}.

Definition setError (e : option string) (s : State) : State :=
  {| flashcards := flashcards s; currentCardIndex := currentCardIndex s;
     isCardFlipped := isCardFlipped s; error := e;
     elevenLabsKey := elevenLabsKey s; ttsEnabled := ttsEnabled s |}.

Definition setFlashcards (cards : list FlashcardData) (s : State) : State :=
  {| flashcards := cards; currentCardIndex := currentCardIndex s;
     isCardFlipped := isCardFlipped s; error := error s;
     elevenLabsKey := elevenLabsKey s; ttsEnabled := ttsEnabled s |}.

Definition setCurrentCardIndex (f : Z -> Z) (s : State) : State :=
  {| flashcards := flashcards s; currentCardIndex := f (currentCardIndex s);
     isCardFlipped := isCardFlipped s; error := error s;
     elevenLabsKey := elevenLabsKey s; ttsEnabled := ttsEnabled s |}.

Definition setIsCardFlipped (b : bool) (s : State) : State :=
  {| flashcards := flashcards s; currentCardIndex := currentCardIndex s;
     isCardFlipped := b; error := error s;
     elevenLabsKey := elevenLabsKey s; ttsEnabled := ttsEnabled s |}.

(** ** Speech settings *)

(** The mount effect: [const savedKey = localStorage.getItem(...);
    if (savedKey) { setElevenLabsKey(savedKey); initTTS(savedKey);
    setTtsEnabled(true); }].  The constructor cannot throw, so the
    [catch] branch is dead. *)
Definition mountEffect (p : Page) : Page :=
  match localStorage p with
  | Some savedKey =>
      if JS.nonEmpty savedKey then
        {| component := setTtsEnabled true (setElevenLabsKey savedKey (component p));
           localStorage := localStorage p;
           ttsService := fst (TTS.initTTS savedKey (ttsService p)) |}
      else p
  | None => p
  end.

(** A freshly loaded page with [stored] in local storage, mounted. *)
Definition load (stored : option string) : Page :=
  mountEffect {| component := initialState; localStorage := stored;
                 ttsService := None |}.

(** [handleSaveElevenLabsKey]. *)
Definition handleSaveElevenLabsKey (p : Page) : Page :=
  let key := JS.trim (elevenLabsKey (component p)) in
  if JS.nonEmpty key then
    {| component := setError None (setTtsEnabled true (component p));
       localStorage := Some key;
       ttsService := fst (TTS.initTTS key (ttsService p)) |}
  else p.

(** [new SpeechSynthesisUtterance(text)] with [lang = 'en-US'] and the
    given rate, spoken if the browser has [speechSynthesis]. *)
Definition browserSpeak (spoken : string) (r : Z) : TTS.Async unit := fun w =>
  if TTS.hasSpeechSynthesis w
  then (TTS.Fulfilled tt,
        [TTS.SpeechSynthesisSpeak
           {| TTS.u_text := spoken; TTS.lang := "en-US"; TTS.rate := r |}])
  else (TTS.Fulfilled tt, []).

(** [async handleSpeak(text)]. *)
Definition handleSpeak (p : Page) (spoken : string) : TTS.Async unit :=
  if negb (ttsEnabled (component p)) then browserSpeak spoken 80
  else
    match TTS.getTTS (ttsService p) with
    | Some tts =>
        TTS.tryCatch (TTS.speak tts spoken None)
          (fun error =>
             _ ← TTS.emit (TTS.ConsoleError "TTS error:");
             browserSpeak spoken 100)
    | None => mret tt
    end.

Inductive SettingsEvent : Type :=
| ChangeKey (value : string)     (* onChange of the key input *)
| ClickSave.                     (* onClick of "Save" *)

Definition settingsStep (p : Page) (ev : SettingsEvent) : Page :=
  match ev with
  | ChangeKey value =>
      {| component := setElevenLabsKey value (component p);
         localStorage := localStorage p; ttsService := ttsService p |}
  | ClickSave => handleSaveElevenLabsKey p
  end.

(** ** Flashcard navigation *)

(** The props [onNext], [onPrevious] and [onFlip] that
    [renderFlashcards] passes to [Flashcard]. *)
Definition onNext (s : State) : State :=
  setIsCardFlipped false
    (setCurrentCardIndex
       (fun prev => Z.min (prev + 1) (Z.of_nat (length (flashcards s)) - 1)) s).

Definition onPrevious (s : State) : State :=
  setIsCardFlipped false
    (setCurrentCardIndex (fun prev => Z.max (prev - 1) 0) s).

Definition onFlip (s : State) : State :=
  setIsCardFlipped (negb (isCardFlipped s)) s.

(** What [handleCreateFlashcards] does with the parsed cards:
    [setFlashcards(cardsArray); setCurrentCardIndex(0);
    setIsCardFlipped(false)]. *)
Definition showCards (cards : list FlashcardData) (s : State) : State :=
  setIsCardFlipped false (setCurrentCardIndex (fun _ => 0) (setFlashcards cards s)).

(** The drag state of the [Flashcard] component. *)
Record Drag : Type := {
  startX : Z;
  isDragging : bool;
  dragOffset : Z
}.

Definition noDrag : Drag := {| startX := 0; isDragging := false; dragOffset := 0 |}.

(** [handleTouchStart] / [handleMouseDown]. *)
Definition handleDown (clientX : Z) (d : Drag) : Drag :=
  {| startX := clientX; isDragging := true; dragOffset := dragOffset d |}.

(** [handleTouchMove] / [handleMouseMove]. *)
Definition handleMove (clientX : Z) (d : Drag) : Drag :=
  if isDragging d
  then {| startX := startX d; isDragging := true;
          dragOffset := clientX - startX d |}
  else d.

(** [handleTouchEnd] / [handleMouseUp]: a drag of more than 100 pixels
    calls [onPrevious] (to the right) or [onNext] (to the left). *)
Definition handleUp (v : State * Drag) : State * Drag :=
  let (s, d) := v in
  if isDragging d then
    let s' := if 100 <? Z.abs (dragOffset d)
              then (if 0 <? dragOffset d then onPrevious s else onNext s)
              else s in
    (s', {| startX := startX d; isDragging := false; dragOffset := 0 |})
  else v.

Inductive CardEvent : Type :=
| ClickNext
| ClickPrevious
| ClickCard                   (* onClick of the card: onFlip *)
| PointerDown (clientX : Z)   (* touchstart, mousedown *)
| PointerMove (clientX : Z)   (* touchmove, mousemove *)
| PointerUp.                  (* touchend, mouseup, mouseleave *)

Definition cardStep (v : State * Drag) (ev : CardEvent) : State * Drag :=
  match ev with
  | ClickNext => (onNext (fst v), snd v)
  | ClickPrevious => (onPrevious (fst v), snd v)
  | ClickCard => (onFlip (fst v), snd v)
  | PointerDown x => (fst v, handleDown x (snd v))
  | PointerMove x => (fst v, handleMove x (snd v))
  | PointerUp => handleUp v
  end.

(** The flashcard view after [cards] were created and the user did
    [evs]. *)
Definition study (cards : list FlashcardData) (evs : list CardEvent)
  : State * Drag :=
  fold_left cardStep evs (showCards cards initialState, noDrag).

(** ** Observers *)



(** The page after the user did [evs] in the settings. *)
Definition configure (stored : option string) (evs : list SettingsEvent) : Page :=
  fold_left settingsStep evs (load stored).

(** The view shows [cards] and its index is one of theirs. *)
Definition inBounds (cards : list FlashcardData) (v : State * Drag) : Prop :=
  flashcards (fst v) = cards
  /\ 0 <= currentCardIndex (fst v) <= Z.of_nat (length cards) - 1.

(** ** The Flashcard child under any parent

    [handleTouchEnd] / [handleMouseUp] with the props [onNext] and
    [onPrevious] as the parent passes them. *)
Definition handleTouchEnd {S : Type} (onNext onPrevious : S -> S)
  (v : S * Drag) : S * Drag :=
  let (s, d) := v in
  if isDragging d then
    let s' := if 100 <? Z.abs (dragOffset d)
              then (if 0 <? dragOffset d then onPrevious s else onNext s)
              else s in
    (s', {| startX := startX d; isDragging := false; dragOffset := 0 |})
  else v.

(** ** Creating content

    The remaining [useState] cells of the component. *)
Inductive LearningMode : Type :=
| mode_home | mode_flashcards | mode_quiz | mode_pronunciation | mode_settings.

Record Screen : Type := {
  cells : State;
  mode : LearningMode;
  quizQuestions : list Quiz.QuizQuestion;
  isLoading : bool;
  drag : Drag                  (* the state of the Flashcard child *)
}.

Definition withCells (f : State -> State) (s : Screen) : Screen :=
  {| cells := f (cells s); mode := mode s; quizQuestions := quizQuestions s;
     isLoading := isLoading s; drag := drag s |}.

Definition setMode (m : LearningMode) (s : Screen) : Screen :=
  {| cells := cells s; mode := m; quizQuestions := quizQuestions s;
     isLoading := isLoading s; drag := drag s |}.

Definition setQuizQuestions (l : list Quiz.QuizQuestion) (s : Screen) : Screen :=
  {| cells := cells s; mode := mode s; quizQuestions := l;
     isLoading := isLoading s; drag := drag s |}.

Definition setIsLoading (b : bool) (s : Screen) : Screen :=
  {| cells := cells s; mode := mode s; quizQuestions := quizQuestions s;
     isLoading := b; drag := drag s |}.

(** What [await onCreateFlashcards(...)] and the [JSON.parse] after it
    come to.  The parsed value is taken at the type the code gives it
    ([FlashcardData], [QuizQuestion]); the code does not check it. *)
Inductive Reply (A : Type) : Type :=
| Rejects (error : string)    (* the promise rejects; [`${error}`] is its text *)
| NoData                      (* [result] or [result.data] is falsy *)
| Unparsable                  (* [JSON.parse(result.data)] throws *)
| Single (a : A)              (* the text denotes one value, not an array *)
| Many (l : list A).          (* the text denotes an array *)
Arguments Rejects {A} error.
Arguments NoData {A}.
Arguments Unparsable {A}.
Arguments Single {A} a.
Arguments Many {A} l.

(** [handleCreateFlashcards] up to its [await]. *)
Definition handleCreateFlashcards_start (s : Screen) : Screen :=
  withCells (setError None) (setIsLoading true s).

(** [handleCreateFlashcards] from the [await] on, the [finally] block
    last. *)
Definition handleCreateFlashcards_resume (reply : Reply FlashcardData)
  (s : Screen) : Screen :=
  setIsLoading false
    match reply with
    | Rejects e =>
        withCells (setError (Some ("Error creating flashcards: " +:+ e))) s
    | NoData => withCells (setError (Some "Failed to create flashcards")) s
    | Unparsable => withCells (setError (Some "Failed to parse flashcard data")) s
    | Single parsedData => setMode mode_flashcards (withCells (showCards [parsedData]) s)
    | Many parsedData => setMode mode_flashcards (withCells (showCards parsedData) s)
    end.

(** [handleCreateQuiz], in the same two parts. *)
Definition handleCreateQuiz_start (s : Screen) : Screen :=
  withCells (setError None) (setIsLoading true s).

Definition handleCreateQuiz_resume (reply : Reply Quiz.QuizQuestion)
  (s : Screen) : Screen :=
  setIsLoading false
    match reply with
    | Rejects e => withCells (setError (Some ("Error creating quiz: " +:+ e))) s
    | NoData => withCells (setError (Some "Failed to create quiz")) s
    | Unparsable => withCells (setError (Some "Failed to parse quiz data")) s
    | Single parsedData => setMode mode_quiz (setQuizQuestions [parsedData] s)
    | Many parsedData => setMode mode_quiz (setQuizQuestions parsedData s)
    end.

(** [handleQuizComplete(score, results)]: logs and goes home. *)
Definition handleQuizComplete (s : Screen) : Screen := setMode mode_home s.

(** The Flashcard child is on the page: [mode === 'flashcards'] and
    [flashcards.length > 0]. *)
Definition flashcardRendered (s : Screen) : bool :=
  match mode s, flashcards (cells s) with
  | mode_flashcards, _ :: _ => true
  | _, _ => false
  end.

Inductive ScreenEvent : Type :=
| Navigate (m : LearningMode)                      (* a button that calls [setMode] *)
| CreateFlashcards                                 (* [handleCreateFlashcards] is called *)
| FlashcardsReply (reply : Reply FlashcardData)    (* its [await] resumes *)
| CreateQuiz
| QuizReply (reply : Reply Quiz.QuizQuestion)
| QuizCompleted                                    (* the Quiz child calls [onComplete] *)
| OnCard (ev : CardEvent).                         (* an event on the Flashcard child *)

(** The Flashcard child takes events only while it is rendered. *)
Definition onCard (cev : CardEvent) (s : Screen) : Screen :=
  if flashcardRendered s then
    let v := cardStep (cells s, drag s) cev in
    {| cells := fst v; mode := mode s; quizQuestions := quizQuestions s;
       isLoading := isLoading s; drag := snd v |}
  else s.

(** A child that is not rendered has no state: it starts with a fresh
    one when it is rendered again. *)
Definition unmountHidden (s : Screen) : Screen :=
  if flashcardRendered s then s
  else {| cells := cells s; mode := mode s; quizQuestions := quizQuestions s;
          isLoading := isLoading s; drag := noDrag |}.

(** One event, and the render that follows it. *)
Definition screenStep (s : Screen) (ev : ScreenEvent) : Screen :=
  unmountHidden
    match ev with
    | Navigate m => setMode m s
    | CreateFlashcards => handleCreateFlashcards_start s
    | FlashcardsReply reply => handleCreateFlashcards_resume reply s
    | CreateQuiz => handleCreateQuiz_start s
    | QuizReply reply => handleCreateQuiz_resume reply s
    | QuizCompleted => handleQuizComplete s
    | OnCard cev => onCard cev s
    end.

Definition initialScreen : Screen :=
  {| cells := initialState; mode := mode_home; quizQuestions := [];
     isLoading := false; drag := noDrag |}.

Definition useScreen (evs : list ScreenEvent) : Screen :=
  fold_left screenStep evs initialScreen.

(** The card on display, [cards[currentIndex]], when the child is
    rendered. *)
Definition currentCard (s : Screen) : option FlashcardData :=
  if flashcardRendered s
  then match currentCardIndex (cells s) with
       | Z.neg _ => None
       | i => flashcards (cells s) !! Z.to_nat i
       end
  else None.

(** The service speaks with the stored key. *)
Definition serviceHoldsStoredKey (p : Page) : Prop :=
  forall tts, TTS.getTTS (ttsService p) = Some tts ->
              localStorage p = Some (TTS.apiKey tts).

(** The index is one of the list's, or 0 while the list is empty. *)
Definition indexFits (s : Screen) : Prop :=
  0 <= currentCardIndex (cells s)
  /\ (currentCardIndex (cells s) < Z.of_nat (length (flashcards (cells s)))
      \/ (flashcards (cells s) = [] /\ currentCardIndex (cells s) = 0)).

End LanguageLearning.

(* ===================================================================== *)
(** * The App component (app.tsx) *)
(* ===================================================================== *)

Module App.

Inductive AppMode : Type :=
| mode_home | mode_flashcards | mode_quiz | mode_pronunciation | mode_grammar.

(** The [useState] cells that change.  [flashcards] and [quizQuestions]
    are cells without a setter: constants of the component, of which
    the handlers read only [flashcards.length]. *)
Record State : Type := {
  theme : string;
  currentMode : AppMode;
  currentFlashcardIndex : JS.Rounded;
  isCardFlipped : bool;
  elevenlabsKey : string
}.

(** The page: the component with the drag state of its Flashcard child,
    the class list of [document.documentElement], the items ['theme']
    and ['elevenlabs_api_key'] of [localStorage], the module variable
    [ttsService], and the texts shown by [alert]. *)
Record Page : Type := {
  component : State;
  drag : LanguageLearning.Drag;
  classList : gset string;
  storedTheme : option string;
  storedKey : option string;
  ttsService : TTS.Singleton;
  alerts : list string
}.

Definition withComponent (f : State -> State) (p : Page) : Page :=
  {| component := f (component p); drag := drag p; classList := classList p;
     storedTheme := storedTheme p; storedKey := storedKey p;
     ttsService := ttsService p; alerts := alerts p |}.

Definition setTheme (t : string) (s : State) : State :=
  {| theme := t; currentMode := currentMode s;
     currentFlashcardIndex := currentFlashcardIndex s;
     isCardFlipped := isCardFlipped s; elevenlabsKey := elevenlabsKey s |}.

Definition setCurrentMode (m : AppMode) (s : State) : State :=
  {| theme := theme s; currentMode := m;
     currentFlashcardIndex := currentFlashcardIndex s;
     isCardFlipped := isCardFlipped s; elevenlabsKey := elevenlabsKey s |}.

Definition setCurrentFlashcardIndex (f : JS.Rounded -> JS.Rounded) (s : State)
  : State :=
  {| theme := theme s; currentMode := currentMode s;
     currentFlashcardIndex := f (currentFlashcardIndex s);
     isCardFlipped := isCardFlipped s; elevenlabsKey := elevenlabsKey s |}.

Definition setIsCardFlipped (b : bool) (s : State) : State :=
  {| theme := theme s; currentMode := currentMode s;
     currentFlashcardIndex := currentFlashcardIndex s;
     isCardFlipped := b; elevenlabsKey := elevenlabsKey s |}.

Definition setElevenlabsKey (k : string) (s : State) : State :=
  {| theme := theme s; currentMode := currentMode s;
     currentFlashcardIndex := currentFlashcardIndex s;
     isCardFlipped := isCardFlipped s; elevenlabsKey := k |}.

(** ** Theme *)

(** The initializer of the [theme] cell:
    [(savedTheme as "dark" | "light") || "dark"]; the cast checks
    nothing. *)
Definition initialTheme (savedTheme : option string) : string :=
  match savedTheme with
  | Some t => if JS.nonEmpty t then t else "dark"
  | None => "dark"
  end.

(** The theme effect, dependencies [[theme]]. *)
Definition themeEffect (p : Page) : Page :=
  let t := theme (component p) in
  {| component := component p; drag := drag p;
     classList := if String.eqb t "dark"
                  then (classList p ∪ {["dark"]}) ∖ {["light"]}
                  else (classList p ∖ {["dark"]}) ∪ {["light"]};
     storedTheme := Some t; storedKey := storedKey p;
     ttsService := ttsService p; alerts := alerts p |}.

(** [toggleTheme], the render and the effect that follow it. *)
Definition toggleTheme (p : Page) : Page :=
  let newTheme := if String.eqb (theme (component p)) "dark"
                  then "light" else "dark" in
  let p' := withComponent (setTheme newTheme) p in
  if String.eqb (theme (component p)) newTheme then p' else themeEffect p'.

(** ** Speech *)

(** The mount effect: [if (savedKey) { setElevenlabsKey(savedKey);
    initTTS(savedKey); }]. *)
Definition keyEffect (p : Page) : Page :=
  match storedKey p with
  | Some savedKey =>
      if JS.nonEmpty savedKey then
        {| component := setElevenlabsKey savedKey (component p); drag := drag p;
           classList := classList p; storedTheme := storedTheme p;
           storedKey := storedKey p;
           ttsService := fst (TTS.initTTS savedKey (ttsService p));
           alerts := alerts p |}
      else p
  | None => p
  end.

(** [onClick] of "Save API Key". *)
Definition saveApiKey (p : Page) : Page :=
  let key := elevenlabsKey (component p) in
  if JS.nonEmpty (JS.trim key) then
    {| component := component p; drag := drag p;
       classList := classList p; storedTheme := storedTheme p;
       storedKey := Some key;
       ttsService := fst (TTS.initTTS key (ttsService p));
       alerts := alerts p ++ ["ElevenLabs API key saved!"] |}
  else p.

(** [async handleSpeak(text)]. *)
Definition handleSpeak (p : Page) (spoken : string) : TTS.Async unit :=
  match TTS.getTTS (ttsService p) with
  | Some tts =>
      TTS.tryCatch (TTS.speak tts spoken None)
        (fun error =>
           _ ← TTS.emit (TTS.ConsoleError "TTS error:");
           LanguageLearning.browserSpeak spoken 100)
  | None => LanguageLearning.browserSpeak spoken 100
  end.

(** ** Flashcards *)

Section Cards.

Variable flashcards : list LanguageLearning.FlashcardData.

(** [setCurrentFlashcardIndex((prev) => (prev + 1) % flashcards.length);
    setIsCardFlipped(false)]. *)
Definition handleNextCard (s : State) : State :=
  setIsCardFlipped false
    (setCurrentFlashcardIndex
       (fun prev =>
          match prev with
          | JS.Int i => JS.remainder (i + 1) (Z.of_nat (length flashcards))
          | _ => JS.NaN
          end) s).

(** [setCurrentFlashcardIndex((prev) =>
       (prev - 1 + flashcards.length) % flashcards.length);
    setIsCardFlipped(false)]. *)
Definition handlePreviousCard (s : State) : State :=
  setIsCardFlipped false
    (setCurrentFlashcardIndex
       (fun prev =>
          match prev with
          | JS.Int i =>
              JS.remainder (i - 1 + Z.of_nat (length flashcards))
                (Z.of_nat (length flashcards))
          | _ => JS.NaN
          end) s).

Definition handleFlipCard (s : State) : State :=
  setIsCardFlipped (negb (isCardFlipped s)) s.

(** [cards[currentIndex]] in the Flashcard child: [None] is
    [undefined], and then the child renders nothing. *)
Definition currentCard (s : State) : option LanguageLearning.FlashcardData :=
  match currentFlashcardIndex s with
  | JS.Int (Z.neg _) => None
  | JS.Int i => flashcards !! Z.to_nat i
  | _ => None
  end.

(** The Flashcard child is on the page. *)
Definition flashcardRendered (s : State) : bool :=
  match currentMode s, currentCard s with
  | mode_flashcards, Some _ => true
  | _, _ => false
  end.

(** An event on the Flashcard child.  "Previous" is [disabled] when
    [currentIndex === 0], "Next" when
    [currentIndex === cards.length - 1]; a swipe calls the parent's
    handlers whatever the index. *)
Definition cardStep (v : State * LanguageLearning.Drag)
  (ev : LanguageLearning.CardEvent) : State * LanguageLearning.Drag :=
  match ev with
  | LanguageLearning.ClickNext =>
      if JS.Rounded_eqb (currentFlashcardIndex (fst v))
           (JS.Int (Z.of_nat (length flashcards) - 1))
      then v else (handleNextCard (fst v), snd v)
  | LanguageLearning.ClickPrevious =>
      if JS.Rounded_eqb (currentFlashcardIndex (fst v)) (JS.Int 0)
      then v else (handlePreviousCard (fst v), snd v)
  | LanguageLearning.ClickCard => (handleFlipCard (fst v), snd v)
  | LanguageLearning.PointerDown x => (fst v, LanguageLearning.handleDown x (snd v))
  | LanguageLearning.PointerMove x => (fst v, LanguageLearning.handleMove x (snd v))
  | LanguageLearning.PointerUp =>
      LanguageLearning.handleTouchEnd handleNextCard handlePreviousCard v
  end.

Inductive Event : Type :=
| ToggleTheme                                  (* the theme button *)
| Navigate (m : AppMode)                       (* a button that calls [setCurrentMode] *)
| ChangeKey (value : string)                   (* onChange of the key input *)
| ClickSaveKey                                 (* "Save API Key" *)
| OnCard (ev : LanguageLearning.CardEvent).    (* an event on the Flashcard child *)

(** The Flashcard child takes events only while it is rendered. *)
Definition onCard (cev : LanguageLearning.CardEvent) (p : Page) : Page :=
  if flashcardRendered (component p) then
    let v := cardStep (component p, drag p) cev in
    {| component := fst v; drag := snd v; classList := classList p;
       storedTheme := storedTheme p; storedKey := storedKey p;
       ttsService := ttsService p; alerts := alerts p |}
  else p.

(** A child that is not rendered has no state: it starts with a fresh
    one when it is rendered again. *)
Definition unmountHidden (p : Page) : Page :=
  if flashcardRendered (component p) then p
  else {| component := component p; drag := LanguageLearning.noDrag;
          classList := classList p; storedTheme := storedTheme p;
          storedKey := storedKey p; ttsService := ttsService p;
          alerts := alerts p |}.

(** One event, and the render that follows it. *)
Definition step (p : Page) (ev : Event) : Page :=
  unmountHidden
    match ev with
    | ToggleTheme => toggleTheme p
    | Navigate m => withComponent (setCurrentMode m) p
    | ChangeKey value => withComponent (setElevenlabsKey value) p
    | ClickSaveKey => saveApiKey p
    | OnCard cev => onCard cev p
    end.

(** Loading the page: the initial cells, then both effects.  [classes]
    is the class list of the root element in the document as served. *)
Definition load (savedTheme savedKey : option string) (classes : gset string)
  : Page :=
  keyEffect
    (themeEffect
       {| component := {| theme := initialTheme savedTheme;
                          currentMode := mode_home;
                          currentFlashcardIndex := JS.Int 0;
                          isCardFlipped := false; elevenlabsKey := "" |};
          drag := LanguageLearning.noDrag;
          classList := classes;
          storedTheme := savedTheme; storedKey := savedKey;
          ttsService := None; alerts := [] |}).

Definition use (savedTheme savedKey : option string) (classes : gset string)
  (evs : list Event) : Page :=
  fold_left step evs (load savedTheme savedKey classes).

(** ** Observers *)

Definition serviceHoldsStoredKey (p : Page) : Prop :=
  forall tts, TTS.getTTS (ttsService p) = Some tts ->
              storedKey p = Some (TTS.apiKey tts).

(** The index is an integer, and one of the list's. *)
Definition indexInBounds (s : State) : Prop :=
  exists i, currentFlashcardIndex s = JS.Int i
            /\ 0 <= i < Z.of_nat (length flashcards).

Definition cardInBounds (p : Page) : Prop := indexInBounds (component p).

(** The root element shows the theme: of the classes [dark] and [light]
    it has the one the theme asks for, its other classes are those of
    [classes], and the theme is stored. *)
Definition themeApplied (classes : gset string) (p : Page) : Prop :=
  ("dark" ∈ classList p <-> theme (component p) = "dark")
  /\ ("light" ∈ classList p <-> theme (component p) <> "dark")
  /\ (forall c, c <> "dark" -> c <> "light" -> (c ∈ classList p <-> c ∈ classes))
  /\ storedTheme p = Some (theme (component p)).

End Cards.

End App.

(* ===================================================================== *)
(** * The agent's memory tools (tools.ts) *)
(* ===================================================================== *)

Module Tools.

(** [Record<string, string>]: the own properties of the object. *)
Definition Memory : Type := gmap string string.

(** [agent.state as { memory?: Record<string, string> }]: [None] is a
    state without the member. *)
Record AgentState : Type := {
  memory : option Memory
}.

Record Agent : Type := {
  state : AgentState
}.

(** [agent.setState(s)] stores the object it is given. *)
Definition setState (s : AgentState) (a : Agent) : Agent := {| state := s |}.

(** [setMemory.execute({ key, value })]; [agent] is what
    [getCurrentAgent()] holds, [None] outside an agent's context, where
    reading [agent!.state] raises a [TypeError]. *)
Definition setMemory (key value : string) (agent : option Agent)
  : Completion (string * Agent) :=
  match agent with
  | None => Throw TypeError
  | Some a =>
      let agentState := state a in
      let currentMemory := default ∅ (memory agentState) in
      let updatedMemory := <[key := value]> currentMemory in
      Normal ("Memory " +:+ JS.quoted key +:+ " set to " +:+ JS.quoted value,
              setState {| memory := Some updatedMemory |} a)
  end.

(** [forgetMemory.execute({ key })]:
    [const { [key]: _, ...updatedMemory } = currentMemory]. *)
Definition forgetMemory (key : string) (agent : option Agent)
  : Completion (string * Agent) :=
  match agent with
  | None => Throw TypeError
  | Some a =>
      let agentState := state a in
      let currentMemory := default ∅ (memory agentState) in
      let updatedMemory := delete key currentMemory in
      Normal ("Memory entry " +:+ JS.quoted key +:+ " forgotten",
              setState {| memory := Some updatedMemory |} a)
  end.

(** A tool call of the model. *)
Inductive Call : Type :=
| SetMemory (key value : string)
| ForgetMemory (key : string).

Definition call (c : Call) (a : Agent) : Completion (string * Agent) :=
  match c with
  | SetMemory key value => setMemory key value (Some a)
  | ForgetMemory key => forgetMemory key (Some a)
  end.

(** The agent after a conversation's calls, oldest first. *)
Fixpoint calls (cs : list Call) (a : Agent) : Completion Agent :=
  match cs with
  | [] => Normal a
  | c :: rest => r ← call c a; calls rest r.2
  end.

(** What the agent remembers under [key]. *)
Definition recall (a : Agent) (key : string) : option string :=
  default ∅ (memory (state a)) !! key.

(** What the calls say about [key], read in order: the last value set,
    nothing after a forget, [before] if no call names the key. *)
Definition told (key : string) (cs : list Call) (before : option string)
  : option string :=
  fold_left
    (fun known c =>
       match c with
       | SetMemory k v => if String.eqb k key then Some v else known
       | ForgetMemory k => if String.eqb k key then None else known
       end)
    cs before.

End Tools.

(* ===================================================================== *)
(** * The exercises of the chat view (standalone app.tsx) *)
(* ===================================================================== *)

Module Chat.

(** The cells that record what the user did with the exercises of the
    messages.  An object used as a map is a finite map of its own
    properties; every key the code makes contains a ["-"], so none is a
    property of [Object.prototype]. *)
Record State : Type := {
  selectedAnswers : gmap string Z;
  quizResults : gmap string bool;
  flippedCards : gmap string bool;
  pronunciationAttempts : gmap string Z
}.

Definition initialState : State :=
  {| selectedAnswers := ∅; quizResults := ∅; flippedCards := ∅;
     pronunciationAttempts := ∅ |}.

(** [`${message.id}-${item.id}`]. *)
Definition itemKey (messageId itemId : string) : string :=
  messageId +:+ "-" +:+ itemId.

(** [selectedAnswers[questionKey] !== undefined]: the result is shown
    and the option buttons are [disabled]. *)
Definition showResult (s : State) (questionKey : string) : bool :=
  match selectedAnswers s !! questionKey with
  | Some _ => true
  | None => false
  end.

(** [onClick] of the option [optIndex] of [question] in the message
    [messageId]; a disabled button takes no click. *)
Definition clickOption (messageId : string) (question : Quiz.QuizQuestion)
  (optIndex : Z) (s : State) : State :=
  let questionKey := itemKey messageId (Quiz.id question) in
  let isCorrect := optIndex =? Quiz.correctAnswer question in
  if showResult s questionKey then s
  else {| selectedAnswers := <[questionKey := optIndex]> (selectedAnswers s);
          quizResults := <[questionKey := isCorrect]> (quizResults s);
          flippedCards := flippedCards s;
          pronunciationAttempts := pronunciationAttempts s |}.

(** [flippedCards[cardKey] || false]. *)
Definition isFlipped (s : State) (cardKey : string) : bool :=
  default false (flippedCards s !! cardKey).

(** [onClick] of a card:
    [setFlippedCards(prev => ({ ...prev, [cardKey]: !prev[cardKey] }))]. *)
Definition clickCard (messageId cardId : string) (s : State) : State :=
  let cardKey := itemKey messageId cardId in
  {| selectedAnswers := selectedAnswers s; quizResults := quizResults s;
     flippedCards :=
       <[cardKey := negb (default false (flippedCards s !! cardKey))]>
         (flippedCards s);
     pronunciationAttempts := pronunciationAttempts s |}.

(** [pronunciationAttempts[exerciseKey] || 0]. *)
Definition attempts (s : State) (exerciseKey : string) : Z :=
  default 0 (pronunciationAttempts s !! exerciseKey).

(** [onClick] of "Listen": the state update
    [{ ...prev, [exerciseKey]: attempts + 1 }], with [attempts] the
    value of the render. *)
Definition clickListen (messageId exerciseId : string) (s : State) : State :=
  let exerciseKey := itemKey messageId exerciseId in
  {| selectedAnswers := selectedAnswers s; quizResults := quizResults s;
     flippedCards := flippedCards s;
     pronunciationAttempts :=
       <[exerciseKey := attempts s exerciseKey + 1]> (pronunciationAttempts s) |}.

Inductive Click : Type :=
| Option (messageId : string) (question : Quiz.QuizQuestion) (optIndex : Z)
| Card (messageId cardId : string)
| Listen (messageId exerciseId : string)
| Practice (messageId exerciseId : string).   (* "Practice Mode": speaks only *)

Definition click (s : State) (c : Click) : State :=
  match c with
  | Option messageId question optIndex => clickOption messageId question optIndex s
  | Card messageId cardId => clickCard messageId cardId s
  | Listen messageId exerciseId => clickListen messageId exerciseId s
  | Practice _ _ => s
  end.

Definition clicks (cs : list Click) : State := fold_left click cs initialState.

(** The first click on an option of the question shown under [key]. *)
Fixpoint firstAnswer (key : string) (cs : list Click)
  : option (Z * bool) :=
  match cs with
  | [] => None
  | Option messageId question optIndex :: rest =>
      if String.eqb (itemKey messageId (Quiz.id question)) key
      then Some (optIndex, optIndex =? Quiz.correctAnswer question)
      else firstAnswer key rest
  | _ :: rest => firstAnswer key rest
  end.

(** How often the card, or the "Listen" button, under [key] was
    clicked. *)
Definition cardClicks (key : string) (cs : list Click) : nat :=
  length (List.filter
            (fun c => match c with
                      | Card messageId cardId => String.eqb (itemKey messageId cardId) key
                      | _ => false
                      end) cs).

Definition listenClicks (key : string) (cs : list Click) : nat :=
  length (List.filter
            (fun c => match c with
                      | Listen messageId exerciseId =>
                          String.eqb (itemKey messageId exerciseId) key
                      | _ => false
                      end) cs).

(** ** The conversation *)

Inductive Role : Type := user | assistant | system.

Record QuizData : Type := {
  quiz_id : string;
  title : string;
  questions : list Quiz.QuizQuestion
}.

Record FlashcardData : Type := {
  card_id : string;
  front : string;
  back : string;
  example : option string;
  card_pronunciation : option string
}.

Inductive Difficulty : Type := easy | medium | hard.

Record PronunciationExercise : Type := {
  exercise_id : string;
  word : string;
  ipa : string;
  audioText : string;
  tips : list string;
  exercise_example : string;
  difficulty : Difficulty
}.

Record PronunciationData : Type := {
  pronunciation_id : string;
  pronunciation_title : string;
  pronunciation_exercises : list PronunciationExercise
}.

(** [createdAt] is the [Date] as its time value in milliseconds. *)
Record ChatMessage : Type := {
  message_id : string;
  role : Role;
  content : string;
  createdAt : Z;
  quiz : option QuizData;
  flashcards : option (list FlashcardData);
  pronunciation : option PronunciationData
}.

(** The question lists of [generateQuiz]. *)
Definition grammarQuestions : list Quiz.QuizQuestion :=
  [ {| Quiz.id := "q1";
       Quiz.question := "Which sentence uses the correct past perfect tense?";
       Quiz.options :=
         ["I had finished my homework before dinner.";
          "I have finished my homework before dinner.";
          "I finished my homework before dinner.";
          "I will have finished my homework before dinner."];
       Quiz.correctAnswer := 0;
       Quiz.explanation := Some "Past perfect (had + past participle) shows an action completed before another past action.";
       Quiz.audioText := None |};
    {| Quiz.id := "q2";
       Quiz.question := "Choose the correct conditional sentence:";
       Quiz.options :=
         ["If I was you, I would study harder.";
          "If I were you, I would study harder.";
          "If I am you, I would study harder.";
          "If I will be you, I would study harder."];
       Quiz.correctAnswer := 1;
       Quiz.explanation := Some ("In hypothetical conditions, we use " +:+ JS.quoted "were" +:+ " for all persons in the subjunctive mood.");
       Quiz.audioText := None |};
    {| Quiz.id := "q3";
       Quiz.question := "Which preposition is correct?";
       Quiz.options :=
         ["I arrived in 3 PM.";
          "I arrived on 3 PM.";
          "I arrived at 3 PM.";
          "I arrived by 3 PM."];
       Quiz.correctAnswer := 2;
       Quiz.explanation := Some ("We use " +:+ JS.quoted "at" +:+ " with specific times (at 3 PM, at noon, at midnight).");
       Quiz.audioText := None |} ].

Definition vocabularyQuestions : list Quiz.QuizQuestion :=
  [ {| Quiz.id := "v1";
       Quiz.question := ("What does " +:+ JS.quoted "serendipity" +:+ " mean?");
       Quiz.options :=
         ["A feeling of sadness";
          "A pleasant surprise or fortunate accident";
          "A type of flower";
          "A mathematical concept"];
       Quiz.correctAnswer := 1;
       Quiz.explanation := Some "Serendipity means finding something good without looking for it, a happy accident.";
       Quiz.audioText := None |};
    {| Quiz.id := "v2";
       Quiz.question := ("Which word means " +:+ JS.quoted "using very few words" +:+ "?");
       Quiz.options :=
         ["Verbose";
          "Eloquent";
          "Laconic";
          "Articulate"];
       Quiz.correctAnswer := 2;
       Quiz.explanation := Some "Laconic means expressing much in few words; brief and clearly expressed.";
       Quiz.audioText := None |};
    {| Quiz.id := "v3";
       Quiz.question := ("What does " +:+ JS.quoted "ubiquitous" +:+ " mean?");
       Quiz.options :=
         ["Very rare";
          "Present everywhere";
          "Extremely large";
          "Very old"];
       Quiz.correctAnswer := 1;
       Quiz.explanation := Some "Ubiquitous means present, appearing, or found everywhere.";
       Quiz.audioText := None |} ].

(** The card lists of [generateFlashcards]. *)
Definition vocabularyCards : list FlashcardData :=
  [ {| card_id := "fc1"; front := "Serendipity";
       back := "A pleasant surprise; finding something good by accident";
       example := Some "Meeting my best friend was pure serendipity - we bumped into each other at a coffee shop.";
       card_pronunciation := Some "/ˌserənˈdipədē/" |};
    {| card_id := "fc2"; front := "Eloquent";
       back := "Fluent and persuasive in speaking or writing";
       example := Some "Her eloquent speech moved the entire audience to tears.";
       card_pronunciation := Some "/ˈeləkwənt/" |};
    {| card_id := "fc3"; front := "Ubiquitous";
       back := "Present, appearing, or found everywhere";
       example := Some "Smartphones have become ubiquitous in modern society.";
       card_pronunciation := Some "/yo͞oˈbikwədəs/" |};
    {| card_id := "fc4"; front := "Ephemeral";
       back := "Lasting for a very short time";
       example := Some "The beauty of cherry blossoms is ephemeral, lasting only a few weeks.";
       card_pronunciation := Some "/əˈfem(ə)rəl/" |} ].

Definition grammarCards : list FlashcardData :=
  [ {| card_id := "gc1"; front := "Past Perfect Tense";
       back := "Had + past participle. Shows action completed before another past action.";
       example := Some "I had eaten before she arrived.";
       card_pronunciation := None |};
    {| card_id := "gc2"; front := "Subjunctive Mood";
       back := ("Used for hypothetical situations. Use " +:+ JS.quoted "were" +:+ " for all persons.");
       example := Some "If I were rich, I would travel the world.";
       card_pronunciation := None |};
    {| card_id := "gc3"; front := "Prepositions of Time";
       back := "at (specific times), on (days/dates), in (months/years)";
       example := Some "at 3 PM, on Monday, in July";
       card_pronunciation := None |} ].

(** The exercises of [generatePronunciation]. *)
Definition exercises : list PronunciationExercise :=
  [ {| exercise_id := "p1"; word := "Thought"; ipa := "/θɔːt/";
       audioText := "Thought";
       tips :=
         [("Place your tongue between your teeth for the " +:+ JS.quoted "th" +:+ " sound");
          ("The " +:+ JS.quoted "ough" +:+ " is pronounced like " +:+ JS.quoted "aw" +:+ " in " +:+ JS.quoted "saw");
          ("Keep the " +:+ JS.quoted "t" +:+ " sound crisp at the end")];
       exercise_example := "I had a thought about the pronunciation exercise.";
       difficulty := medium |};
    {| exercise_id := "p2"; word := "Through"; ipa := "/θruː/";
       audioText := "Through";
       tips :=
         [("Start with the " +:+ JS.quoted "th" +:+ " sound (tongue between teeth)");
          ("Glide into the " +:+ JS.quoted "oo" +:+ " sound like in " +:+ JS.quoted "zoo");
          ("The " +:+ JS.quoted "ough" +:+ " here sounds like " +:+ JS.quoted "oo")];
       exercise_example := "We walked through the pronunciation practice.";
       difficulty := hard |};
    {| exercise_id := "p3"; word := "World"; ipa := "/wɜːrld/";
       audioText := "World";
       tips :=
         [("Start with rounded lips for the " +:+ JS.quoted "w" +:+ " sound");
          ("The " +:+ JS.quoted "or" +:+ " sounds like " +:+ JS.quoted "ur" +:+ " in " +:+ JS.quoted "hurt");
          ("Roll the " +:+ JS.quoted "r" +:+ " slightly if you can")];
       exercise_example := "English is spoken around the world.";
       difficulty := easy |};
    {| exercise_id := "p4"; word := "Schedule"; ipa := "/ˈʃedjuːl/";
       audioText := "Schedule";
       tips :=
         [("Start with " +:+ JS.quoted "sh" +:+ " sound (tongue behind teeth)");
          ("The " +:+ JS.quoted "e" +:+ " is pronounced like " +:+ JS.quoted "eh");
          ("End with " +:+ JS.quoted "jool" +:+ " (like " +:+ JS.quoted "jewel" +:+ " but with " +:+ JS.quoted "ool" +:+ ")")];
       exercise_example := "Let me check my schedule for pronunciation practice.";
       difficulty := medium |} ].

(** [String.prototype.toLowerCase] is the engine's: its Unicode case
    mappings are no part of the repository, and the conversation is
    defined for whatever function the engine provides. *)
Section Engine.

Variable toLowerCase : string -> string.

(** The texts of the replies, [responseContent]. *)
Definition quizText (input : string) (quiz : QuizData) : string :=
  "**Thought**: The user asked for "
    +:+ JS.quote
    +:+ input
    +:+ JS.quote
    +:+ ". This is a request for a quiz, so I should create an interactive quiz to test their knowledge and provide immediate feedback with explanations.

**Action**: I'll generate a comprehensive "
    +:+ toLowerCase (title quiz)
    +:+ " with multiple-choice questions that test understanding and provide detailed explanations for each answer.

**Observation**: Creating interactive quizzes helps reinforce learning through active recall and immediate feedback. This follows the ReACT pattern by reasoning about the educational need, taking action to create the quiz, and observing that this method enhances learning retention.

Perfect! I've created an interactive "
    +:+ toLowerCase (title quiz)
    +:+ " for you. Each question includes explanations to help you understand the concepts better. Try answering each question and I'll provide immediate feedback!".

Definition flashcardsText (input : string) : string :=
  "**Thought**: The user asked for "
    +:+ JS.quote
    +:+ input
    +:+ JS.quote
    +:+ ". This is a request for flashcards, so I should create interactive vocabulary cards that include definitions, examples, and pronunciation guides.

**Action**: I'll generate a set of flashcards with advanced vocabulary words, including definitions, example sentences, and pronunciation guides to help with comprehensive learning.

**Observation**: Flashcards are excellent for vocabulary acquisition through spaced repetition and active recall. This ReACT approach helps identify the learning need, create appropriate materials, and observe that this method supports long-term retention.

Excellent! I've created interactive flashcards for you. Click on each card to flip it and see the definition, example sentence, and pronunciation. These cards use spaced repetition principles to help you remember new vocabulary effectively!".

Definition pronunciationText (input : string) : string :=
  "**Thought**: The user asked for "
    +:+ JS.quote
    +:+ input
    +:+ JS.quote
    +:+ ". This is a request for pronunciation practice, so I should create interactive pronunciation exercises with IPA notation, audio examples, and practical tips.

**Action**: I'll generate pronunciation exercises focusing on challenging English sounds, complete with IPA transcription, helpful tips, and audio examples using ElevenLabs TTS for high-quality pronunciation models.

**Observation**: Pronunciation practice is crucial for English learners and benefits from both visual (IPA) and auditory (TTS) feedback. This ReACT approach helps identify pronunciation challenges, create targeted exercises, and observe that multimodal learning enhances pronunciation accuracy.

Perfect! I've created interactive pronunciation exercises for you. Each word includes IPA notation, pronunciation tips, and audio examples. Click the speaker buttons to hear high-quality pronunciations powered by ElevenLabs!".

Definition generalText (input : string) : string :=
  "**Thought**: The user asked "
    +:+ JS.quote
    +:+ input
    +:+ JS.quote
    +:+ ". I need to analyze this request and determine the best way to help them with their English learning. Let me consider what specific aspect of English they might need help with and how I can provide the most valuable assistance.

**Action**: I'll provide a comprehensive response that addresses their question while demonstrating English learning techniques. I'll also suggest related activities that could enhance their learning experience.

**Observation**: This response follows the ReACT pattern by first reasoning about the request, taking action to provide helpful guidance, and now observing the effectiveness of my approach. I should continue to adapt my teaching style based on the user's responses and learning needs.

Great question! I'm here to help you with your English learning journey. Whether you need help with vocabulary, grammar, pronunciation, or conversation practice, I can provide personalized assistance using various interactive tools and techniques.

What specific area of English would you like to focus on today?".

(** The content of the system message. *)
Definition systemPrompt : string :=
  "You are an advanced English Learning AI Agent using the ReACT (Reasoning + Acting) paradigm. You help users learn English through interactive lessons, flashcards, quizzes, pronunciation, and grammar practice.

## ReACT Framework Instructions:
You MUST follow this exact pattern for every response:

**Thought**: [Analyze the user's request and plan your approach]
**Action**: [Choose and execute appropriate tools or provide direct teaching]
**Observation**: [Reflect on the results and plan next steps]

## Available Learning Tools:
- createFlashcard: Generate individual vocabulary flashcards
- createFlashcardSet: Create themed flashcard collections
- createVocabularyQuiz: Generate interactive quizzes
- practicePronunciation: Provide pronunciation guidance
- setElevenLabsKey: Configure text-to-speech
- setMemory: Remember user progress and preferences
- forgetMemory: Clear specific learning data

## Teaching Approach:
1. **Always start with a Thought** - reason about what the user needs
2. **Take Action** - use tools or provide direct instruction
3. **Make Observations** - reflect on effectiveness and suggest improvements
4. **Adapt** - modify approach based on user response

## Example ReACT Pattern:
User: "
    +:+ JS.quote
    +:+ "I want to learn advanced vocabulary"
    +:+ JS.quote
    +:+ "

**Thought**: The user wants advanced vocabulary. I should assess their current level and create appropriate flashcards with challenging words that include pronunciation, examples, and context.

**Action**: I'll create a set of advanced vocabulary flashcards focusing on academic and professional terms.

**Observation**: These flashcards will help build sophisticated vocabulary. I should also offer pronunciation practice and usage examples.

Be interactive, encouraging, and always follow the Thought-Action-Observation pattern!".

(** [generateQuiz(topic)], [generateFlashcards(topic)] and
    [generatePronunciation(topic)]; [now] is what [Date.now()] returns. *)
Definition generateQuiz (topic : string) (now : Z) : QuizData :=
  let isGrammar := JS.includes (toLowerCase topic) "grammar" in
  let questions := if isGrammar then grammarQuestions else vocabularyQuestions in
  {| quiz_id := "quiz-" +:+ JS.toString now;
     title := if isGrammar then "English Grammar Quiz" else "Vocabulary Quiz";
     questions := questions |}.

Definition generateFlashcards (topic : string) : list FlashcardData :=
  let isGrammar := JS.includes (toLowerCase topic) "grammar" in
  if isGrammar then grammarCards else vocabularyCards.

Definition generatePronunciation (topic : string) (now : Z) : PronunciationData :=
  {| pronunciation_id := "pronunciation-" +:+ JS.toString now;
     pronunciation_title := "English Pronunciation Practice";
     pronunciation_exercises := exercises |}.

(** What a request asks for, read off the lower-case input. *)
Definition isPronunciationRequest (userInput : string) : bool :=
  JS.includes userInput "pronunciation" || JS.includes userInput "pronounce"
  || JS.includes userInput "speak" || JS.includes userInput "sound"
  || JS.includes userInput "ipa" || JS.includes userInput "phonetic"
  || JS.includes userInput "accent" || JS.includes userInput "articulate".

Definition isQuizRequest (userInput : string) : bool :=
  negb (isPronunciationRequest userInput)
  && (JS.includes userInput "quiz" || JS.includes userInput "test"
      || JS.includes userInput "question").

Definition isFlashcardRequest (userInput : string) : bool :=
  negb (isPronunciationRequest userInput) && negb (isQuizRequest userInput)
  && (JS.includes userInput "flashcard" || JS.includes userInput "vocabulary"
      || (JS.includes userInput "word" && negb (JS.includes userInput "pronounce"))).

(** The message the timeout callback of [handleSubmit] makes for the
    submitted [input] when it runs at time [now] (the callback reads
    the clock once). *)
Definition aiResponse (input : string) (now : Z) : ChatMessage :=
  let userInput := toLowerCase input in
  if isQuizRequest userInput then
    let quiz := generateQuiz input now in
    {| message_id := JS.toString (now + 1); role := assistant;
       content := quizText input quiz; createdAt := now;
       quiz := Some quiz; flashcards := None; pronunciation := None |}
  else if isFlashcardRequest userInput then
    {| message_id := JS.toString (now + 1); role := assistant;
       content := flashcardsText input; createdAt := now;
       quiz := None; flashcards := Some (generateFlashcards input);
       pronunciation := None |}
  else if isPronunciationRequest userInput then
    {| message_id := JS.toString (now + 1); role := assistant;
       content := pronunciationText input; createdAt := now;
       quiz := None; flashcards := None;
       pronunciation := Some (generatePronunciation input now) |}
  else
    {| message_id := JS.toString (now + 1); role := assistant;
       content := generalText input; createdAt := now;
       quiz := None; flashcards := None; pronunciation := None |}.

Definition userMessage (input : string) (now : Z) : ChatMessage :=
  {| message_id := JS.toString now; role := user; content := input;
     createdAt := now; quiz := None; flashcards := None; pronunciation := None |}.

Definition systemMessage (now : Z) : ChatMessage :=
  {| message_id := "system"; role := system; content := systemPrompt;
     createdAt := now; quiz := None; flashcards := None; pronunciation := None |}.

(** A pending [setTimeout] callback of [handleSubmit]: the [input] of
    the submitting render, and when it is due. *)
Record Timeout : Type := {
  t_input : string;
  due : Z
}.

(** The cells of the conversation, and the pending timeouts. *)
Record Conversation : Type := {
  messages : list ChatMessage;
  input : string;
  isLoading : bool;
  isReasoning : bool;
  timeouts : list Timeout
}.

Definition setInput (value : string) (c : Conversation) : Conversation :=
  {| messages := messages c; input := value; isLoading := isLoading c;
     isReasoning := isReasoning c; timeouts := timeouts c |}.

(** [handleSubmit] of the latest render, called at time [now]. *)
Definition handleSubmit (now : Z) (c : Conversation) : Conversation :=
  if negb (JS.nonEmpty (JS.trim (input c))) || isLoading c then c
  else
    {| messages := messages c ++ [userMessage (input c) now];
       input := "";
       isLoading := true;
       isReasoning := true;
       timeouts := timeouts c ++ [ {| t_input := input c; due := now + 2000 |} ] |}.

(** The timeout callback [t], run at time [now]. *)
Definition respond (t : Timeout) (now : Z) (c : Conversation) : Conversation :=
  {| messages := messages c ++ [aiResponse (t_input t) now];
     input := input c;
     isLoading := false;
     isReasoning := false;
     timeouts := timeouts c |}.

Inductive ChatEvent : Type :=
| ChangeInput (value : string)   (* typing, or a suggestion that calls [setInput] *)
| Submit                         (* the form's submit, or Enter in the text area *)
| TimeoutFires.                  (* the oldest timeout callback runs *)

Definition chatStep (c : Conversation) (e : Z * ChatEvent) : Conversation :=
  match e.2 with
  | ChangeInput value => setInput value c
  | Submit => handleSubmit e.1 c
  | TimeoutFires =>
      match timeouts c with
      | t :: rest =>
          respond t e.1
            {| messages := messages c; input := input c; isLoading := isLoading c;
               isReasoning := isReasoning c; timeouts := rest |}
      | [] => c
      end
  end.

(** The conversation of a page loaded at [t0], after the events. *)
Definition openChat (t0 : Z) : Conversation :=
  {| messages := [systemMessage t0]; input := ""; isLoading := false;
     isReasoning := false; timeouts := [] |}.

Definition chat (t0 : Z) (evs : list (Z * ChatEvent)) : Conversation :=
  fold_left chatStep evs (openChat t0).

(** The events can happen in this order: the clock starts at [t] and
    never runs backwards, and a timeout callback never runs before it
    is due. *)
Fixpoint chatSchedule (t : Z) (c : Conversation) (evs : list (Z * ChatEvent))
  : bool :=
  match evs with
  | [] => true
  | e :: evs' =>
      (t <=? e.1)
      && match e.2, timeouts c with
         | TimeoutFires, p :: _ => due p <=? e.1
         | TimeoutFires, [] => false
         | _, _ => true
         end
      && chatSchedule e.1 (chatStep c e) evs'
  end.

(** An exchange: the text submitted, when, and when it was answered. *)
Definition Exchange : Type := string * Z * Z.

Definition exchange (x : Exchange) : list ChatMessage :=
  [userMessage x.1.1 x.1.2; aiResponse x.1.1 x.2].

(** The question that waits for its reply. *)
Definition waiting (c : Conversation) : list ChatMessage :=
  match timeouts c with
  | t :: _ => [userMessage (t_input t) (due t - 2000)]
  | [] => []
  end.

(** The replies among the messages. *)
Definition replies (ms : list ChatMessage) : list ChatMessage :=
  List.filter (fun m => match role m with assistant => true | _ => false end) ms.

(** A string without a hyphen. *)
Fixpoint noHyphen (s : string) : bool :=
  match s with
  | EmptyString => true
  | String a rest => negb (Ascii.eqb a "-") && noHyphen rest
  end.

(** The messages are the system message, the exchanges [done] and the
    question that waits; there is at most one pending timeout, one
    exactly while [isLoading]; no text submitted is blank. *)
Definition answered (t0 : Z) (done : list Exchange) (c : Conversation) : Prop :=
  messages c = systemMessage t0 :: flat_map exchange done ++ waiting c
  /\ (isLoading c = true <-> timeouts c <> [])
  /\ (length (timeouts c) <= 1)%nat
  /\ Forall (fun t => JS.nonEmpty (JS.trim (t_input t)) = true) (timeouts c)
  /\ Forall (fun x : Exchange => JS.nonEmpty (JS.trim x.1.1) = true) done.

(** The exchanges follow each other in time: each question is asked
    after [lo] and answered at least two seconds later, the next one
    after that answer. *)
Fixpoint inOrder (lo : Z) (done : list Exchange) : Prop :=
  match done with
  | [] => True
  | x :: rest => lo <= x.1.2 /\ x.1.2 + 2000 <= x.2 /\ inOrder x.2 rest
  end.

(** The time of the last answer, [lo] if there is none. *)
Fixpoint lastReply (lo : Z) (done : list Exchange) : Z :=
  match done with
  | [] => lo
  | x :: rest => lastReply x.2 rest
  end.

(** The exchanges are in order, the clock [now] is past the last
    answer, and the pending timeout was set after it. *)
Definition onTime (t0 now : Z) (done : list Exchange) (c : Conversation) : Prop :=
  inOrder t0 done
  /\ lastReply t0 done <= now
  /\ Forall (fun t => lastReply t0 done <= due t - 2000) (timeouts c).

End Engine.

End Chat.

(* ===================================================================== *)
(** * Sample inputs *)
(* ===================================================================== *)

Definition sampleCard (name : string) : LanguageLearning.FlashcardData :=
  {| LanguageLearning.id := name; LanguageLearning.front := name;
     LanguageLearning.back := name; LanguageLearning.pronunciation := None;
     LanguageLearning.example := None; LanguageLearning.difficulty := None;
     LanguageLearning.partOfSpeech := None |}.

Definition sampleService : TTS.TextToSpeechService :=
  TTS.new {| TTS.config_apiKey := "sk_test"; TTS.config_voiceId := None;
             TTS.config_model := None |}.

(** A service made with the empty key. *)
Definition keylessService : TTS.TextToSpeechService :=
  TTS.new {| TTS.config_apiKey := ""; TTS.config_voiceId := None;
             TTS.config_model := None |}.

(** A key of white space only: a space and U+00A0, the no-break space. *)
Definition blankKey : string := String " " (String "194" (String "160" EmptyString)).

(** An audio response, a server error, and a voice list. *)
Definition audioResponse : TTS.Response :=
  {| TTS.ok := true; TTS.status := 200;
     TTS.blob_result := Some "mpeg"; TTS.json_result := None |}.

Definition serverError : TTS.Response :=
  {| TTS.ok := false; TTS.status := 500;
     TTS.blob_result := Some "Internal Server Error"; TTS.json_result := None |}.

Definition undecodable : TTS.Response :=
  {| TTS.ok := true; TTS.status := 200;
     TTS.blob_result := None; TTS.json_result := None |}.

Definition rachel : TTS.Json :=
  TTS.JObject [("voice_id", TTS.JString "21m00"); ("name", TTS.JString "Rachel")].

Definition voicesResponse : TTS.Response :=
  {| TTS.ok := true; TTS.status := 200; TTS.blob_result := Some "json";
     TTS.json_result := Some (TTS.JObject [("voices", TTS.JArray [rachel])]) |}.

(** A browser with a speech synthesizer in which every request gets
    [answer] and playback goes as [p]. *)
Definition browser (answer : option TTS.Response) (p : TTS.Playback) : TTS.Browser :=
  {| TTS.fetch_result := fun _ => answer; TTS.playback := p;
     TTS.objectUrl := "blob:1"; TTS.hasSpeechSynthesis := true |}.

(** A multiple-choice question with four options. *)
Definition sampleQuestion (name : string) (answer : Z) : Quiz.QuizQuestion :=
  {| Quiz.id := name; Quiz.question := "Which one?";
     Quiz.options := ["a"; "b"; "c"; "d"]; Quiz.correctAnswer := answer;
     Quiz.explanation := None; Quiz.audioText := None |}.

(** One question; and the three questions of the specification's
    scenario, with correct options 1, 0 and 2. *)
Definition oneQuestion : Quiz.QuizProps :=
  {| Quiz.questions := [sampleQuestion "q0" 1]; Quiz.timeLimit := 30 |}.

Definition threeQuestions : Quiz.QuizProps :=
  {| Quiz.questions := [sampleQuestion "q0" 1; sampleQuestion "q1" 0;
                        sampleQuestion "q2" 2];
     Quiz.timeLimit := 30 |}.

(** Forty questions whose correct option is the first one. *)
Definition fortyQuestions : Quiz.QuizProps :=
  {| Quiz.questions :=
       map (fun n => sampleQuestion (String (ascii_of_nat (48 + n)) "") 0) (seq 0 40);
     Quiz.timeLimit := 30 |}.

(** The user answers the question that became current at time [t]:
    clicks [choice] after 100 ms and "Submit Answer" after 200 ms; the
    interval ticks twice; the quiz advances 2 s after the submission. *)
Definition answer (t : Z) (choice : Z) : list (Z * Quiz.Event) :=
  [(t + 100, Quiz.ClickOption choice); (t + 200, Quiz.ClickSubmit);
   (t + 1000, Quiz.IntervalTick); (t + 2000, Quiz.IntervalTick);
   (t + 2200, Quiz.TimeoutFires)].

Fixpoint answerAll (t : Z) (choices : list Z) : list (Z * Quiz.Event) :=
  match choices with
  | [] => []
  | choice :: rest => answer t choice ++ answerAll (t + 2200) rest
  end.

(** The scenario of the specification: selections 1, 1 and 2. *)
Definition scenario : list (Z * Quiz.Event) := answerAll 0 [1; 1; 2].



(** The user answers the first question and then leaves the second one
    to the timer: its thirtieth tick comes at 32.2 s. *)
Definition secondQuestionExpires : list (Z * Quiz.Event) :=
  answer 0 1 ++ Quiz.ticks 30 3200.

(** Nobody touches the quiz: the interval ticks every second; the
    timeouts set at 30 s and 31 s fire at 32 s and 33 s. *)
Definition unattended : list (Z * Quiz.Event) :=
  Quiz.ticks 32 1000 ++ [(32000, Quiz.TimeoutFires); (33000, Quiz.TimeoutFires)].

(** The first 23 of forty questions answered correctly, the others
    wrongly. *)
Definition fortyAnswers : list (Z * Quiz.Event) :=
  answerAll 0 (repeat 0 23 ++ repeat 1 17).

(** The quiz shows the result of its only question, on which the user
    chose option 2 where option 1 is correct. *)
Definition wrongChoiceShown : Quiz.QuizState :=
  {| Quiz.currentQuestionIndex := 0%nat; Quiz.selectedAnswer := Some 2;
     Quiz.showResult := true; Quiz.results := []; Quiz.timeLeft := 12;
     Quiz.startTime := 0; Quiz.isComplete := false |}.

(** The provider's account document, with 1200 characters left. *)
Definition userResponse : TTS.Response :=
  {| TTS.ok := true; TTS.status := 200; TTS.blob_result := Some "json";
     TTS.json_result :=
       Some (TTS.JObject
               [("subscription",
                 TTS.JObject [("character_count", TTS.JNumber (JS.of_nat 1200))])]) |}.

(** The three cards of the App, by their fronts. *)
Definition threeCards : list LanguageLearning.FlashcardData :=
  [sampleCard "Serendipity"; sampleCard "Eloquent"; sampleCard "Ubiquitous"].

(** A drag of 150 pixels to the left on the Flashcard child. *)
Definition swipeLeft : list LanguageLearning.CardEvent :=
  [LanguageLearning.PointerDown 300; LanguageLearning.PointerMove 150;
   LanguageLearning.PointerUp].

(** In the App: to the flashcards, then three swipes to the left. *)
Definition threeSwipes : list App.Event :=
  App.Navigate App.mode_flashcards
    :: map App.OnCard (swipeLeft ++ swipeLeft ++ swipeLeft).

(** The App on its last card. *)
Definition onLastCard : App.State :=
  {| App.theme := "dark"; App.currentMode := App.mode_flashcards;
     App.currentFlashcardIndex := JS.Int 2; App.isCardFlipped := true;
     App.elevenlabsKey := "" |}.

(** In LanguageLearning: five cards arrive and the user goes to the
    last one; then a second request brings two cards. *)
Definition recreated : list LanguageLearning.ScreenEvent :=
  [LanguageLearning.CreateFlashcards;
   LanguageLearning.FlashcardsReply
     (LanguageLearning.Many (map sampleCard ["a"; "b"; "c"; "d"; "e"]))]
  ++ repeat (LanguageLearning.OnCard LanguageLearning.ClickNext) 4
  ++ [LanguageLearning.CreateFlashcards;
      LanguageLearning.FlashcardsReply
        (LanguageLearning.Many (map sampleCard ["x"; "y"]))].

(** An agent whose state has no memory yet. *)
Definition freshAgent : Tools.Agent :=
  {| Tools.state := {| Tools.memory := None |} |}.

(** The model notes the level, corrects it, notes a goal and drops it. *)
Definition memoryCalls : list Tools.Call :=
  [Tools.SetMemory "level" "B1"; Tools.SetMemory "goal" "travel";
   Tools.SetMemory "level" "B2"; Tools.ForgetMemory "goal"].

(** In the chat: on the question [q1] of message [m1] the user clicks
    option 2 and then option 1; flips the card [fc1] of message [m2]
    three times; listens to the exercise [p1] of message [m3] twice and
    uses its practice mode once. *)
Definition exerciseClicks : list Chat.Click :=
  [Chat.Option "m1" (sampleQuestion "q1" 1) 2;
   Chat.Card "m2" "fc1";
   Chat.Option "m1" (sampleQuestion "q1" 1) 1;
   Chat.Listen "m3" "p1"; Chat.Card "m2" "fc1"; Chat.Practice "m3" "p1";
   Chat.Listen "m3" "p1"; Chat.Card "m2" "fc1"].

(** A page loaded at 1 s: a quiz is asked for and answered after 2 s,
    then flashcards, answered 2.1 s after the request. *)
Definition twoRequests : list (Z * Chat.ChatEvent) :=
  [(1500, Chat.ChangeInput "Give me a quiz on grammar"); (1600, Chat.Submit);
   (3600, Chat.TimeoutFires);
   (4000, Chat.ChangeInput "Make vocabulary flashcards"); (4100, Chat.Submit);
   (6200, Chat.TimeoutFires)].

(* ===================================================================== *)
(** * Theorems: flashcard navigation *)
(* ===================================================================== *)

Section FlashcardNavigation.
Import LanguageLearning.

Variable cards : list FlashcardData.
Hypothesis nonEmpty : (0 < length cards)%nat.

Lemma onNext_inBounds s d : inBounds cards (s, d) -> inBounds cards (onNext s, d).
Proof.
  unfold inBounds; cbn. intros [Hc Hi]. rewrite Hc. split; [done | lia].
Qed.

Lemma onPrevious_inBounds s d : inBounds cards (s, d) -> inBounds cards (onPrevious s, d).
Proof.
  unfold inBounds; cbn. intros [Hc Hi]. split; [done | lia].
Qed.

Lemma cardStep_inBounds v ev : inBounds cards v -> inBounds cards (cardStep v ev).
Proof.
  destruct v as [s d]. intros H.
  destruct ev; cbn [cardStep fst snd handleUp];
    auto using onNext_inBounds, onPrevious_inBounds.
  destruct (isDragging d); [ | done ].
  destruct (100 <? Z.abs (dragOffset d)); [ | exact H ].
  destruct (0 <? dragOffset d).
  - apply (onPrevious_inBounds s d H).
  - apply (onNext_inBounds s d H).
Qed.

Lemma fold_cardStep_inBounds evs :
  forall v, inBounds cards v -> inBounds cards (fold_left cardStep evs v).
Proof.
  induction evs as [ | ev evs IH]; intros v H; cbn [fold_left]; [done | ].
  apply IH, cardStep_inBounds, H.
Qed.

(** C10.  For a non-empty list of cards, whatever the user clicks and
    drags, the index of the displayed card is between 0 and
    [cards.length - 1]; [onNext] on the last card leaves the index at
    [cards.length - 1], and [onPrevious] on the first card leaves it
    at 0. *)
Theorem flashcard_index_stays_in_bounds :
  (forall evs,
      0 <= currentCardIndex (fst (study cards evs)) <= Z.of_nat (length cards) - 1)
  /\ (forall s,
         flashcards s = cards ->
         currentCardIndex s = Z.of_nat (length cards) - 1 ->
         currentCardIndex (onNext s) = Z.of_nat (length cards) - 1)
  /\ (forall s, currentCardIndex s = 0 -> currentCardIndex (onPrevious s) = 0).
Proof.
  split; [ | split ].
  - intros evs. unfold study.
    apply (fold_cardStep_inBounds evs). split; cbn; [done | lia].
  - intros s Hc Hi. cbn. rewrite Hc, Hi. lia.
  - intros s Hi. cbn. rewrite Hi. reflexivity.
Qed.

End FlashcardNavigation.

(** Two cards; a click on "Next", then a drag of 180 pixels to the left,
    which asks for the next card again: the index stays at 1. *)
Lemma flashcard_index_stays_in_bounds_witness :
  (0 < length [sampleCard "cat"; sampleCard "dog"])%nat
  /\ 0 <= LanguageLearning.currentCardIndex
            (fst (LanguageLearning.study [sampleCard "cat"; sampleCard "dog"]
                    [LanguageLearning.ClickNext; LanguageLearning.PointerDown 300;
                     LanguageLearning.PointerMove 120; LanguageLearning.PointerUp]))
       <= Z.of_nat (length [sampleCard "cat"; sampleCard "dog"]) - 1.
Proof.
  split; [ cbn; lia | ].
  apply (flashcard_index_stays_in_bounds
           [sampleCard "cat"; sampleCard "dog"] ltac:(cbn; lia)).
Defined.

(* ===================================================================== *)
(** * Theorems: the text-to-speech service *)
(* ===================================================================== *)

Section TextToSpeech.
Import TTS.

Variable this : TextToSpeechService.

(** What [speak] does, by the answer of the network and the fate of the
    playback. *)
Lemma speak_cases spoken voiceId w :
  let req := speakRequest this spoken voiceId in
  speak this spoken voiceId w =
  match fetch_result w req with
  | None =>
      (Fulfilled tt,
       [Fetch req; ConsoleError "Text-to-speech error:"] ++ snd (fallbackSpeak spoken w))
  | Some response =>
      if ok response then
        match blob_result response with
        | None =>
            (Fulfilled tt,
             [Fetch req; ConsoleError "Text-to-speech error:"]
               ++ snd (fallbackSpeak spoken w))
        | Some _ =>
            let u := objectUrl w in
            match playback w with
            | PlaysToEnd =>
                (Fulfilled tt,
                 [Fetch req; CreateObjectURL u; AudioPlay u; AudioEnded; RevokeObjectURL u])
            | ErrorEvent =>
                (Rejected PlaybackError,
                 [Fetch req; CreateObjectURL u; AudioPlay u; AudioError; RevokeObjectURL u])
            | PlayRejects =>
                (Rejected PlayRejected, [Fetch req; CreateObjectURL u; AudioPlay u])
            | NeverEnds => (Pending, [Fetch req; CreateObjectURL u; AudioPlay u])
            end
        end
      else
        (Fulfilled tt,
         [Fetch req; ConsoleError "Text-to-speech error:"] ++ snd (fallbackSpeak spoken w))
  end.
Proof.
  intros req. unfold speak, tryCatch, mbind, Async_bind, fetch.
  fold req. destruct (fetch_result w req) as [response | ].
  - destruct (ok response); cbn.
    + unfold blob. destruct (blob_result response) as [b | ]; cbn.
      * destruct (playback w); reflexivity.
      * unfold fallbackSpeak. destruct (hasSpeechSynthesis w); reflexivity.
    + unfold fallbackSpeak. destruct (hasSpeechSynthesis w); reflexivity.
  - cbn. unfold fallbackSpeak. destruct (hasSpeechSynthesis w); reflexivity.
Qed.



(** When the remote part fails, [speak] logs, falls back and fulfils. *)
Lemma speak_remote_failure spoken voiceId w :
  remoteSucceeds (speakRequest this spoken voiceId) w = false ->
  speak this spoken voiceId w =
  (Fulfilled tt,
   [Fetch (speakRequest this spoken voiceId); ConsoleError "Text-to-speech error:"]
     ++ snd (fallbackSpeak spoken w)).
Proof.
  intros H. rewrite speak_cases. cbv zeta. unfold remoteSucceeds in H.
  destruct (fetch_result w _) as [response | ]; [ | reflexivity ].
  destruct (ok response); [ | reflexivity ].
  destruct (blob_result response); [ discriminate | reflexivity ].
Qed.

(** When the remote part succeeds, the playback decides. *)
Lemma speak_remote_success spoken voiceId w :
  remoteSucceeds (speakRequest this spoken voiceId) w = true ->
  speak this spoken voiceId w =
  let req := speakRequest this spoken voiceId in
  let u := objectUrl w in
  match playback w with
  | PlaysToEnd =>
      (Fulfilled tt,
       [Fetch req; CreateObjectURL u; AudioPlay u; AudioEnded; RevokeObjectURL u])
  | ErrorEvent =>
      (Rejected PlaybackError,
       [Fetch req; CreateObjectURL u; AudioPlay u; AudioError; RevokeObjectURL u])
  | PlayRejects => (Rejected PlayRejected, [Fetch req; CreateObjectURL u; AudioPlay u])
  | NeverEnds => (Pending, [Fetch req; CreateObjectURL u; AudioPlay u])
  end.
Proof.
  intros H. rewrite speak_cases. cbv zeta. unfold remoteSucceeds in H.
  destruct (fetch_result w _) as [response | ]; [ | discriminate ].
  destruct (ok response); [ | discriminate ].
  destruct (blob_result response); [ reflexivity | discriminate ].
Qed.

(** C6, as the code has it.  If the remote attempt fails by a network
    error, a non-success HTTP response or a body that cannot be read,
    [speak] logs the error, calls [fallbackSpeak] and its promise is
    fulfilled.  If the audio arrives and its playback fails (the
    ['error'] event, or [audio.play()] rejecting), the promise of
    [speak] is rejected with that error and nothing is handed to the
    browser synthesizer. *)
Theorem speak_falls_back_on_remote_failure spoken voiceId w :
  (remoteSucceeds (speakRequest this spoken voiceId) w = false ->
   speak this spoken voiceId w =
   (Fulfilled tt,
    [Fetch (speakRequest this spoken voiceId); ConsoleError "Text-to-speech error:"]
      ++ snd (fallbackSpeak spoken w)))
  /\ (remoteSucceeds (speakRequest this spoken voiceId) w = true ->
      playback w = ErrorEvent \/ playback w = PlayRejects ->
      exists e tr,
        speak this spoken voiceId w = (Rejected e, tr)
        /\ forall u, SpeechSynthesisSpeak u ∉ tr).
Proof.
  split.
  - apply speak_remote_failure.
  - intros Hok Hp. rewrite (speak_remote_success _ _ _ Hok). cbv zeta.
    destruct Hp as [-> | ->]; eexists _, _; (split; [reflexivity | ]);
      intros u Hin; repeat (apply elem_of_cons in Hin as [Hin | Hin]; [discriminate | ]);
      by apply elem_of_nil in Hin.
Qed.

(** A successful remote call leaves no audio element sounding when it
    is fulfilled, and starts none while another sounds. *)
Lemma speakSerially_no_overlap calls :
  Forall (fun c => remoteSucceeds (speakRequest this (fst c) None) (snd c) = true) calls ->
  soundsOverlap false false (snd (speakSerially this calls)) = false.
Proof.
  induction 1 as [ | [spoken w] calls Hok _ IH]; [reflexivity | ].
  cbn [speakSerially fst snd] in *.
  rewrite (speak_remote_success _ _ _ Hok). cbv zeta.
  destruct (playback w); try reflexivity.
  destruct (speakSerially this calls) as [r tr']. exact IH.
Qed.

(** C7.  When the remote call succeeds, the promise of [speak] is
    fulfilled exactly when the playback ran to its end, and then the
    ['ended'] event of the audio precedes the fulfilment (it is in the
    trace, after [audio.play()]); a caller that awaits one [speak]
    after the other never starts a sound while another is heard. *)
Theorem speak_resolves_after_playback :
  (forall spoken voiceId w,
      remoteSucceeds (speakRequest this spoken voiceId) w = true ->
      (fst (speak this spoken voiceId w) = Fulfilled tt <-> playback w = PlaysToEnd)
      /\ (playback w = PlaysToEnd ->
          snd (speak this spoken voiceId w) =
          [Fetch (speakRequest this spoken voiceId); CreateObjectURL (objectUrl w);
           AudioPlay (objectUrl w); AudioEnded; RevokeObjectURL (objectUrl w)]))
  /\ (forall calls,
         Forall (fun c => remoteSucceeds (speakRequest this (fst c) None) (snd c) = true)
                calls ->
         soundsOverlap false false (snd (speakSerially this calls)) = false).
Proof.
  split; [ | apply speakSerially_no_overlap ].
  intros spoken voiceId w Hok. rewrite (speak_remote_success _ _ _ Hok). cbv zeta.
  destruct (playback w); cbn; (split; [split | ]); congruence.
Qed.

(** C9.  [getVoices] never rejects and never stays pending; when the
    request fails (network error, non-success status, unreadable body)
    it is fulfilled with the empty array, and when the provider sends a
    voice list it is fulfilled with that list. *)
Theorem getVoices_empty_on_failure w :
  (exists v, fst (getVoices this w) = Fulfilled v)
  /\ (voicesFail (voicesRequest this) w = true ->
      fst (getVoices this w) = Fulfilled (JArray []))
  /\ (forall l,
         providerVoices (voicesRequest this) w = Some l ->
         fst (getVoices this w) = Fulfilled (JArray l)).
Proof.
  unfold getVoices, voicesFail, providerVoices, tryCatch, mbind, Async_bind, fetch, json.
  destruct (fetch_result w (voicesRequest this)) as [response | ]; cbn.
  2: { split; [eauto | split; [reflexivity | discriminate]]. }
  destruct (ok response); cbn.
  2: { split; [eauto | split; [reflexivity | discriminate]]. }
  destruct (json_result response) as [data | ]; cbn.
  2: { split; [eauto | split; [reflexivity | discriminate]]. }
  destruct (getProperty data "voices") as [e | [v | ]]; cbn.
  - split; [eauto | split; [discriminate | discriminate]].
  - split; [ destruct (truthy (Some v)); eauto | ].
    split; [discriminate | ].
    intros l Hl. destruct v; try discriminate. by inversion Hl.
  - split; [eauto | split; [discriminate | discriminate]].
Qed.

End TextToSpeech.

(** The provider answers HTTP 500: [speak] logs, speaks through the
    browser and fulfils. *)
Lemma speak_falls_back_on_remote_failure_witness :
  TTS.speak sampleService "hello" None (browser (Some serverError) TTS.PlaysToEnd)
  = (TTS.Fulfilled tt,
     [TTS.Fetch (TTS.speakRequest sampleService "hello" None);
      TTS.ConsoleError "Text-to-speech error:";
      TTS.SpeechSynthesisSpeak
        {| TTS.u_text := "hello"; TTS.lang := "en-US"; TTS.rate := 80 |}]).
Proof.
  apply (proj1 (speak_falls_back_on_remote_failure sampleService "hello" None
                  (browser (Some serverError) TTS.PlaysToEnd))).
  reflexivity.
Defined.

(** A body that cannot be read as audio is a remote failure too. *)
Example speak_falls_back_on_undecodable_audio :
  TTS.speak sampleService "hello" None (browser (Some undecodable) TTS.PlaysToEnd)
  = (TTS.Fulfilled tt,
     [TTS.Fetch (TTS.speakRequest sampleService "hello" None);
      TTS.ConsoleError "Text-to-speech error:";
      TTS.SpeechSynthesisSpeak
        {| TTS.u_text := "hello"; TTS.lang := "en-US"; TTS.rate := 80 |}]).
Proof. reflexivity. Qed.

(** C6, as stated, fails: the audio arrives, its playback raises the
    ['error'] event, and the promise of [speak] is rejected; nothing is
    spoken by the browser synthesizer. *)
Lemma speak_rejects_on_playback_error :
  TTS.speak sampleService "hello" None (browser (Some audioResponse) TTS.ErrorEvent)
  = (TTS.Rejected TTS.PlaybackError,
     [TTS.Fetch (TTS.speakRequest sampleService "hello" None);
      TTS.CreateObjectURL "blob:1"; TTS.AudioPlay "blob:1";
      TTS.AudioError; TTS.RevokeObjectURL "blob:1"]).
Proof. reflexivity. Qed.

(** Two calls awaited one after the other, both played to the end. *)
Lemma speak_resolves_after_playback_witness :
  TTS.soundsOverlap false false
    (snd (TTS.speakSerially sampleService
            [("one", browser (Some audioResponse) TTS.PlaysToEnd);
             ("two", browser (Some audioResponse) TTS.PlaysToEnd)])) = false.
Proof.
  apply (proj2 (speak_resolves_after_playback sampleService)).
  repeat constructor.
Defined.

(** The observer [soundsOverlap] does see an overlap where there can be
    one: a fallback utterance is not awaited, so the audio of the next
    call may start while it is spoken. *)
Example fallback_then_audio_may_overlap :
  TTS.soundsOverlap false false
    (snd (TTS.speakSerially sampleService
            [("one", browser (Some serverError) TTS.PlaysToEnd);
             ("two", browser (Some audioResponse) TTS.PlaysToEnd)])) = true.
Proof. reflexivity. Qed.

(** A voice list is returned as sent; HTTP 500 gives the empty array. *)
Lemma getVoices_empty_on_failure_witness :
  fst (TTS.getVoices sampleService (browser (Some voicesResponse) TTS.PlaysToEnd))
  = TTS.Fulfilled (TTS.JArray [rachel])
  /\ fst (TTS.getVoices sampleService (browser (Some serverError) TTS.PlaysToEnd))
     = TTS.Fulfilled (TTS.JArray []).
Proof.
  split.
  - apply (proj2 (proj2 (getVoices_empty_on_failure sampleService
                           (browser (Some voicesResponse) TTS.PlaysToEnd)))).
    reflexivity.
  - apply (proj1 (proj2 (getVoices_empty_on_failure sampleService
                           (browser (Some serverError) TTS.PlaysToEnd)))).
    reflexivity.
Defined.

(* ===================================================================== *)
(** * Theorems: speech settings *)
(* ===================================================================== *)

Section SpeechSettings.
Import LanguageLearning.





(** (X4) The promise of [handleSpeak] is never rejected: with remote
    speech off it speaks through the browser; with remote speech on, a
    rejection of [tts.speak] (a playback error) is caught, logged, and
    answered with the browser synthesizer. *)
Theorem handleSpeak_never_rejects (p : Page) spoken w :
  (forall e, fst (handleSpeak p spoken w) <> TTS.Rejected e)
  /\ (forall tts e tr,
         ttsEnabled (component p) = true ->
         TTS.getTTS (ttsService p) = Some tts ->
         TTS.speak tts spoken None w = (TTS.Rejected e, tr) ->
         handleSpeak p spoken w =
         (TTS.Fulfilled tt,
          tr ++ TTS.ConsoleError "TTS error:" :: snd (browserSpeak spoken 100 w))).
Proof.
  unfold handleSpeak. split.
  - intros e. destruct (ttsEnabled (component p)); cbn [negb].
    + destruct (TTS.getTTS (ttsService p)) as [tts | ]; [ | discriminate ].
      unfold TTS.tryCatch. destruct (TTS.speak tts spoken None w) as [[[] | e' | ] tr];
        try discriminate.
      unfold browserSpeak, mbind, TTS.Async_bind, TTS.emit.
      destruct (TTS.hasSpeechSynthesis w); discriminate.
    + unfold browserSpeak. destruct (TTS.hasSpeechSynthesis w); discriminate.
  - intros tts e tr -> -> Hrej. cbn [negb]. unfold TTS.tryCatch. rewrite Hrej.
    unfold browserSpeak, mbind, TTS.Async_bind, TTS.emit.
    destruct (TTS.hasSpeechSynthesis w); reflexivity.
Qed.

End SpeechSettings.

(** A key is configured, the audio arrives, its playback fails:
    [handleSpeak] still fulfils, after speaking through the browser. *)
Lemma handleSpeak_never_rejects_witness :
  LanguageLearning.handleSpeak (LanguageLearning.load (Some "sk_test")) "hello"
    (browser (Some audioResponse) TTS.ErrorEvent)
  = (TTS.Fulfilled tt,
     [TTS.Fetch (TTS.speakRequest sampleService "hello" None);
      TTS.CreateObjectURL "blob:1"; TTS.AudioPlay "blob:1";
      TTS.AudioError; TTS.RevokeObjectURL "blob:1";
      TTS.ConsoleError "TTS error:";
      TTS.SpeechSynthesisSpeak
        {| TTS.u_text := "hello"; TTS.lang := "en-US"; TTS.rate := 100 |}]).
Proof.
  apply (proj2 (handleSpeak_never_rejects (LanguageLearning.load (Some "sk_test"))
                  "hello" (browser (Some audioResponse) TTS.ErrorEvent))
           sampleService TTS.PlaybackError
           [TTS.Fetch (TTS.speakRequest sampleService "hello" None);
            TTS.CreateObjectURL "blob:1"; TTS.AudioPlay "blob:1";
            TTS.AudioError; TTS.RevokeObjectURL "blob:1"]);
    reflexivity.
Defined.


(** C8, as stated, fails: a client made with the empty key does not
    resolve without a network call; its [speak] sends the request, with
    the empty key in the header, and plays what comes back. *)
Lemma client_without_key_calls_the_provider :
  TTS.apiKey keylessService = ""
  /\ TTS.speak keylessService "hello" None (browser (Some audioResponse) TTS.PlaysToEnd)
     = (TTS.Fulfilled tt,
        [TTS.Fetch (TTS.speakRequest keylessService "hello" None);
         TTS.CreateObjectURL "blob:1"; TTS.AudioPlay "blob:1";
         TTS.AudioEnded; TTS.RevokeObjectURL "blob:1"]).
Proof. split; reflexivity. Qed.

(** [trim] removes the white space of every script, and only at the
    ends: here a no-break space and a line feed before the key, an
    ideographic space and a byte order mark after it; U+0085, the next
    line control, is no white space of the language. *)
Example trim_removes_white_space :
  JS.trim (String "194" (String "160" (String "010"
             ("sk test" +:+ String "227" (String "128" (String "128"
                (String "239" (String "187" (String "191" EmptyString)))))))))
  = "sk test"
  /\ JS.trim (String "194" (String "133" EmptyString))
     = String "194" (String "133" EmptyString).
Proof. split; reflexivity. Qed.

(** A key of white space only is not saved, in either page. *)
Example blank_key_is_not_stored :
  LanguageLearning.localStorage
    (LanguageLearning.configure None
       [LanguageLearning.ChangeKey blankKey; LanguageLearning.ClickSave]) = None
  /\ App.storedKey
       (App.use threeCards None None ∅ [App.ChangeKey blankKey; App.ClickSaveKey])
     = None.
Proof. split; reflexivity. Qed.

(* ===================================================================== *)
(** * Theorems: the quiz *)
(* ===================================================================== *)

Section QuizTimers.
Import Quiz.

Variable P : QuizProps.

Lemma render_Normal s :
  render P s = Normal tt ->
  isComplete s = false -> is_Some (currentQuestion P s).
Proof.
  unfold render. intros H Hc. rewrite Hc in H.
  destruct (currentQuestion P s); [eauto | discriminate].
Qed.

(** The invariant holds after mounting. *)
Lemma mount_timerClosure t0 c :
  mount P t0 = Normal c -> timerClosure P c.
Proof.
  unfold mount. cbv zeta. cbn [state].
  destruct (render P (initialState P t0)) as [[] | e] eqn:Hr; [ | discriminate ].
  cbn [mbind Completion_bind]. intros [= <-]. split; cbn.
  - intros _. by apply (render_Normal _ Hr).
  - repeat split; done.
Qed.

(** The effects re-establish it whenever they replace the interval. *)
Lemma commit_timerClosure now old c :
  (isComplete (state c) = false -> is_Some (currentQuestion P (state c))) ->
  (isComplete old = true -> isComplete (state c) = true) ->
  (currentQuestionIndex old = currentQuestionIndex (state c) ->
   isComplete old = isComplete (state c) ->
   timerClosure P c) ->
  (currentQuestionIndex old <> currentQuestionIndex (state c) ->
   isComplete (state c) = false ->
   showResult (state c) = false /\ selectedAnswer (state c) = None) ->
  timerClosure P (commit P now old c).
Proof.
  intros Hq Hmono Hsame Hchanged. unfold commit.
  destruct (Nat.eqb_spec (currentQuestionIndex old) (currentQuestionIndex (state c)))
    as [Hi | Hi]; cbn [negb orb].
  - destruct (Bool.eqb (isComplete old) (isComplete (state c))) eqn:Hb; cbn [negb].
    + apply Hsame; [done | by apply Bool.eqb_prop].
    + split; [exact Hq | ]. cbn.
      destruct (isComplete (state c)); [done | ].
      destruct (isComplete old); [ by discriminate Hmono | discriminate Hb ].
  - split; [exact Hq | ]. cbn.
    destruct (isComplete (state c)) eqn:Hc; [done | ].
    destruct (Hchanged Hi eq_refl) as [Hs Ha]. repeat split; done.
Qed.


(** How one callback changes what the invariant speaks about. *)
Lemma dispatch_timerClosure now ev c c1 :
  timerClosure P c ->
  dispatch P now ev c = Normal c1 ->
  (isComplete (state c) = true -> isComplete (state c1) = true)
  /\ (currentQuestionIndex (state c) = currentQuestionIndex (state c1) ->
      isComplete (state c) = isComplete (state c1) ->
      match interval c1 with
      | Some i =>
          showResult (closure i) = false
          /\ selectedAnswer (closure i) = None
          /\ currentQuestionIndex (closure i) = currentQuestionIndex (state c1)
          /\ isComplete (state c1) = false
          /\ (showResult (state c1) = false -> results (closure i) = results (state c1))
      | None => True
      end)
  /\ (currentQuestionIndex (state c) <> currentQuestionIndex (state c1) ->
      showResult (state c1) = false /\ selectedAnswer (state c1) = None).
Proof.
  intros [Hq Hi] Hd. destruct ev as [answerIndex | | | ]; cbn [dispatch] in Hd.
  - (* an option is clicked *)
    unfold handleAnswerSelect in Hd.
    destruct (Bool.bool_dec (showResult (state c)) true) as [Hs | Hs];
      [ | apply not_true_is_false in Hs ]; rewrite Hs in Hd; injection Hd as <-.
    + split; [done | split; [ intros _ _; exact Hi | done ] ].
    + split; [done | split; [ intros _ _; exact Hi | done ] ].
  - (* "Submit Answer" is clicked *)
    unfold handleAnswerSubmit in Hd.
    destruct (currentQuestion P (state c)) as [q | ]; [ | discriminate ].
    injection Hd as <-. repeat split; try done. intros _ _. cbn.
    destruct (interval c) as [i | ]; [ | done ].
    destruct Hi as (? & ? & ? & ? & ?). repeat split; done.
  - (* the interval ticks *)
    destruct (interval c) as [i | ] eqn:Ei.
    2: { injection Hd as <-. rewrite Ei. repeat split; done. }
    destruct Hi as (Hs & Ha & Hx & Hc & Hr).
    unfold tick in Hd. cbn [state timeLeft] in Hd.
    destruct (timeLeft (state c) <=? 1).
    + unfold handleTimeUp in Hd. rewrite Hs in Hd. cbn [negb] in Hd.
      unfold handleAnswerSubmit in Hd.
      destruct (currentQuestion P (closure i)) as [q | ]; [ | discriminate ].
      cbn in Hd. injection Hd as <-. cbn. repeat split; done.
    + injection Hd as <-. cbn. repeat split; done.
  - (* the oldest timeout fires *)
    destruct (timeouts c) as [ | t rest].
    { injection Hd as <-. split; [done | split; [ intros _ _; exact Hi | done ] ]. }
    unfold autoAdvance, handleNextQuestion, handleQuizComplete in Hd.
    destruct (_ <? _); injection Hd as <-; cbn.
    + repeat split; try done. intros Hn. by apply n_Sn in Hn.
    + repeat split; try done. intros _ Hc.
      destruct (interval c) as [i | ]; [ | done ].
      destruct Hi as (_ & _ & _ & Hc' & _). congruence.
Qed.

(** Every turn of the event loop preserves the invariant. *)
Lemma step_timerClosure c e c' :
  timerClosure P c -> step P c e = Normal c' -> timerClosure P c'.
Proof.
  intros Hinv. unfold step.
  destruct (dispatch P e.1 e.2 c) as [c1 | ] eqn:Hd; [ | discriminate ].
  cbn [mbind Completion_bind].
  destruct (render P (state c1)) as [[] | ] eqn:Hr; [ | discriminate ].
  cbn [mbind Completion_bind]. intros [= <-].
  destruct (dispatch_timerClosure _ _ _ _ Hinv Hd) as (Hmono & Hsame & Hchanged).
  apply commit_timerClosure.
  - by apply render_Normal.
  - exact Hmono.
  - intros H1 H2. split; [ by apply render_Normal | by apply Hsame ].
  - intros H1 _. by apply Hchanged.
Qed.




End QuizTimers.

Section QuizRecords.
Import Quiz.
Variable P : QuizProps.

Lemma currentQuestion_lt s :
  is_Some (currentQuestion P s) -> (currentQuestionIndex s < length (questions P))%nat.
Proof. unfold currentQuestion. apply lookup_lt_is_Some_1. Qed.

Lemma mount_oneRecordPerQuestion t0 c :
  mount P t0 = Normal c -> oneRecordPerQuestion P c.
Proof.
  unfold mount. cbv zeta. cbn [state].
  destruct (render P (initialState P t0)) as [[] | e]; [ | discriminate ].
  cbn [mbind Completion_bind]. intros [= <-]. split; cbn; [ | discriminate ].
  intros _. repeat split; try done.
Qed.

Lemma step_oneRecordPerQuestion c now ev c' :
  timerClosure P c ->
  oneRecordPerQuestion P c ->
  deliverable P now ev c = true ->
  lateExpiry c ev = false ->
  step P c (now, ev) = Normal c' ->
  oneRecordPerQuestion P c'.
Proof.
  intros [Hq Hi] [Hrun Hdone] Hdel Hlate. unfold step. cbn [fst snd].
  destruct c as [[idx sel show res tl st comp] intv tos rep].
  destruct ev as [answerIndex | | | ]; cbn -[lookup] in Hq, Hi, Hrun, Hdone, Hdel, Hlate.
  - (* an option is clicked: the quiz runs and no result is shown *)
    destruct comp; [ discriminate | ]. destruct show; [ discriminate | ].
    destruct (Hq eq_refl) as [q Eq]. unfold currentQuestion in Eq. cbn -[lookup] in Eq.
    unfold commit, render, currentQuestion. cbn -[lookup]. rewrite Eq, Nat.eqb_refl. cbn -[lookup].
    intros [= <-]. split; cbn; [ intros _ | discriminate ].
    destruct (Hrun eq_refl) as (-> & Hopen & _). destruct (Hopen eq_refl) as [Hlen ->].
    repeat split; try done.
  - (* "Submit Answer": the same, and the result is appended *)
    destruct comp; [ discriminate | ]. destruct show; [ discriminate | ].
    destruct (Hq eq_refl) as [q Eq]. unfold currentQuestion in Eq. cbn -[lookup] in Eq.
    cbn [dispatch state]. unfold commit, render, handleAnswerSubmit, currentQuestion.
    cbn -[lookup]. rewrite Eq. cbn -[lookup]. rewrite ?Eq, Nat.eqb_refl. cbn -[lookup].
    intros [= <-]. split; cbn; [ intros _ | discriminate ].
    destruct (Hrun eq_refl) as (-> & Hopen & _). destruct (Hopen eq_refl) as [Hlen ->].
    repeat split; try done.
    + rewrite length_app. cbn -[lookup]. lia.
    + eexists. reflexivity.
  - (* the interval ticks *)
    destruct intv as [i | ]; [ | discriminate ].
    destruct Hi as (Hs & Ha & Hx & -> & Hr).
    destruct (Hq eq_refl) as [q Eq]. unfold currentQuestion in Eq. cbn -[lookup] in Eq.
    destruct (Hrun eq_refl) as (-> & Hopen & Hshown).
    cbn [dispatch interval]. unfold tick. cbn [state timeLeft].
    destruct (Z.leb_spec tl 1) as [Hexp | Hgt].
    + (* expiry: no result is shown *)
      rewrite andb_true_r in Hlate. subst show.
      destruct (Hopen eq_refl) as [Hlen ->]. specialize (Hr eq_refl).
      unfold handleTimeUp, handleAnswerSubmit, currentQuestion.
      rewrite Hs, Hx, Eq, Ha, Hr. cbn -[lookup].
      unfold commit, render, currentQuestion. cbn -[lookup]. rewrite Eq, Nat.eqb_refl. cbn -[lookup].
      intros [= <-]. split; cbn; [ intros _ | discriminate ].
      repeat split; try done.
      * rewrite length_app. cbn -[lookup]. lia.
      * eexists. reflexivity.
    + cbn -[lookup]. unfold commit, render, currentQuestion. cbn -[lookup]. rewrite Eq, Nat.eqb_refl. cbn -[lookup].
      intros [= <-]. split; cbn; [ intros _ | discriminate ].
      split; [ done | split; assumption ].
  - (* the timeout fires: a result is shown, and this is its advance *)
    destruct comp.
    { destruct (Hdone eq_refl) as (_ & -> & _). discriminate. }
    destruct (Hrun eq_refl) as (-> & Hopen & Hshown).
    destruct show.
    2: { destruct (Hopen eq_refl) as [_ ->]. discriminate. }
    destruct (Hshown eq_refl) as (Hlen & d & ->).
    pose proof (currentQuestion_lt _ (Hq eq_refl)) as Hlt. cbn in Hlt.
    cbn [dispatch timeouts]. unfold autoAdvance. cbn [t_currentQuestionIndex t_newResults].
    destruct (Z.ltb_spec (Z.of_nat idx) (Z.of_nat (length (questions P)) - 1)) as [Hmore | Hlast].
    + unfold handleNextQuestion, commit, render, currentQuestion. cbn -[lookup].
      destruct (questions P !! S idx); [ | discriminate ].
      cbn -[lookup]. rewrite (proj2 (Nat.eqb_neq idx (S idx))) by lia. cbn -[lookup].
      intros [= <-]. split; cbn; [ intros _ | discriminate ].
      repeat split; try done.
    + unfold handleQuizComplete, commit, render. cbn -[lookup].
      rewrite Nat.eqb_refl. cbn -[lookup].
      intros [= <-]. split; cbn; [ discriminate | intros _ ].
      repeat split; try done. lia.
Qed.

Lemma run_oneRecordPerQuestion evs :
  forall t c,
    timerClosure P c -> oneRecordPerQuestion P c ->
    orderly P t c evs = true ->
    exists c', run P c evs = Normal c' /\ oneRecordPerQuestion P c'.
Proof.
  induction evs as [ | [now ev] evs IH]; intros t c Hinv Hone Hord; cbn [run orderly] in *.
  - by exists c.
  - destruct (step P c (now, ev)) as [c1 | ] eqn:Hs; [ | by rewrite andb_false_r in Hord ].
    cbn [mbind Completion_bind fst snd] in *.
    apply andb_prop in Hord as [Hord Hrest]. apply andb_prop in Hord as [Hord Hlate].
    apply andb_prop in Hord as [_ Hdel]. apply negb_true_iff in Hlate.
    apply (IH now c1); [ by eapply step_timerClosure | | done ].
    by eapply step_oneRecordPerQuestion.
Qed.

Lemma session_oneRecordPerQuestion t0 evs :
  orderlySession P t0 evs = true ->
  exists c, session P t0 evs = Normal c /\ oneRecordPerQuestion P c.
Proof.
  unfold orderlySession, session.
  destruct (mount P t0) as [c0 | ] eqn:Hm; [ | discriminate ].
  cbn [mbind Completion_bind]. intros Hord.
  eapply run_oneRecordPerQuestion; eauto using mount_timerClosure, mount_oneRecordPerQuestion.
Qed.


End QuizRecords.



(** The start time the interval callback reads is the one of its own
    render, which for every question but the first is the start of the
    question before: here the first question is answered at once, the
    second expires on time, and its record says 32 seconds. *)
Example expired_question_counts_from_previous_start :
  Quiz.deliverableSession threeQuestions 0 secondQuestionExpires = true
  /\ exists c,
       Quiz.session threeQuestions 0 secondQuestionExpires = Normal c
       /\ Quiz.results (Quiz.state c) =
          [ {| Quiz.questionId := "q0"; Quiz.selected := Some 1;
               Quiz.correct := true; Quiz.timeSpent := 0 |};
            {| Quiz.questionId := "q1"; Quiz.selected := None;
               Quiz.correct := false; Quiz.timeSpent := 32 |} ].
Proof.
  split; [ vm_compute; reflexivity | ].
  eexists. split; [ vm_compute; reflexivity | ]. reflexivity.
Qed.

Section QuizHandlers.
Import Quiz.

(** C3, as the code has it.  Once the result of the current question is
    shown, [handleAnswerSelect] returns at once: it raises nothing and
    leaves the component, the recorded answer included, as it was.  The
    option buttons are disabled then, so the browser delivers no such
    click either. *)
Theorem select_on_locked_question_is_ignored (c : Component) (answerIndex : Z) :
  showResult (state c) = true ->
  handleAnswerSelect (state c) answerIndex c = Normal c
  /\ forall P now, deliverable P now (ClickOption answerIndex) c = false.
Proof.
  intros Hlocked. unfold handleAnswerSelect, deliverable. rewrite Hlocked.
  split; [ reflexivity | ]. intros P now. by rewrite andb_false_r.
Qed.

(** C4, as the code has it.  Once the quiz is complete, the callback
    that advances the quiz (either branch: [handleNextQuestion] or
    [handleQuizComplete]) still returns normally; it raises nothing.
    The completion flag and the results stay as they are, and with them
    the score, which is computed from the results. *)
Theorem advance_after_complete_returns_normally (P : QuizProps) (t : Timeout)
  (c : Component) :
  isComplete (state c) = true ->
  exists c',
    autoAdvance P t c = Normal c'
    /\ isComplete (state c') = true
    /\ results (state c') = results (state c)
    /\ score (results (state c')) = score (results (state c)).
Proof.
  intros Hdone. unfold autoAdvance, handleNextQuestion, handleQuizComplete.
  destruct (_ <? _); eexists; (split; [ reflexivity | ]); cbn; by rewrite ?Hdone.
Qed.

End QuizHandlers.

(** After the first question is submitted, selecting option 2 changes
    nothing. *)
Lemma select_on_locked_question_is_ignored_witness :
  match Quiz.session threeQuestions 0
          [(100, Quiz.ClickOption 1); (200, Quiz.ClickSubmit)] with
  | Normal c =>
      Quiz.showResult (Quiz.state c) = true
      /\ Quiz.handleAnswerSelect (Quiz.state c) 2 c = Normal c
  | Throw _ => False
  end.
Proof.
  destruct (Quiz.session threeQuestions 0 _) as [c | e] eqn:Hs;
    vm_compute in Hs; [ | discriminate ].
  injection Hs as <-. split; [ reflexivity | ].
  apply (select_on_locked_question_is_ignored _ 2). reflexivity.
Defined.

(** C3, as stated, fails: after the first question is submitted, a call
    of [handleAnswerSelect] completes normally; it does not raise
    [QuestionAlreadyLocked]. *)
Lemma select_after_lock_raises_nothing :
  match Quiz.session threeQuestions 0
          [(100, Quiz.ClickOption 1); (200, Quiz.ClickSubmit)] with
  | Normal c =>
      Quiz.showResult (Quiz.state c) = true
      /\ Quiz.handleAnswerSelect (Quiz.state c) 2 c = Normal c
      /\ Quiz.handleAnswerSelect (Quiz.state c) 2 c <> Throw QuestionAlreadyLocked
  | Throw _ => False
  end.
Proof.
  destruct (Quiz.session threeQuestions 0 _) as [c | e] eqn:Hs;
    vm_compute in Hs; [ | discriminate ].
  injection Hs as <-. repeat split; try reflexivity. discriminate.
Qed.

(** The completed quiz of the scenario, and the advancing callback of
    its last question run once more. *)
Lemma advance_after_complete_returns_normally_witness :
  match Quiz.session threeQuestions 0 scenario with
  | Normal c =>
      Quiz.isComplete (Quiz.state c) = true
      /\ exists c',
           Quiz.autoAdvance threeQuestions
             {| Quiz.t_currentQuestionIndex := 2;
                Quiz.t_newResults := Quiz.results (Quiz.state c);
                Quiz.due := 8600 |} c = Normal c'
           /\ Quiz.isComplete (Quiz.state c') = true
           /\ Quiz.results (Quiz.state c') = Quiz.results (Quiz.state c)
           /\ Quiz.score (Quiz.results (Quiz.state c'))
              = Quiz.score (Quiz.results (Quiz.state c))
  | Throw _ => False
  end.
Proof.
  destruct (Quiz.session threeQuestions 0 scenario) as [c | e] eqn:Hs;
    vm_compute in Hs; [ | discriminate ].
  injection Hs as <-. split; [ reflexivity | ].
  apply (advance_after_complete_returns_normally threeQuestions). reflexivity.
Defined.

(** C4, as stated, fails: in the completed quiz of the scenario, the
    advancing callback does not raise [InvalidStateTransition].  With
    the closure of the last question it calls [onComplete] once more;
    with the closure of an earlier question it moves the index on. *)
Lemma advance_after_complete_raises_nothing :
  match Quiz.session threeQuestions 0 scenario with
  | Normal c =>
      Quiz.isComplete (Quiz.state c) = true
      /\ length (Quiz.reported c) = 1%nat
      /\ Quiz.currentQuestionIndex (Quiz.state c) = 2%nat
      /\ (exists c',
            Quiz.autoAdvance threeQuestions
              {| Quiz.t_currentQuestionIndex := 2;
                 Quiz.t_newResults := Quiz.results (Quiz.state c);
                 Quiz.due := 8600 |} c = Normal c'
            /\ length (Quiz.reported c') = 2%nat)
      /\ (exists c',
            Quiz.autoAdvance threeQuestions
              {| Quiz.t_currentQuestionIndex := 0;
                 Quiz.t_newResults := []; Quiz.due := 8600 |} c = Normal c'
            /\ Quiz.currentQuestionIndex (Quiz.state c') = 3%nat)
  | Throw _ => False
  end.
Proof.
  destruct (Quiz.session threeQuestions 0 scenario) as [c | e] eqn:Hs;
    vm_compute in Hs; [ | discriminate ].
  injection Hs as <-. repeat split; try reflexivity; eexists; split; reflexivity.
Qed.

(** The specification's scenario: three questions with correct options
    1, 0 and 2, selections 1, 1 and 2; the caller is told 67. *)
Example scenario_reports_67 :
  Quiz.deliverableSession threeQuestions 0 scenario = true
  /\ exists c finalResults,
       Quiz.session threeQuestions 0 scenario = Normal c
       /\ Quiz.reported c = [(JS.Int 67, finalResults)]
       /\ map Quiz.correct finalResults = [true; false; true].
Proof.
  split; [ vm_compute; reflexivity | ].
  eexists _, _. split; [ vm_compute; reflexivity | ]. split; reflexivity.
Qed.

(** C5 fails on the code.  Nobody touches a quiz of three questions.
    The timer expires at 30 s and finalizes the first question; the
    interval is still the one of the render in which that question
    became current, whose [showResult] is false, so the ticks at 31 s
    and 32 s finalize it again and each sets a timeout of its own.  The
    timeouts of 30 s and 31 s then advance the quiz twice: the index is
    2 and there is one result; the second question was never shown. *)
Theorem timer_expiry_advances_twice :
  Quiz.deliverableSession threeQuestions 0 unattended = true
  /\ exists c,
       Quiz.session threeQuestions 0 unattended = Normal c
       /\ Quiz.currentQuestionIndex (Quiz.state c) = 2%nat
       /\ map Quiz.questionId (Quiz.results (Quiz.state c)) = ["q0"]
       /\ length (Quiz.timeouts c) = 1%nat.
Proof.
  split; [ vm_compute; reflexivity | ].
  eexists. split; [ vm_compute; reflexivity | ]. repeat split; reflexivity.
Qed.

(** The score of a list of results is the percentage of its correct
    ones. *)
Lemma score_percentage rs :
  Quiz.score rs
  = JS.percentage (length (List.filter Quiz.correct rs)) (length rs).
Proof. reflexivity. Qed.

Lemma Rounded_eqb_eq a b : JS.Rounded_eqb a b = true -> a = b.
Proof.
  destruct a, b; cbn; try discriminate; intros H.
  - apply Z.eqb_eq in H. by subst.
  - reflexivity.
  - apply Bool.eqb_prop in H. by subst.
Qed.

Lemma percentage_exact_below_40 : JS.exactUpTo 39 = true.
Proof. vm_compute. reflexivity. Qed.

Lemma score_exact_below_40 (rs : list Quiz.QuizResult) :
  (0 < length rs < 40)%nat ->
  Quiz.score rs
  = JS.Int (JS.round_half_up
              (100 * Z.of_nat (length (List.filter Quiz.correct rs)))
              (Z.of_nat (length rs))).
Proof.
  intros Hn. rewrite score_percentage. apply Rounded_eqb_eq.
  pose proof percentage_exact_below_40 as H. unfold JS.exactUpTo in H.
  rewrite forallb_forall in H.
  specialize (H (length rs)). rewrite in_seq in H.
  specialize (H ltac:(lia)). rewrite forallb_forall in H.
  apply H. rewrite in_seq.
  pose proof (List.filter_length_le Quiz.correct rs). lia.
Qed.

(** (X1) With fewer than forty results the reported score is the exact
    percentage of correct answers, rounded to the nearest integer,
    halves up. *)
Theorem score_round_half_up_below_40 (rs : list Quiz.QuizResult) :
  (0 < length rs < 40)%nat ->
  Quiz.score rs
  = JS.Int (JS.round_half_up
              (100 * Z.of_nat (length (List.filter Quiz.correct rs)))
              (Z.of_nat (length rs))).
Proof. apply score_exact_below_40. Qed.

(** Two correct results of three: 67. *)
Lemma score_round_half_up_below_40_witness :
  Quiz.score [ {| Quiz.questionId := "q0"; Quiz.selected := Some 1;
                  Quiz.correct := true; Quiz.timeSpent := 4 |};
               {| Quiz.questionId := "q1"; Quiz.selected := Some 1;
                  Quiz.correct := false; Quiz.timeSpent := 7 |};
               {| Quiz.questionId := "q2"; Quiz.selected := Some 2;
                  Quiz.correct := true; Quiz.timeSpent := 3 |} ]
  = JS.Int 67.
Proof.
  apply (score_round_half_up_below_40
           [ {| Quiz.questionId := "q0"; Quiz.selected := Some 1;
                Quiz.correct := true; Quiz.timeSpent := 4 |};
             {| Quiz.questionId := "q1"; Quiz.selected := Some 1;
                Quiz.correct := false; Quiz.timeSpent := 7 |};
             {| Quiz.questionId := "q2"; Quiz.selected := Some 2;
                Quiz.correct := true; Quiz.timeSpent := 3 |} ]).
  cbn. lia.
Defined.

(** C1 fails on the code.  Forty questions, the first 23 answered
    correctly: the quotient 23 / 40 is the binary64 number just below
    0.575, its product with 100 is 57.49999999999999..., and
    [Math.round] gives 57; the percentage 57.5 rounds to 58. *)
Theorem score_of_23_in_40_is_57 :
  Quiz.deliverableSession fortyQuestions 0 fortyAnswers = true
  /\ exists c finalResults,
       Quiz.session fortyQuestions 0 fortyAnswers = Normal c
       /\ Quiz.reported c = [(JS.Int 57, finalResults)]
       /\ length finalResults = 40%nat
       /\ length (List.filter Quiz.correct finalResults) = 23%nat
       /\ JS.round_half_up (100 * 23) 40 = 58.
Proof.
  split; [ vm_compute; reflexivity | ].
  eexists _, _. split; [ vm_compute; reflexivity | ].
  repeat split; vm_compute; reflexivity.
Qed.


Lemma session_has_questions (P : Quiz.QuizProps) t0 evs c :
  Quiz.session P t0 evs = Normal c -> (0 < length (Quiz.questions P))%nat.
Proof.
  unfold Quiz.session, Quiz.mount. cbv zeta.
  destruct (Quiz.render P _) as [[] | ] eqn:Hr; [ | discriminate ]. intros _.
  apply render_Normal in Hr; [ | reflexivity ].
  apply lookup_lt_is_Some_1 in Hr. exact Hr.
Qed.

(** (X3) When an orderly session of a quiz of fewer than forty questions
    completes, the caller is told, once, the percentage of correct
    answers among all questions, rounded to the nearest integer, halves
    up. *)
Theorem orderly_quiz_reports_rounded_percentage (P : Quiz.QuizProps) t0 evs c :
  Quiz.orderlySession P t0 evs = true ->
  Quiz.session P t0 evs = Normal c ->
  Quiz.isComplete (Quiz.state c) = true ->
  (length (Quiz.questions P) < 40)%nat ->
  exists finalResults,
    Quiz.reported c =
    [ (JS.Int (JS.round_half_up
                 (100 * Z.of_nat (length (List.filter Quiz.correct finalResults)))
                 (Z.of_nat (length (Quiz.questions P)))),
       finalResults) ]
    /\ length finalResults = length (Quiz.questions P).
Proof.
  intros Hord Hs Hdone Hsmall.
  destruct (session_oneRecordPerQuestion P t0 evs Hord) as (c0 & Hs0 & _ & Hone).
  rewrite Hs in Hs0. injection Hs0 as <-.
  destruct (Hone Hdone) as (_ & _ & Hrep & Hlen).
  exists (Quiz.results (Quiz.state c)). split; [ | exact Hlen ].
  rewrite Hrep, <- Hlen. f_equal. f_equal.
  apply score_exact_below_40.
  pose proof (session_has_questions P t0 evs c Hs). lia.
Qed.

(** The scenario again: three questions, fewer than forty. *)
Lemma orderly_quiz_reports_rounded_percentage_witness :
  match Quiz.session threeQuestions 0 scenario with
  | Normal c =>
      exists finalResults,
        Quiz.reported c =
        [ (JS.Int (JS.round_half_up
                     (100 * Z.of_nat (length (List.filter Quiz.correct finalResults)))
                     (Z.of_nat (length (Quiz.questions threeQuestions)))),
           finalResults) ]
        /\ length finalResults = length (Quiz.questions threeQuestions)
  | Throw _ => False
  end.
Proof.
  destruct (Quiz.session threeQuestions 0 scenario) as [c | e] eqn:Hs;
    pose proof Hs as Hc; vm_compute in Hc; [ | discriminate ].
  injection Hc as <-.
  exact (orderly_quiz_reports_rounded_percentage threeQuestions 0 scenario _
           ltac:(vm_compute; reflexivity) Hs eq_refl ltac:(cbn; lia)).
Defined.

(* ===================================================================== *)
(** * Theorems: the countdown and the display of the quiz *)
(* ===================================================================== *)

Section QuizCountdown.
Import Quiz.

Variable P : QuizProps.
Hypothesis limit : 0 <= timeLimit P.

Lemma handleAnswerSubmit_timeLeft r now c c' :
  handleAnswerSubmit P r now c = Normal c' ->
  timeLeft (state c') = timeLeft (state c).
Proof.
  unfold handleAnswerSubmit. destruct (currentQuestion P r); [ | discriminate ].
  intros [= <-]. reflexivity.
Qed.

Lemma dispatch_countdownInRange now ev c c' :
  countdownInRange P c -> dispatch P now ev c = Normal c' -> countdownInRange P c'.
Proof.
  unfold countdownInRange. intros Hc Hd. destruct ev; cbn [dispatch] in Hd.
  - unfold handleAnswerSelect in Hd.
    destruct (showResult (state c)); injection Hd as <-; exact Hc.
  - rewrite (handleAnswerSubmit_timeLeft _ _ _ _ Hd). exact Hc.
  - destruct (interval c) as [i | ]; [ | injection Hd as <-; exact Hc ].
    unfold tick in Hd. cbn [state] in Hd.
    destruct (timeLeft (state c) <=? 1) eqn:Ht.
    + destruct (handleTimeUp P (closure i) now _) as [c1 | ] eqn:Hu; [ | discriminate ].
      cbn in Hd. injection Hd as <-. cbn. lia.
    + injection Hd as <-. cbn. apply Z.leb_gt in Ht. lia.
  - destruct (timeouts c) as [ | t rest]; [ injection Hd as <-; exact Hc | ].
    unfold autoAdvance, handleNextQuestion, handleQuizComplete in Hd.
    destruct (_ <? _); injection Hd as <-; exact Hc.
Qed.

Lemma commit_countdownInRange now old c :
  countdownInRange P c -> countdownInRange P (commit P now old c).
Proof.
  unfold countdownInRange, commit. intros Hc.
  destruct (negb (currentQuestionIndex old =? currentQuestionIndex (state c))%nat);
    destruct (negb (Bool.eqb (isComplete old) (isComplete (state c)))); cbn; lia.
Qed.

Lemma run_countdownInRange evs : forall c c',
  countdownInRange P c -> run P c evs = Normal c' -> countdownInRange P c'.
Proof.
  induction evs as [ | e evs IH]; intros c c' Hc Hr.
  - injection Hr as <-. exact Hc.
  - cbn [run] in Hr. unfold step in Hr.
    destruct (dispatch P e.1 e.2 c) as [c1 | ] eqn:Hd; [ | discriminate ].
    cbn [mbind Completion_bind] in Hr.
    destruct (render P (state c1)); [ | discriminate ].
    cbn [mbind Completion_bind] in Hr.
    eapply IH; [ | exact Hr ].
    apply commit_countdownInRange. eapply dispatch_countdownInRange; eauto.
Qed.

Lemma session_countdownInRange t0 evs c :
  session P t0 evs = Normal c -> countdownInRange P c.
Proof.
  unfold session, mount. cbv zeta. cbn [state].
  destruct (render P (initialState P t0)); [ | discriminate ].
  cbn [mbind Completion_bind]. apply run_countdownInRange.
  unfold countdownInRange. cbn. lia.
Qed.

(** (X5) With a time limit that is not negative, the countdown of the
    quiz never leaves the range from 0 to the limit: after any events,
    in whatever order and at whatever times they come, [timeLeft] is
    between 0 and [timeLimit].  The interval callback stops at 0 and
    the reset effect starts each question at the limit. *)
Theorem countdown_stays_in_range t0 evs c :
  session P t0 evs = Normal c ->
  0 <= timeLeft (state c) <= timeLimit P.
Proof. apply session_countdownInRange. Qed.

End QuizCountdown.

(** Nobody touches a quiz of three questions for 33 seconds: the
    countdown is within 0 and 30 at the end. *)
Lemma countdown_stays_in_range_witness :
  0 <= Quiz.timeLimit threeQuestions
  /\ match Quiz.session threeQuestions 0 unattended with
     | Normal c => 0 <= Quiz.timeLeft (Quiz.state c) <= 30
     | Throw _ => False
     end.
Proof.
  split; [ cbn; lia | ].
  destruct (Quiz.session threeQuestions 0 unattended) as [c | e] eqn:Hs.
  - exact (countdown_stays_in_range threeQuestions ltac:(cbn; lia) 0 unattended c Hs).
  - vm_compute in Hs. discriminate.
Defined.

Section QuizDisplay.
Import Quiz.




Lemma readDecimal_toString m : 0 <= m -> readDecimal (JS.toString m) = Some m.
Proof.
  intros Hm. unfold readDecimal, JS.toString.
  destruct m as [ | p | p]; [ reflexivity | | lia ].
  cbn [Z.to_int NilZero.string_of_int].
  rewrite NilZero.usu by apply Unsigned.to_uint_nonnil.
  cbn. unfold Z.of_uint. rewrite Unsigned.of_to. reflexivity.
Qed.







End QuizDisplay.


Example formatTime_pads_the_seconds :
  Quiz.formatTime 65 = "1:05" /\ Quiz.formatTime 5 = "0:05"
  /\ Quiz.formatTime 0 = "0:00" /\ Quiz.formatTime 600 = "10:00".
Proof. repeat split; vm_compute; reflexivity. Qed.

(** Beyond the whole numbers of seconds of a countdown the text is that
    of the Numbers: a negative remainder keeps its sign, a minute count
    of 1e21 or more is written with an exponent, and an integer beyond
    the largest Number is infinite. *)
Example formatTime_of_other_numbers :
  Quiz.formatTime (-5) = "-1:-5"
  /\ Quiz.formatTime (6 * 10 ^ 22) = "1e+21:00"
  /\ Quiz.formatTime (2 ^ 70) = "19676527011956855000:04"
  /\ Quiz.formatTime (10 ^ 400) = "Infinity:NaN".
Proof. repeat split; vm_compute; reflexivity. Qed.

Section QuizOptions.
Import Quiz.

Variable P : QuizProps.

Lemma classes_distinct :
  baseClasses +:+ " " +:+ correctClasses <> baseClasses +:+ " " +:+ wrongClasses
  /\ baseClasses +:+ " " +:+ correctClasses <> baseClasses +:+ " " +:+ dimmedClasses
  /\ baseClasses +:+ " " +:+ wrongClasses <> baseClasses +:+ " " +:+ dimmedClasses.
Proof. repeat split; apply String.eqb_neq; vm_compute; reflexivity. Qed.

Lemma strictEq_Some a b : strictEq a b = true <-> a = Some b.
Proof.
  destruct a as [x | ]; cbn; [ | split; discriminate ].
  rewrite Z.eqb_eq. split; [ intros ->; reflexivity | intros [= ->]; reflexivity ].
Qed.

Lemma button_marked q r index :
  showResult r = true -> currentQuestion P r = Some q ->
  exists cls ico,
    getOptionClassName P r index = Normal cls
    /\ getOptionIcon P r index = Normal ico
    /\ marked q r index
         {| label := ""; className := cls; disabled := showResult r; icon := ico |}.
Proof.
  intros Hs Hq. unfold getOptionClassName, getOptionIcon. rewrite Hs, Hq. cbn [negb].
  destruct classes_distinct as (D1 & D2 & D3).
  destruct (index =? correctAnswer q) eqn:Ec.
  - apply Z.eqb_eq in Ec. do 2 eexists. split; [ reflexivity | split; [ reflexivity | ] ].
    unfold marked. cbn. repeat split; try tauto; try congruence;
      try (intros [_ H]; congruence); intros H; congruence.
  - apply Z.eqb_neq in Ec. cbn [negb]. rewrite andb_true_r.
    destruct (strictEq (selectedAnswer r) index) eqn:Es.
    + apply strictEq_Some in Es.
      do 2 eexists. split; [ reflexivity | split; [ reflexivity | ] ].
      unfold marked. cbn. repeat split; try tauto; try congruence.
    + assert (Hn : selectedAnswer r <> Some index).
      { intros H. apply strictEq_Some in H. congruence. }
      do 2 eexists. split; [ reflexivity | split; [ reflexivity | ] ].
      unfold marked. cbn. repeat split; try tauto; try congruence;
        try (intros [H _]; congruence); intros H; congruence.
Qed.

Lemma optionButtons_marked q r :
  showResult r = true -> currentQuestion P r = Some q ->
  forall opts index, exists buttons,
    optionButtons P r index opts = Normal buttons
    /\ length buttons = length opts
    /\ forall (i : nat) b, buttons !! i = Some b ->
         opts !! i = Some (label b) /\ marked q r (index + Z.of_nat i) b.
Proof.
  intros Hs Hq. induction opts as [ | opt rest IH]; intros index.
  - exists []. split; [ reflexivity | split; [ reflexivity | ] ].
    intros i b H. destruct i; cbn in H; discriminate.
  - cbn [optionButtons].
    destruct (button_marked q r index Hs Hq) as (cls & ico & -> & -> & Hm).
    destruct (IH (index + 1)) as (buttons & -> & Hl & Hb).
    cbn [mbind Completion_bind]. eexists. split; [ reflexivity | ].
    split; [ cbn; f_equal; exact Hl | ].
    intros [ | i] b H; cbn in H.
    + injection H as <-. split; [ reflexivity | ].
      replace (index + Z.of_nat 0) with index by lia. exact Hm.
    + destruct (Hb i b H) as [Ho Hmk]. split; [ exact Ho | ].
      replace (index + Z.of_nat (S i)) with (index + 1 + Z.of_nat i) by lia. exact Hmk.
Qed.

Lemma renderOptions_marked q r :
  showResult r = true -> currentQuestion P r = Some q ->
  exists buttons,
    renderOptions P r = Normal buttons
    /\ length buttons = length (options q)
    /\ forall (i : nat) b, buttons !! i = Some b ->
         options q !! i = Some (label b) /\ marked q r (Z.of_nat i) b.
Proof.
  intros Hs Hq. unfold renderOptions. rewrite Hq.
  destruct (optionButtons_marked q r Hs Hq (options q) 0) as (buttons & -> & Hl & Hb).
  exists buttons. split; [ reflexivity | split; [ exact Hl | ] ].
  intros i b H. destruct (Hb i b H) as [Ho Hm]. split; [ exact Ho | ].
  replace (Z.of_nat i) with (0 + Z.of_nat i) by lia. exact Hm.
Qed.

(** (X7) While the result of a question is shown, the render makes one
    button per option, in order and all disabled, and marks them by
    position: the check icon is on the button of the correct answer and
    on no other, the cross is on the selected button when the selection
    is wrong and on no other, and [getOptionClassName] agrees with
    [getOptionIcon]: the green classes come with the check, the red
    classes with the cross. *)
Theorem shown_result_marks_the_options q r :
  showResult r = true -> currentQuestion P r = Some q ->
  exists buttons,
    renderOptions P r = Normal buttons
    /\ length buttons = length (options q)
    /\ forall (i : nat) b, buttons !! i = Some b ->
         options q !! i = Some (label b) /\ marked q r (Z.of_nat i) b.
Proof. apply renderOptions_marked. Qed.

End QuizOptions.

(** Option 2 chosen where option 1 is correct: the second button has
    the check, the third the cross, the others no icon. *)
Lemma shown_result_marks_the_options_witness :
  Quiz.showResult wrongChoiceShown = true
  /\ Quiz.currentQuestion oneQuestion wrongChoiceShown = Some (sampleQuestion "q0" 1)
  /\ exists buttons,
       Quiz.renderOptions oneQuestion wrongChoiceShown = Normal buttons
       /\ map Quiz.icon buttons = [None; Some Quiz.CheckCircle; Some Quiz.XCircle; None].
Proof.
  split; [ reflexivity | ]. split; [ reflexivity | ].
  destruct (shown_result_marks_the_options oneQuestion (sampleQuestion "q0" 1)
              wrongChoiceShown eq_refl eq_refl) as (buttons & Hb & _).
  exists buttons. split; [ exact Hb | ].
  vm_compute in Hb. injection Hb as <-. reflexivity.
Defined.

Section QuizSoundRecords.
Import Quiz.

Variable P : QuizProps.

Lemma handleAnswerSubmit_recordsSound r now c c' :
  Forall (sound P) (results r) ->
  recordsSound P c -> handleAnswerSubmit P r now c = Normal c' -> recordsSound P c'.
Proof.
  intros Hr (Hs & Hi & Ht & Hp). unfold handleAnswerSubmit.
  destruct (currentQuestion P r) as [q | ] eqn:Hq; [ | discriminate ].
  intros [= <-].
  assert (Hnew : Forall (sound P)
            (results r ++ [ {| questionId := id q; selected := selectedAnswer r;
                               correct := strictEq (selectedAnswer r) (correctAnswer q);
                               timeSpent := (now - startTime r) / 1000 |} ])).
  { apply Forall_app. split; [ exact Hr | ].
    constructor; [ | constructor ].
    exists q. split; [ | split; reflexivity ].
    apply list_elem_of_In. eapply list_elem_of_lookup_2. exact Hq. }
  unfold recordsSound. cbn. repeat split; try assumption.
  apply Forall_app. split; [ exact Ht | ]. constructor; [ exact Hnew | constructor ].
Qed.

Lemma dispatch_recordsSound now ev c c' :
  recordsSound P c -> dispatch P now ev c = Normal c' -> recordsSound P c'.
Proof.
  intros Hc Hd. destruct ev; cbn [dispatch] in Hd.
  - unfold handleAnswerSelect in Hd.
    destruct (showResult (state c)); injection Hd as <-; [ exact Hc | ].
    destruct Hc as (Hs & Hi & Ht & Hp). unfold recordsSound. cbn. auto.
  - eapply handleAnswerSubmit_recordsSound; [ | exact Hc | exact Hd ]. apply Hc.
  - destruct (interval c) as [i | ] eqn:Ei; [ | injection Hd as <-; exact Hc ].
    assert (Hi : Forall (sound P) (results (closure i))).
    { destruct Hc as (_ & Hi & _). rewrite Ei in Hi. exact Hi. }
    assert (Hc1 : recordsSound P
              {| state := state c;
                 interval := Some {| closure := closure i; nextTick := nextTick i + 1000 |};
                 timeouts := timeouts c; reported := reported c |}).
    { destruct Hc as (Hs & _ & Ht & Hp). unfold recordsSound. cbn. auto. }
    unfold tick in Hd. cbn [state] in Hd.
    destruct (timeLeft (state c) <=? 1).
    + destruct (handleTimeUp P (closure i) now _) as [c1 | ] eqn:Hu; [ | discriminate ].
      cbn in Hd. injection Hd as <-.
      assert (H1 : recordsSound P c1).
      { unfold handleTimeUp in Hu. destruct (negb (showResult (closure i))).
        - eapply handleAnswerSubmit_recordsSound; [ exact Hi | exact Hc1 | exact Hu ].
        - injection Hu as <-. exact Hc1. }
      destruct H1 as (Hs & Hi' & Ht & Hp). unfold recordsSound. cbn. auto.
    + injection Hd as <-.
      destruct Hc1 as (Hs & Hi' & Ht & Hp). unfold recordsSound. cbn. auto.
  - destruct (timeouts c) as [ | t rest] eqn:Et; [ injection Hd as <-; exact Hc | ].
    destruct Hc as (Hs & Hi & Ht & Hp). rewrite Et in Ht.
    apply Forall_cons in Ht as [Ht1 Ht].
    unfold autoAdvance, handleNextQuestion, handleQuizComplete in Hd.
    destruct (_ <? _); injection Hd as <-; unfold recordsSound; cbn;
      repeat split; try assumption.
    apply Forall_app. split; [ exact Hp | ]. constructor; [ exact Ht1 | constructor ].
Qed.

Lemma commit_recordsSound now old c :
  recordsSound P c -> recordsSound P (commit P now old c).
Proof.
  intros (Hs & Hi & Ht & Hp). unfold commit. cbv zeta.
  destruct (negb (currentQuestionIndex old =? currentQuestionIndex (state c))%nat);
    destruct (negb (Bool.eqb (isComplete old) (isComplete (state c))));
    unfold recordsSound; cbn; repeat split; try assumption;
    destruct (isComplete (state c)); cbn; auto.
Qed.

Lemma run_recordsSound evs : forall c c',
  recordsSound P c -> run P c evs = Normal c' -> recordsSound P c'.
Proof.
  induction evs as [ | e evs IH]; intros c c' Hc Hr.
  - injection Hr as <-. exact Hc.
  - cbn [run] in Hr. unfold step in Hr.
    destruct (dispatch P e.1 e.2 c) as [c1 | ] eqn:Hd; [ | discriminate ].
    cbn [mbind Completion_bind] in Hr.
    destruct (render P (state c1)); [ | discriminate ].
    cbn [mbind Completion_bind] in Hr.
    eapply IH; [ | exact Hr ].
    apply commit_recordsSound. eapply dispatch_recordsSound; eauto.
Qed.

Lemma session_recordsSound t0 evs c :
  session P t0 evs = Normal c -> recordsSound P c.
Proof.
  unfold session, mount. cbv zeta. cbn [state].
  destruct (render P (initialState P t0)); [ | discriminate ].
  cbn [mbind Completion_bind]. apply run_recordsSound.
  unfold recordsSound. cbn. repeat split; constructor.
Qed.

Lemma sound_unanswered r : sound P r -> selected r = None -> correct r = false.
Proof. intros (q & _ & _ & Hc) Hn. rewrite Hc, Hn. reflexivity. Qed.

(** (X8) In every session of the quiz, whatever the events and their
    order (late timer expiries and double advances included), every
    record among the results and every record handed to [onComplete]
    is sound: it carries the id of one of the questions, and it is
    marked correct exactly when the option it holds is that question's
    correct answer.  In particular a record without a selection is
    never marked correct. *)
Theorem records_are_sound_in_every_session t0 evs c :
  session P t0 evs = Normal c ->
  (forall r, In r (results (state c)) -> sound P r)
  /\ (forall reportedScore rs r,
         In (reportedScore, rs) (reported c) -> In r rs -> sound P r)
  /\ (forall r, In r (results (state c)) -> selected r = None -> correct r = false).
Proof.
  intros Hs. destruct (session_recordsSound _ _ _ Hs) as (Hr & _ & _ & Hp).
  rewrite Forall_forall in Hr. rewrite Forall_forall in Hp.
  assert (H1 : forall r, In r (results (state c)) -> sound P r).
  { intros r Hin. apply Hr, list_elem_of_In, Hin. }
  split; [ exact H1 | split ].
  - intros sc rs r Hin Hinr. apply list_elem_of_In in Hin.
    specialize (Hp _ Hin). cbn in Hp. rewrite Forall_forall in Hp.
    apply Hp, list_elem_of_In, Hinr.
  - intros r Hin. apply sound_unanswered, H1, Hin.
Qed.

End QuizSoundRecords.

(** The unattended quiz, in which the timer fires again while a result
    is shown and the quiz advances twice: its records are sound all the
    same. *)
Lemma records_are_sound_in_every_session_witness :
  match Quiz.session threeQuestions 0 unattended with
  | Normal c =>
      Quiz.results (Quiz.state c) <> []
      /\ forall r, In r (Quiz.results (Quiz.state c)) -> Quiz.sound threeQuestions r
  | Throw _ => False
  end.
Proof.
  destruct (Quiz.session threeQuestions 0 unattended) as [c | e] eqn:Hs;
    pose proof Hs as Hc; vm_compute in Hc; [ | discriminate ].
  split; [ injection Hc as <-; discriminate | ].
  exact (proj1 (records_are_sound_in_every_session threeQuestions 0 unattended c Hs)).
Defined.

(* ===================================================================== *)
(** * Theorems: credits, object URLs and the key of the requests *)
(* ===================================================================== *)

Section Credits.
Import TTS.

Variable this : TextToSpeechService.



Lemma speak_fetches spoken voiceId w req :
  In (Fetch req) (snd (speak this spoken voiceId w)) ->
  req = speakRequest this spoken voiceId.
Proof.
  rewrite speak_cases. cbv zeta. unfold fallbackSpeak.
  destruct (fetch_result w _) as [response | ].
  - destruct (ok response).
    + destruct (blob_result response).
      * destruct (playback w); cbn; intros H;
          repeat (destruct H as [H | H]; [ congruence | ]); contradiction.
      * destruct (hasSpeechSynthesis w); cbn; intros H;
          repeat (destruct H as [H | H]; [ congruence | ]); contradiction.
    + destruct (hasSpeechSynthesis w); cbn; intros H;
        repeat (destruct H as [H | H]; [ congruence | ]); contradiction.
  - destruct (hasSpeechSynthesis w); cbn; intros H;
      repeat (destruct H as [H | H]; [ congruence | ]); contradiction.
Qed.

Lemma speak_urls spoken voiceId w :
  revokesOwn [] (snd (speak this spoken voiceId w)) = true
  /\ unrevoked [] (snd (speak this spoken voiceId w)) =
     if remoteSucceeds (speakRequest this spoken voiceId) w
        && match playback w with
           | PlayRejects | NeverEnds => true
           | _ => false
           end
     then [objectUrl w] else [].
Proof.
  rewrite speak_cases. cbv zeta. unfold remoteSucceeds, fallbackSpeak.
  destruct (fetch_result w _) as [response | ].
  - destruct (ok response).
    + destruct (blob_result response).
      * destruct (playback w); cbn; rewrite ?String.eqb_refl; cbn; split; reflexivity.
      * destruct (hasSpeechSynthesis w); cbn; split; reflexivity.
    + destruct (hasSpeechSynthesis w); cbn; split; reflexivity.
  - destruct (hasSpeechSynthesis w); cbn; split; reflexivity.
Qed.

(** (X10) [speak] revokes only an object URL it has created and not yet
    revoked, and when its promise settles after the ['ended'] or the
    ['error'] event of the audio, no object URL is left.  The URL of
    the audio is left behind in exactly two cases: [audio.play()]
    rejects, or the audio never ends; the handler given to
    [audio.play().catch] rejects the promise without revoking. *)
Theorem speak_revokes_what_it_creates spoken voiceId w :
  revokesOwn [] (snd (speak this spoken voiceId w)) = true
  /\ unrevoked [] (snd (speak this spoken voiceId w)) =
     if remoteSucceeds (speakRequest this spoken voiceId) w
        && match playback w with
           | PlayRejects | NeverEnds => true
           | _ => false
           end
     then [objectUrl w] else [].
Proof. apply speak_urls. Qed.

End Credits.


Example checkCredits_reads_the_count :
  TTS.checkCredits sampleService (browser (Some userResponse) TTS.PlaysToEnd)
  = (TTS.Fulfilled (TTS.JNumber (JS.of_nat 1200)),
     [TTS.Fetch (TTS.userRequest sampleService)]).
Proof. vm_compute. reflexivity. Qed.

(** The audio arrives and [audio.play()] rejects: the object URL stays. *)
Example rejected_play_leaves_the_url :
  TTS.unrevoked []
    (snd (TTS.speak sampleService "hello" None
            (browser (Some audioResponse) TTS.PlayRejects))) = ["blob:1"].
Proof. vm_compute. reflexivity. Qed.

Section StoredKey.
Import LanguageLearning.

Lemma load_serviceHoldsStoredKey stored : serviceHoldsStoredKey (load stored).
Proof.
  unfold load, mountEffect, serviceHoldsStoredKey. cbn.
  destruct stored as [k | ]; cbn; [ | discriminate ].
  destruct (JS.nonEmpty k); cbn; [ | discriminate ].
  intros tts [= <-]. reflexivity.
Qed.

Lemma settingsStep_serviceHoldsStoredKey p ev :
  serviceHoldsStoredKey p -> serviceHoldsStoredKey (settingsStep p ev).
Proof.
  intros H. destruct ev as [value | ]; cbn.
  - exact H.
  - unfold handleSaveElevenLabsKey.
    destruct (JS.nonEmpty (JS.trim (elevenLabsKey (component p)))); [ | exact H ].
    unfold serviceHoldsStoredKey. cbn. intros tts [= <-]. reflexivity.
Qed.

Lemma configure_serviceHoldsStoredKey stored evs :
  serviceHoldsStoredKey (configure stored evs).
Proof.
  unfold configure. generalize (load_serviceHoldsStoredKey stored).
  generalize (load stored) as p. induction evs as [ | ev evs IH]; intros p H; cbn.
  - exact H.
  - apply IH, settingsStep_serviceHoldsStoredKey, H.
Qed.

Lemma browserSpeak_fetches spoken r w req :
  ~ In (TTS.Fetch req) (snd (browserSpeak spoken r w)).
Proof.
  unfold browserSpeak. destruct (TTS.hasSpeechSynthesis w); cbn; intros H;
    repeat (destruct H as [H | H]; [ discriminate | ]); contradiction.
Qed.

Lemma caught_speak_fetches tts spoken r w req :
  In (TTS.Fetch req)
     (snd (TTS.tryCatch (TTS.speak tts spoken None)
             (fun error =>
                _ ← TTS.emit (TTS.ConsoleError "TTS error:");
                browserSpeak spoken r) w)) ->
  req = TTS.speakRequest tts spoken None.
Proof.
  unfold TTS.tryCatch.
  destruct (TTS.speak tts spoken None w) as [[[] | e | ] tr] eqn:Hs; cbn [snd].
  - intros H. apply (speak_fetches tts spoken None w). rewrite Hs. exact H.
  - unfold mbind, TTS.Async_bind, TTS.emit.
    destruct (browserSpeak spoken r w) as [r' tr'] eqn:Hb. cbn [snd].
    intros H. apply in_app_or in H as [H | H].
    + apply (speak_fetches tts spoken None w). rewrite Hs. exact H.
    + cbn in H. destruct H as [H | H]; [ discriminate | ].
      exfalso. apply (browserSpeak_fetches spoken r w req). rewrite Hb. exact H.
  - intros H. apply (speak_fetches tts spoken None w). rewrite Hs. exact H.
Qed.

Lemma handleSpeak_fetches p spoken w req :
  serviceHoldsStoredKey p ->
  In (TTS.Fetch req) (snd (handleSpeak p spoken w)) ->
  TTS.apiKeyHeader req = localStorage p
  /\ exists tts, TTS.getTTS (ttsService p) = Some tts
                 /\ req = TTS.speakRequest tts spoken None.
Proof.
  intros Hk. unfold handleSpeak.
  destruct (negb (ttsEnabled (component p))).
  - intros H. exfalso. exact (browserSpeak_fetches _ _ _ _ H).
  - destruct (TTS.getTTS (ttsService p)) as [tts | ] eqn:Ht.
    + intros H. apply caught_speak_fetches in H.
      split; [ rewrite H, (Hk tts Ht); reflexivity | ].
      exists tts. split; [ reflexivity | exact H ].
    + cbn. contradiction.
Qed.

(** (X11) Whatever key was stored when the page loaded and whatever the
    user typed and saved in the settings since, every request
    [handleSpeak] sends is the speech request of the current service
    for the text, and the key in its [xi-api-key] header is the one in
    local storage: the key of a mount is used as stored, the key of a
    save is trimmed before it is stored and used. *)
Theorem requests_carry_the_stored_key stored evs spoken w req :
  In (TTS.Fetch req) (snd (handleSpeak (configure stored evs) spoken w)) ->
  TTS.apiKeyHeader req = localStorage (configure stored evs)
  /\ exists tts, TTS.getTTS (ttsService (configure stored evs)) = Some tts
                 /\ req = TTS.speakRequest tts spoken None.
Proof. apply handleSpeak_fetches, configure_serviceHoldsStoredKey. Qed.

End StoredKey.

(** The user saves the key with blanks around it: the request carries
    the trimmed key, which is the stored one. *)
Lemma requests_carry_the_stored_key_witness :
  In (TTS.Fetch (TTS.speakRequest sampleService "hello" None))
     (snd (LanguageLearning.handleSpeak
             (LanguageLearning.configure None
                [LanguageLearning.ChangeKey "  sk_test "; LanguageLearning.ClickSave])
             "hello" (browser (Some audioResponse) TTS.PlaysToEnd)))
  /\ TTS.apiKeyHeader (TTS.speakRequest sampleService "hello" None) = Some "sk_test"
  /\ LanguageLearning.localStorage
       (LanguageLearning.configure None
          [LanguageLearning.ChangeKey "  sk_test "; LanguageLearning.ClickSave])
     = Some "sk_test".
Proof.
  assert (Hin : In (TTS.Fetch (TTS.speakRequest sampleService "hello" None))
     (snd (LanguageLearning.handleSpeak
             (LanguageLearning.configure None
                [LanguageLearning.ChangeKey "  sk_test "; LanguageLearning.ClickSave])
             "hello" (browser (Some audioResponse) TTS.PlaysToEnd))))
    by (left; reflexivity).
  split; [ exact Hin | ]. split; [ reflexivity | ].
  rewrite <- (proj1 (requests_carry_the_stored_key None
                       [LanguageLearning.ChangeKey "  sk_test "; LanguageLearning.ClickSave]
                       "hello" (browser (Some audioResponse) TTS.PlaysToEnd) _ Hin)).
  reflexivity.
Defined.

(* ===================================================================== *)
(** * Theorems: creating flashcards in LanguageLearning *)
(* ===================================================================== *)

Section CreatingContent.
Import LanguageLearning.

Lemma showCards_indexFits cards (s : Screen) :
  indexFits (withCells (showCards cards) s).
Proof.
  unfold indexFits. cbn. split; [ lia | ].
  destruct cards as [ | c cards]; [ right; split; reflexivity | left; cbn; lia ].
Qed.

Lemma cardStep_indexFits (s : Screen) cev :
  flashcardRendered s = true -> indexFits s ->
  let v := cardStep (cells s, drag s) cev in
  0 <= currentCardIndex (fst v)
  /\ (currentCardIndex (fst v) < Z.of_nat (length (flashcards (fst v)))
      \/ (flashcards (fst v) = [] /\ currentCardIndex (fst v) = 0)).
Proof.
  unfold flashcardRendered, indexFits. intros Hr [H0 H1].
  destruct (mode s); try discriminate.
  destruct (flashcards (cells s)) as [ | c0 cards] eqn:Ec; [ discriminate | ].
  destruct H1 as [H1 | [H1 _]]; [ | discriminate ].
  assert (Hlen : 0 < Z.of_nat (length (flashcards (cells s)))) by (rewrite Ec; cbn; lia).
  rewrite <- Ec in H1. clear Ec.
  destruct cev; cbn; try (split; [ lia | left; lia ]).
  destruct (isDragging (drag s)); cbn; [ | split; [ lia | left; lia ] ].
  destruct (100 <? _); cbn; [ | split; [ lia | left; lia ] ].
  destruct (0 <? _); cbn; split; try lia; left; lia.
Qed.

Lemma unmountHidden_cells s : cells (unmountHidden s) = cells s.
Proof. unfold unmountHidden. destruct (flashcardRendered s); reflexivity. Qed.

Lemma screenStep_indexFits s ev : indexFits s -> indexFits (screenStep s ev).
Proof.
  intros H. unfold screenStep, indexFits. rewrite unmountHidden_cells.
  destruct ev as [ m | | reply | | reply | | cev ]; try exact H.
  - destruct reply; try exact H; apply showCards_indexFits.
  - destruct reply; exact H.
  - unfold onCard. destruct (flashcardRendered s) eqn:Hr; [ | exact H ].
    cbn [cells]. exact (cardStep_indexFits s cev Hr H).
Qed.

Lemma useScreen_indexFits evs : indexFits (useScreen evs).
Proof.
  unfold useScreen.
  assert (H : indexFits initialScreen)
    by (unfold indexFits; cbn; split; [ lia | right; auto ]).
  revert H. generalize initialScreen as s.
  induction evs as [ | ev evs IH]; intros s H; cbn.
  - exact H.
  - apply IH, screenStep_indexFits, H.
Qed.

Lemma indexFits_currentCard s :
  indexFits s -> flashcardRendered s = true -> is_Some (currentCard s).
Proof.
  intros [H0 H1] Hr. unfold currentCard. rewrite Hr.
  unfold flashcardRendered in Hr. destruct (mode s); try discriminate.
  destruct (flashcards (cells s)) as [ | c0 cards] eqn:Ec; [ discriminate | ].
  destruct H1 as [H1 | [H1 _]]; [ | discriminate ].
  destruct (currentCardIndex (cells s)) as [ | q | q] eqn:Ei; [ | | lia ].
  - apply lookup_lt_is_Some. cbn. lia.
  - apply lookup_lt_is_Some. lia.
Qed.

(** (X12) In LanguageLearning the card index fits the card list at
    every moment, whatever the order of navigation, card clicks,
    swipes, requests for flashcards or quizzes and their replies: a
    reply that brings cards resets the index to 0, a failed one leaves
    list and index alone.  So whenever the Flashcard child is rendered
    it has a card to show, also when a second, shorter list arrives
    while a late card of the first is on display. *)
Theorem created_cards_keep_the_index_in_bounds evs :
  indexFits (useScreen evs)
  /\ (flashcardRendered (useScreen evs) = true -> is_Some (currentCard (useScreen evs))).
Proof.
  split; [ apply useScreen_indexFits | ].
  apply indexFits_currentCard, useScreen_indexFits.
Qed.

End CreatingContent.

(** Five cards, the user on the fifth; then two cards arrive: the first
    of them is shown. *)
Lemma created_cards_keep_the_index_in_bounds_witness :
  LanguageLearning.flashcardRendered (LanguageLearning.useScreen recreated) = true
  /\ is_Some (LanguageLearning.currentCard (LanguageLearning.useScreen recreated)).
Proof.
  split; [ reflexivity | ].
  apply (proj2 (created_cards_keep_the_index_in_bounds recreated)). reflexivity.
Defined.

Example second_list_starts_at_its_first_card :
  LanguageLearning.currentCard (LanguageLearning.useScreen recreated)
  = Some (sampleCard "x").
Proof. reflexivity. Qed.

(* ===================================================================== *)
(** * Theorems: the App component *)
(* ===================================================================== *)

Section AppPage.
Import App.

Variable flashcards : list LanguageLearning.FlashcardData.

Lemma app_unmountHidden_fields p :
  component (unmountHidden flashcards p) = component p
  /\ classList (unmountHidden flashcards p) = classList p
  /\ storedTheme (unmountHidden flashcards p) = storedTheme p
  /\ storedKey (unmountHidden flashcards p) = storedKey p
  /\ ttsService (unmountHidden flashcards p) = ttsService p.
Proof. unfold unmountHidden. destruct (flashcardRendered _ _); repeat split. Qed.

Lemma app_onCard_fields cev p :
  classList (onCard flashcards cev p) = classList p
  /\ storedTheme (onCard flashcards cev p) = storedTheme p
  /\ storedKey (onCard flashcards cev p) = storedKey p
  /\ ttsService (onCard flashcards cev p) = ttsService p
  /\ theme (component (onCard flashcards cev p)) = theme (component p).
Proof.
  unfold onCard. destruct (flashcardRendered _ _); [ | repeat split ].
  cbn. repeat split.
  destruct cev; cbn; try reflexivity.
  - destruct (JS.Rounded_eqb _ _); reflexivity.
  - destruct (JS.Rounded_eqb _ _); reflexivity.
  - destruct (LanguageLearning.isDragging (drag p)); [ | reflexivity ].
    cbn. destruct (100 <? _); [ | reflexivity ]. destruct (0 <? _); reflexivity.
Qed.

(** ** Speech *)

Lemma app_step_serviceHoldsStoredKey p ev :
  serviceHoldsStoredKey p -> serviceHoldsStoredKey (step flashcards p ev).
Proof.
  intros H. unfold step, serviceHoldsStoredKey.
  destruct (app_unmountHidden_fields
              match ev with
              | ToggleTheme => toggleTheme p
              | Navigate m => withComponent (setCurrentMode m) p
              | ChangeKey value => withComponent (setElevenlabsKey value) p
              | ClickSaveKey => saveApiKey p
              | OnCard cev => onCard flashcards cev p
              end) as (_ & _ & _ & -> & ->).
  destruct ev as [ | m | value | | cev ].
  - unfold toggleTheme. cbv zeta. destruct (String.eqb _ _); exact H.
  - exact H.
  - exact H.
  - unfold saveApiKey. cbv zeta. destruct (JS.nonEmpty _); [ | exact H ].
    cbn. intros tts [= <-]. reflexivity.
  - destruct (app_onCard_fields cev p) as (_ & _ & -> & -> & _). exact H.
Qed.

Lemma app_load_serviceHoldsStoredKey savedTheme savedKey classes :
  serviceHoldsStoredKey (load savedTheme savedKey classes).
Proof.
  unfold load, keyEffect, serviceHoldsStoredKey. cbn.
  destruct savedKey as [k | ]; cbn; [ | discriminate ].
  destruct (JS.nonEmpty k); cbn; [ | discriminate ].
  intros tts [= <-]. reflexivity.
Qed.

Lemma app_use_serviceHoldsStoredKey savedTheme savedKey classes evs :
  serviceHoldsStoredKey (use flashcards savedTheme savedKey classes evs).
Proof.
  unfold use. generalize (app_load_serviceHoldsStoredKey savedTheme savedKey classes).
  generalize (load savedTheme savedKey classes) as p.
  induction evs as [ | ev evs IH]; intros p H; cbn.
  - exact H.
  - apply IH, app_step_serviceHoldsStoredKey, H.
Qed.

Lemma app_handleSpeak_settles (p : Page) spoken w e :
  fst (handleSpeak p spoken w) <> TTS.Rejected e.
Proof.
  unfold handleSpeak.
  destruct (TTS.getTTS (ttsService p)) as [tts | ].
  - unfold TTS.tryCatch. destruct (TTS.speak tts spoken None w) as [[[] | e' | ] tr];
      try discriminate.
    unfold LanguageLearning.browserSpeak, mbind, TTS.Async_bind, TTS.emit.
    destruct (TTS.hasSpeechSynthesis w); discriminate.
  - unfold LanguageLearning.browserSpeak.
    destruct (TTS.hasSpeechSynthesis w); discriminate.
Qed.

Lemma app_handleSpeak_fetches (p : Page) spoken w req :
  serviceHoldsStoredKey p ->
  In (TTS.Fetch req) (snd (handleSpeak p spoken w)) ->
  TTS.apiKeyHeader req = storedKey p.
Proof.
  intros Hk. unfold handleSpeak.
  destruct (TTS.getTTS (ttsService p)) as [tts | ] eqn:Ht.
  - intros H. apply caught_speak_fetches in H.
    rewrite H, (Hk tts Ht). reflexivity.
  - intros H. exfalso. exact (browserSpeak_fetches _ _ _ _ H).
Qed.

(** (X13) In the App, after any events since the page loaded, the
    promise of [handleSpeak] is never rejected; every request it sends
    carries in its [xi-api-key] header the key in local storage,
    exactly as it was typed (the App stores and uses the key
    untrimmed); and while nothing is stored it sends no request and
    hands the text to the browser synthesizer. *)
Theorem app_speaks_with_the_stored_key savedTheme savedKey classes evs spoken w :
  (forall e,
      fst (handleSpeak (use flashcards savedTheme savedKey classes evs) spoken w)
      <> TTS.Rejected e)
  /\ (forall req,
         In (TTS.Fetch req)
            (snd (handleSpeak (use flashcards savedTheme savedKey classes evs) spoken w)) ->
         TTS.apiKeyHeader req
         = storedKey (use flashcards savedTheme savedKey classes evs))
  /\ (storedKey (use flashcards savedTheme savedKey classes evs) = None ->
      handleSpeak (use flashcards savedTheme savedKey classes evs) spoken w
      = LanguageLearning.browserSpeak spoken 100 w).
Proof.
  pose proof (app_use_serviceHoldsStoredKey savedTheme savedKey classes evs) as Hk.
  split; [ | split ].
  - intros e. apply app_handleSpeak_settles.
  - intros req. apply app_handleSpeak_fetches, Hk.
  - intros Hn. unfold handleSpeak.
    destruct (TTS.getTTS (ttsService _)) as [tts | ] eqn:Ht; [ | reflexivity ].
    rewrite (Hk tts Ht) in Hn. discriminate.
Qed.

(** ** Theme *)

Lemma themeEffect_themeApplied classes p :
  (forall c, c <> "dark" -> c <> "light" -> (c ∈ classList p <-> c ∈ classes)) ->
  themeApplied classes (themeEffect p).
Proof.
  intros Hrest. unfold themeApplied, themeEffect. cbn.
  destruct (String.eqb (theme (component p)) "dark") eqn:E.
  - apply String.eqb_eq in E. rewrite E.
    split; [ | split; [ | split; [ | reflexivity ] ] ].
    + rewrite elem_of_difference, elem_of_union, !elem_of_singleton.
      split; [ reflexivity | ]. intros _. split; [ by right | discriminate ].
    + rewrite elem_of_difference, elem_of_union, !elem_of_singleton.
      split; [ intros [_ H]; by destruct H | intros H; by destruct H ].
    + intros c Hd Hl. rewrite <- (Hrest c Hd Hl).
      rewrite elem_of_difference, elem_of_union, !elem_of_singleton. tauto.
  - apply String.eqb_neq in E.
    split; [ | split; [ | split; [ | reflexivity ] ] ].
    + rewrite elem_of_union, elem_of_difference, !elem_of_singleton.
      split; [ | tauto ]. intros [[_ H] | H]; [ by destruct H | discriminate ].
    + rewrite elem_of_union, elem_of_difference, !elem_of_singleton.
      split; [ intros _; exact E | intros _; by right ].
    + intros c Hd Hl. rewrite <- (Hrest c Hd Hl).
      rewrite elem_of_union, elem_of_difference, !elem_of_singleton. tauto.
Qed.

Lemma toggleTheme_themeApplied classes p :
  themeApplied classes p -> themeApplied classes (toggleTheme p).
Proof.
  intros (Hd & Hl & Hrest & Hs). unfold toggleTheme. cbv zeta.
  destruct (String.eqb (theme (component p)) "dark") eqn:E.
  - apply String.eqb_eq in E. rewrite E.
    replace (String.eqb "dark" "light") with false by reflexivity.
    apply themeEffect_themeApplied. exact Hrest.
  - destruct (String.eqb (theme (component p)) "dark") eqn:E'; [ discriminate | ].
    apply themeEffect_themeApplied. exact Hrest.
Qed.

Lemma step_themeApplied classes p ev :
  themeApplied classes p -> themeApplied classes (step flashcards p ev).
Proof.
  intros H. unfold step, themeApplied.
  destruct (app_unmountHidden_fields
              match ev with
              | ToggleTheme => toggleTheme p
              | Navigate m => withComponent (setCurrentMode m) p
              | ChangeKey value => withComponent (setElevenlabsKey value) p
              | ClickSaveKey => saveApiKey p
              | OnCard cev => onCard flashcards cev p
              end) as (-> & -> & -> & _ & _).
  destruct ev as [ | m | value | | cev ].
  - apply toggleTheme_themeApplied, H.
  - exact H.
  - exact H.
  - unfold saveApiKey. cbv zeta. destruct (JS.nonEmpty _); exact H.
  - destruct (app_onCard_fields cev p) as (-> & -> & _ & _ & ->). exact H.
Qed.

Lemma load_themeApplied savedTheme savedKey classes :
  themeApplied classes (load savedTheme savedKey classes).
Proof.
  unfold load.
  match goal with |- themeApplied _ (keyEffect ?q) =>
    assert (H : themeApplied classes q) by (apply themeEffect_themeApplied; cbn; tauto);
    revert H; generalize q end.
  intros q H. unfold keyEffect. destruct (storedKey q) as [k | ]; [ | exact H ].
  destruct (JS.nonEmpty k); exact H.
Qed.

Lemma use_themeApplied savedTheme savedKey classes evs :
  themeApplied classes (use flashcards savedTheme savedKey classes evs).
Proof.
  unfold use. generalize (load_themeApplied savedTheme savedKey classes).
  generalize (load savedTheme savedKey classes) as p.
  induction evs as [ | ev evs IH]; intros p H; cbn.
  - exact H.
  - apply IH, step_themeApplied, H.
Qed.

(** (X14) From the moment the App has loaded, whatever theme was stored
    (a text other than dark or light included) and whatever the user
    does, the root element has exactly one of the classes [dark] and
    [light]: [dark] when the theme is dark, [light] otherwise; its
    other classes are the ones the document came with; and the theme in
    local storage is the current theme. *)
Theorem theme_is_applied savedTheme savedKey classes evs :
  themeApplied classes (use flashcards savedTheme savedKey classes evs).
Proof. apply use_themeApplied. Qed.

End AppPage.

(** A key typed with a blank after it and saved: the request carries it
    with the blank, as it is stored. *)
Lemma app_speaks_with_the_stored_key_witness :
  App.storedKey (App.use threeCards None None ∅ [App.ChangeKey "sk_test "; App.ClickSaveKey])
  = Some "sk_test "
  /\ forall req,
       In (TTS.Fetch req)
          (snd (App.handleSpeak
                  (App.use threeCards None None ∅ [App.ChangeKey "sk_test "; App.ClickSaveKey])
                  "hello" (browser (Some audioResponse) TTS.PlaysToEnd))) ->
       TTS.apiKeyHeader req = Some "sk_test ".
Proof.
  split; [ reflexivity | ].
  exact (proj1 (proj2 (app_speaks_with_the_stored_key threeCards None None ∅
                         [App.ChangeKey "sk_test "; App.ClickSaveKey]
                         "hello" (browser (Some audioResponse) TTS.PlaysToEnd)))).
Defined.

(** A stored theme that is neither dark nor light: the page shows the
    light theme, and one click on the theme button makes it dark. *)
Lemma theme_is_applied_witness :
  App.themeApplied {["app"]} (App.use threeCards (Some "blue") None {["app"]} [])
  /\ App.theme (App.component
                  (App.use threeCards (Some "blue") None {["app"]} [App.ToggleTheme]))
     = "dark".
Proof.
  split; [ | reflexivity ].
  apply (theme_is_applied threeCards (Some "blue") None {["app"]} []).
Defined.

Section AppCards.
Import App.

Variable flashcards : list LanguageLearning.FlashcardData.
Hypothesis nonEmpty : flashcards <> [].

Lemma cards_positive : 0 < Z.of_nat (length flashcards).
Proof. destruct flashcards; [ contradiction | cbn; lia ]. Qed.

Lemma handleNextCard_index s i :
  currentFlashcardIndex s = JS.Int i -> 0 <= i < Z.of_nat (length flashcards) ->
  currentFlashcardIndex (handleNextCard flashcards s)
  = JS.Int (if i =? Z.of_nat (length flashcards) - 1 then 0 else i + 1).
Proof.
  intros Hi Hb. pose proof cards_positive as Hn.
  unfold handleNextCard. cbn. rewrite Hi. unfold JS.remainder.
  destruct (Z.of_nat (length flashcards) =? 0) eqn:E; [ apply Z.eqb_eq in E; lia | ].
  f_equal. rewrite Z.rem_mod_nonneg by lia.
  destruct (i =? Z.of_nat (length flashcards) - 1) eqn:E1.
  - apply Z.eqb_eq in E1. subst i.
    replace (Z.of_nat (length flashcards) - 1 + 1)
      with (Z.of_nat (length flashcards)) by lia.
    apply Z_mod_same_full.
  - apply Z.eqb_neq in E1. apply Z.mod_small. lia.
Qed.

Lemma handlePreviousCard_index s i :
  currentFlashcardIndex s = JS.Int i -> 0 <= i < Z.of_nat (length flashcards) ->
  currentFlashcardIndex (handlePreviousCard flashcards s)
  = JS.Int (if i =? 0 then Z.of_nat (length flashcards) - 1 else i - 1).
Proof.
  intros Hi Hb. pose proof cards_positive as Hn.
  unfold handlePreviousCard. cbn. rewrite Hi. unfold JS.remainder.
  destruct (Z.of_nat (length flashcards) =? 0) eqn:E; [ apply Z.eqb_eq in E; lia | ].
  f_equal. rewrite Z.rem_mod_nonneg by lia.
  destruct (i =? 0) eqn:E1.
  - apply Z.eqb_eq in E1. subst i.
    replace (0 - 1 + Z.of_nat (length flashcards))
      with (Z.of_nat (length flashcards) - 1) by lia.
    apply Z.mod_small. lia.
  - apply Z.eqb_neq in E1.
    replace (i - 1 + Z.of_nat (length flashcards))
      with (i - 1 + 1 * Z.of_nat (length flashcards)) by lia.
    rewrite Z.mod_add by lia. apply Z.mod_small. lia.
Qed.

Lemma handleNextCard_inBounds s :
  indexInBounds flashcards s -> indexInBounds flashcards (handleNextCard flashcards s).
Proof.
  intros (i & Hi & Hb). unfold indexInBounds. rewrite (handleNextCard_index s i Hi Hb).
  eexists. split; [ reflexivity | ].
  destruct (i =? Z.of_nat (length flashcards) - 1) eqn:E; [ lia | ].
  apply Z.eqb_neq in E. lia.
Qed.

Lemma handlePreviousCard_inBounds s :
  indexInBounds flashcards s -> indexInBounds flashcards (handlePreviousCard flashcards s).
Proof.
  intros (i & Hi & Hb). unfold indexInBounds. rewrite (handlePreviousCard_index s i Hi Hb).
  eexists. split; [ reflexivity | ]. destruct (i =? 0) eqn:E; [ lia | ].
  apply Z.eqb_neq in E. lia.
Qed.

Lemma app_cardStep_inBounds v ev :
  indexInBounds flashcards (fst v) ->
  indexInBounds flashcards (fst (cardStep flashcards v ev)).
Proof.
  intros H. destruct v as [s d]. cbn [fst] in *.
  destruct ev; cbn [cardStep fst snd]; try exact H.
  - destruct (JS.Rounded_eqb _ _); [ exact H | ].
    cbn [fst]. exact (handleNextCard_inBounds s H).
  - destruct (JS.Rounded_eqb _ _); [ exact H | ].
    cbn [fst]. exact (handlePreviousCard_inBounds s H).
  - unfold LanguageLearning.handleTouchEnd.
    destruct (LanguageLearning.isDragging d); [ | exact H ].
    cbn [fst]. destruct (100 <? _); [ | exact H ].
    destruct (0 <? _).
    + exact (handlePreviousCard_inBounds s H).
    + exact (handleNextCard_inBounds s H).
Qed.

Lemma step_cardInBounds p ev :
  cardInBounds flashcards p -> cardInBounds flashcards (step flashcards p ev).
Proof.
  intros H. unfold step, cardInBounds.
  destruct (app_unmountHidden_fields flashcards
              match ev with
              | ToggleTheme => toggleTheme p
              | Navigate m => withComponent (setCurrentMode m) p
              | ChangeKey value => withComponent (setElevenlabsKey value) p
              | ClickSaveKey => saveApiKey p
              | OnCard cev => onCard flashcards cev p
              end) as (-> & _).
  destruct ev as [ | m | value | | cev ].
  - unfold toggleTheme. cbv zeta. destruct (String.eqb _ _); exact H.
  - exact H.
  - exact H.
  - unfold saveApiKey. cbv zeta. destruct (JS.nonEmpty _); exact H.
  - unfold onCard. destruct (flashcardRendered _ _); [ | exact H ].
    cbn [component]. exact (app_cardStep_inBounds (component p, drag p) cev H).
Qed.

Lemma use_cardInBounds savedTheme savedKey classes evs :
  cardInBounds flashcards (use flashcards savedTheme savedKey classes evs).
Proof.
  unfold use.
  assert (H : cardInBounds flashcards (load savedTheme savedKey classes)).
  { pose proof cards_positive. unfold load, keyEffect, cardInBounds, indexInBounds. cbn.
    destruct savedKey as [k | ]; [ destruct (JS.nonEmpty k) | ]; cbn;
      exists 0; (split; [ reflexivity | lia ]). }
  revert H. generalize (load savedTheme savedKey classes) as p.
  induction evs as [ | ev evs IH]; intros p H; cbn.
  - exact H.
  - apply IH, step_cardInBounds, H.
Qed.

Lemma cardInBounds_currentCard p :
  cardInBounds flashcards p -> is_Some (currentCard flashcards (component p)).
Proof.
  intros (i & Hi & Hb). unfold currentCard. rewrite Hi.
  destruct i as [ | q | q]; [ | | lia ].
  - apply lookup_lt_is_Some. cbn. lia.
  - apply lookup_lt_is_Some. lia.
Qed.

Lemma iter_handleNextCard k : forall s i,
  currentFlashcardIndex s = JS.Int i -> 0 <= i < Z.of_nat (length flashcards) ->
  currentFlashcardIndex (Nat.iter k (handleNextCard flashcards) s)
  = JS.Int ((i + Z.of_nat k) mod Z.of_nat (length flashcards)).
Proof.
  pose proof cards_positive as Hn.
  induction k as [ | k IH]; intros s i Hi Hb.
  - cbn. rewrite Hi. f_equal. rewrite Z.add_0_r. symmetry. apply Z.mod_small. lia.
  - change (Nat.iter (S k) (handleNextCard flashcards) s)
      with (handleNextCard flashcards (Nat.iter k (handleNextCard flashcards) s)).
    assert (Hk : 0 <= (i + Z.of_nat k) mod Z.of_nat (length flashcards)
                 < Z.of_nat (length flashcards)) by (apply Z.mod_pos_bound; lia).
    rewrite (handleNextCard_index _ _ (IH s i Hi Hb) Hk). f_equal.
    replace (i + Z.of_nat (S k)) with (i + Z.of_nat k + 1) by lia.
    rewrite <- (Zplus_mod_idemp_l (i + Z.of_nat k) 1 (Z.of_nat (length flashcards))).
    destruct (_ =? Z.of_nat (length flashcards) - 1) eqn:E.
    + apply Z.eqb_eq in E. rewrite E.
      replace (Z.of_nat (length flashcards) - 1 + 1)
        with (Z.of_nat (length flashcards)) by lia.
      symmetry. apply Z_mod_same_full.
    + apply Z.eqb_neq in E. symmetry. apply Z.mod_small. lia.
Qed.

Lemma next_previous_inverse s i :
  currentFlashcardIndex s = JS.Int i -> 0 <= i < Z.of_nat (length flashcards) ->
  currentFlashcardIndex (handlePreviousCard flashcards (handleNextCard flashcards s))
  = JS.Int i
  /\ currentFlashcardIndex (handleNextCard flashcards (handlePreviousCard flashcards s))
     = JS.Int i.
Proof.
  intros Hi Hb. pose proof cards_positive as Hn. split.
  - pose proof (handleNextCard_index s i Hi Hb) as H1.
    assert (Hb1 : 0 <= (if i =? Z.of_nat (length flashcards) - 1 then 0 else i + 1)
                  < Z.of_nat (length flashcards)).
    { destruct (i =? _) eqn:E; [ lia | apply Z.eqb_neq in E; lia ]. }
    rewrite (handlePreviousCard_index _ _ H1 Hb1). f_equal.
    destruct (i =? Z.of_nat (length flashcards) - 1) eqn:E.
    + apply Z.eqb_eq in E. cbn. lia.
    + apply Z.eqb_neq in E.
      destruct (i + 1 =? 0) eqn:E0; [ apply Z.eqb_eq in E0; lia | lia ].
  - pose proof (handlePreviousCard_index s i Hi Hb) as H1.
    assert (Hb1 : 0 <= (if i =? 0 then Z.of_nat (length flashcards) - 1 else i - 1)
                  < Z.of_nat (length flashcards)).
    { destruct (i =? 0) eqn:E; [ lia | apply Z.eqb_neq in E; lia ]. }
    rewrite (handleNextCard_index _ _ H1 Hb1). f_equal.
    destruct (i =? 0) eqn:E.
    + apply Z.eqb_eq in E. rewrite Z.eqb_refl. lia.
    + apply Z.eqb_neq in E.
      destruct (i - 1 =? Z.of_nat (length flashcards) - 1) eqn:E0;
        [ apply Z.eqb_eq in E0; lia | lia ].
Qed.

(** (X15) In the App, with a list of cards that is not empty, the card
    index is an integer within the list after any events: theme and key
    events leave it alone, the buttons are disabled at the ends, and a
    swipe beyond an end wraps around.  So the Flashcard child always
    has a card to show, and the index never becomes NaN. *)
Theorem app_card_always_in_bounds savedTheme savedKey classes evs :
  cardInBounds flashcards (use flashcards savedTheme savedKey classes evs)
  /\ is_Some (currentCard flashcards
                (component (use flashcards savedTheme savedKey classes evs))).
Proof.
  split; [ apply use_cardInBounds | ].
  apply cardInBounds_currentCard, use_cardInBounds.
Qed.

(** (X16) On a list of cards that is not empty, [handleNextCard] and
    [handlePreviousCard] move around a ring: from a card within the
    list the next one is the following card, the first after the last;
    the previous one is the preceding card, the last before the first;
    each handler undoes the other; and as many steps forward as there
    are cards lead back to the card one started from. *)
Theorem next_and_previous_card_go_round s i :
  currentFlashcardIndex s = JS.Int i -> 0 <= i < Z.of_nat (length flashcards) ->
  currentFlashcardIndex (handleNextCard flashcards s)
  = JS.Int (if i =? Z.of_nat (length flashcards) - 1 then 0 else i + 1)
  /\ currentFlashcardIndex (handlePreviousCard flashcards s)
     = JS.Int (if i =? 0 then Z.of_nat (length flashcards) - 1 else i - 1)
  /\ currentFlashcardIndex (handlePreviousCard flashcards (handleNextCard flashcards s))
     = JS.Int i
  /\ currentFlashcardIndex (handleNextCard flashcards (handlePreviousCard flashcards s))
     = JS.Int i
  /\ currentFlashcardIndex (Nat.iter (length flashcards) (handleNextCard flashcards) s)
     = JS.Int i.
Proof.
  intros Hi Hb. pose proof cards_positive as Hn.
  split; [ exact (handleNextCard_index s i Hi Hb) | ].
  split; [ exact (handlePreviousCard_index s i Hi Hb) | ].
  destruct (next_previous_inverse s i Hi Hb) as [H1 H2].
  split; [ exact H1 | ]. split; [ exact H2 | ].
  rewrite (iter_handleNextCard _ s i Hi Hb). f_equal.
  replace (i + Z.of_nat (length flashcards))
    with (i + 1 * Z.of_nat (length flashcards)) by lia.
  rewrite Z.mod_add by lia. apply Z.mod_small. lia.
Qed.

End AppCards.

(** Three cards and three swipes to the left: the third swipe, on the
    last card, wraps around to the first. *)
Lemma app_card_always_in_bounds_witness :
  threeCards <> []
  /\ App.currentFlashcardIndex
       (App.component (App.use threeCards None None ∅ threeSwipes)) = JS.Int 0
  /\ is_Some (App.currentCard threeCards
                (App.component (App.use threeCards None None ∅ threeSwipes))).
Proof.
  split; [ discriminate | ]. split; [ reflexivity | ].
  apply (app_card_always_in_bounds threeCards ltac:(discriminate) None None ∅ threeSwipes).
Defined.

(** From the last of three cards the next one is the first, and the
    previous one of that is the last again. *)
Lemma next_and_previous_card_go_round_witness :
  threeCards <> []
  /\ App.currentFlashcardIndex (App.handleNextCard threeCards onLastCard) = JS.Int 0
  /\ App.currentFlashcardIndex
       (App.handlePreviousCard threeCards (App.handleNextCard threeCards onLastCard))
     = JS.Int 2.
Proof.
  split; [ discriminate | ].
  destruct (next_and_previous_card_go_round threeCards ltac:(discriminate)
              onLastCard 2 eq_refl ltac:(cbn; lia)) as (H1 & _ & H3 & _).
  split; [ exact H1 | exact H3 ].
Defined.

(* ===================================================================== *)
(** * Theorems: the agent's memory *)
(* ===================================================================== *)

Section Memory.
Import Tools.

Lemma call_recall c a key :
  exists msg a', call c a = Normal (msg, a')
    /\ recall a' key =
       match c with
       | SetMemory k v => if String.eqb k key then Some v else recall a key
       | ForgetMemory k => if String.eqb k key then None else recall a key
       end.
Proof.
  destruct c as [k v | k]; cbn; do 2 eexists; (split; [ reflexivity | ]);
    unfold recall; cbn.
  - destruct (String.eqb k key) eqn:E.
    + apply String.eqb_eq in E. subst. apply lookup_insert_eq.
    + apply String.eqb_neq in E. apply lookup_insert_ne. exact E.
  - destruct (String.eqb k key) eqn:E.
    + apply String.eqb_eq in E. subst. apply lookup_delete_eq.
    + apply String.eqb_neq in E. apply lookup_delete_ne. exact E.
Qed.

Lemma calls_recall cs : forall a key,
  exists a', calls cs a = Normal a' /\ recall a' key = told key cs (recall a key).
Proof.
  induction cs as [ | c cs IH]; intros a key.
  - exists a. split; reflexivity.
  - destruct (call_recall c a key) as (msg & a1 & Hc & Hr).
    destruct (IH a1 key) as (a' & Hcs & Hr').
    exists a'. cbn [calls]. rewrite Hc. cbn [mbind Completion_bind]. cbn [snd].
    split; [ exact Hcs | ].
    rewrite Hr'. unfold told. cbn [fold_left]. rewrite Hr.
    destruct c; reflexivity.
Qed.

(** (X17) The memory tools behave as a store of keys: any sequence of
    [setMemory] and [forgetMemory] calls succeeds, and afterwards the
    agent remembers under each key what the last call that names this
    key says (the value of a set, nothing after a forget) and, for a
    key no call names, what it remembered before.  A call never touches
    another key, and forgetting a key that is not there is no error. *)
Theorem memory_last_call_wins cs a key :
  exists a', calls cs a = Normal a' /\ recall a' key = told key cs (recall a key).
Proof. apply calls_recall. Qed.

Lemma forget_after_set key value a :
  recall a key = None ->
  exists m1 a1 m2 a2,
    setMemory key value (Some a) = Normal (m1, a1)
    /\ forgetMemory key (Some a1) = Normal (m2, a2)
    /\ memory (state a2) = Some (default ∅ (memory (state a))).
Proof.
  intros Hn. do 4 eexists. split; [ reflexivity | split; [ reflexivity | ] ].
  cbn. f_equal. apply delete_insert_id. exact Hn.
Qed.

(** (X18) Setting a key the agent does not know and forgetting it again
    gives back the memory there was: the entries are those from before
    the two calls.  A state that had no memory member at all comes back
    with an empty memory object. *)
Theorem forget_undoes_set key value a :
  recall a key = None ->
  exists m1 a1 m2 a2,
    setMemory key value (Some a) = Normal (m1, a1)
    /\ forgetMemory key (Some a1) = Normal (m2, a2)
    /\ memory (state a2) = Some (default ∅ (memory (state a))).
Proof. apply forget_after_set. Qed.

End Memory.

(** Four calls on a fresh agent: the level is the corrected one, the
    goal is gone. *)
Lemma memory_last_call_wins_witness :
  exists a', Tools.calls memoryCalls freshAgent = Normal a'
             /\ Tools.recall a' "level" = Some "B2"
             /\ Tools.recall a' "goal" = None.
Proof.
  destruct (memory_last_call_wins memoryCalls freshAgent "level") as (a1 & H1 & Hl).
  destruct (memory_last_call_wins memoryCalls freshAgent "goal") as (a2 & H2 & Hg).
  exists a1. split; [ exact H1 | ]. split; [ exact Hl | ].
  rewrite H1 in H2. injection H2 as <-. exact Hg.
Defined.

Lemma forget_undoes_set_witness :
  Tools.recall freshAgent "level" = None
  /\ exists m1 a1 m2 a2,
       Tools.setMemory "level" "B1" (Some freshAgent) = Normal (m1, a1)
       /\ Tools.forgetMemory "level" (Some a1) = Normal (m2, a2)
       /\ Tools.memory (Tools.state a2) = Some ∅.
Proof.
  split; [ reflexivity | ].
  apply (forget_undoes_set "level" "B1" freshAgent). reflexivity.
Defined.

(* ===================================================================== *)
(** * Theorems: the exercises of the chat view *)
(* ===================================================================== *)

Section Exercises.
Import Chat.

Lemma click_answers (s : State) c key :
  selectedAnswers (click s c) !! key =
    match selectedAnswers s !! key with
    | Some a => Some a
    | None => fst <$> firstAnswer key [c]
    end
  /\ quizResults (click s c) !! key =
    match selectedAnswers s !! key with
    | Some _ => quizResults s !! key
    | None => match firstAnswer key [c] with
              | Some ab => Some (snd ab)
              | None => quizResults s !! key
              end
    end.
Proof.
  destruct c as [messageId question optIndex | ? ? | ? ? | ? ?]; cbn [click firstAnswer];
    try (unfold clickCard, clickListen; cbn;
         destruct (selectedAnswers s !! key); split; reflexivity).
  unfold clickOption, showResult. cbv zeta.
  destruct (String.eqb (itemKey messageId (Quiz.id question)) key) eqn:E.
  - apply String.eqb_eq in E. rewrite E.
    destruct (selectedAnswers s !! key) eqn:Hs.
    + rewrite Hs. split; reflexivity.
    + cbn. rewrite !lookup_insert_eq. split; reflexivity.
  - apply String.eqb_neq in E.
    destruct (selectedAnswers s !! itemKey messageId (Quiz.id question)) eqn:Hs.
    + destruct (selectedAnswers s !! key); split; reflexivity.
    + cbn. rewrite !lookup_insert_ne by exact E.
      destruct (selectedAnswers s !! key); split; reflexivity.
Qed.

Lemma fold_click_answers cs : forall (s : State) key,
  selectedAnswers (fold_left click cs s) !! key =
    match selectedAnswers s !! key with
    | Some a => Some a
    | None => fst <$> firstAnswer key cs
    end
  /\ quizResults (fold_left click cs s) !! key =
    match selectedAnswers s !! key with
    | Some _ => quizResults s !! key
    | None => match firstAnswer key cs with
              | Some ab => Some (snd ab)
              | None => quizResults s !! key
              end
    end.
Proof.
  induction cs as [ | c cs IH]; intros s key.
  - cbn. destruct (selectedAnswers s !! key); split; reflexivity.
  - cbn [fold_left]. destruct (IH (click s c) key) as [-> ->].
    destruct (click_answers s c key) as [-> ->].
    destruct (selectedAnswers s !! key) as [a | ]; [ split; reflexivity | ].
    destruct c as [messageId question optIndex | ? ? | ? ? | ? ?]; cbn [firstAnswer];
      try (cbn; destruct (firstAnswer key cs); split; reflexivity).
    destruct (String.eqb _ key); cbn; [ split; reflexivity | ].
    destruct (firstAnswer key cs); split; reflexivity.
Qed.

(** (X19) In the quizzes of the chat the first answer to a question is
    final: after any clicks, the answer recorded under a question's key
    is the option of the first click on one of that question's options,
    and the result recorded is whether that option was the correct one;
    later clicks on the question change neither, and a question nobody
    clicked has no answer and no result. *)
Theorem first_answer_is_final cs key :
  selectedAnswers (clicks cs) !! key = fst <$> firstAnswer key cs
  /\ quizResults (clicks cs) !! key = snd <$> firstAnswer key cs.
Proof.
  unfold clicks. destruct (fold_click_answers cs initialState key) as [-> ->].
  cbn. rewrite !lookup_empty. destruct (firstAnswer key cs); split; reflexivity.
Qed.

Lemma click_isFlipped (s : State) c key :
  isFlipped (click s c) key =
  xorb (isFlipped s key) (Nat.odd (cardClicks key [c])).
Proof.
  unfold isFlipped, cardClicks.
  destruct c as [? ? ? | messageId cardId | ? ? | ? ?];
    cbn [click List.filter length Nat.odd];
    try (unfold clickOption; destruct (showResult _ _)); cbn;
    try (rewrite xorb_false_r; reflexivity).
  destruct (String.eqb (itemKey messageId cardId) key) eqn:E.
  - apply String.eqb_eq in E. rewrite E, lookup_insert_eq. cbn.
    rewrite xorb_true_r. reflexivity.
  - apply String.eqb_neq in E. rewrite lookup_insert_ne by exact E. cbn.
    rewrite xorb_false_r. reflexivity.
Qed.

Lemma cardClicks_cons key c cs :
  cardClicks key (c :: cs) = (cardClicks key [c] + cardClicks key cs)%nat.
Proof.
  unfold cardClicks. cbn [List.filter].
  destruct (match c with Card messageId cardId => _ | _ => false end); reflexivity.
Qed.

Lemma fold_click_isFlipped cs : forall (s : State) key,
  isFlipped (fold_left click cs s) key =
  xorb (isFlipped s key) (Nat.odd (cardClicks key cs)).
Proof.
  induction cs as [ | c cs IH]; intros s key.
  - cbn. rewrite xorb_false_r. reflexivity.
  - cbn [fold_left]. rewrite IH, (cardClicks_cons key c cs), click_isFlipped, Nat.odd_add.
    rewrite xorb_assoc. reflexivity.
Qed.

(** (X20) A flashcard of the chat shows its back exactly when it was
    clicked an odd number of times: each click on the card turns it
    over, and no other click, on another card, an option or a button,
    turns it. *)
Theorem card_shows_back_after_odd_clicks cs key :
  isFlipped (clicks cs) key = Nat.odd (cardClicks key cs).
Proof.
  unfold clicks. rewrite fold_click_isFlipped.
  unfold isFlipped. cbn. rewrite lookup_empty. reflexivity.
Qed.

Lemma click_attempts (s : State) c key :
  attempts (click s c) key = attempts s key + Z.of_nat (listenClicks key [c]).
Proof.
  unfold attempts at 1 2, listenClicks.
  destruct c as [? ? ? | ? ? | messageId exerciseId | ? ?];
    cbn [click List.filter length];
    try (unfold clickOption; destruct (showResult _ _)); cbn;
    try (rewrite Z.add_0_r; reflexivity).
  destruct (String.eqb (itemKey messageId exerciseId) key) eqn:E.
  - apply String.eqb_eq in E. rewrite E, lookup_insert_eq. cbn. reflexivity.
  - apply String.eqb_neq in E. rewrite lookup_insert_ne by exact E. cbn. lia.
Qed.

Lemma listenClicks_cons key c cs :
  listenClicks key (c :: cs) = (listenClicks key [c] + listenClicks key cs)%nat.
Proof.
  unfold listenClicks. cbn [List.filter].
  destruct (match c with Listen messageId exerciseId => _ | _ => false end); reflexivity.
Qed.

Lemma fold_click_attempts cs : forall (s : State) key,
  attempts (fold_left click cs s) key = attempts s key + Z.of_nat (listenClicks key cs).
Proof.
  induction cs as [ | c cs IH]; intros s key.
  - cbn. lia.
  - cbn [fold_left]. rewrite IH, (listenClicks_cons key c cs), click_attempts. lia.
Qed.

(** (X21) The number of plays shown on the "Listen" button of a
    pronunciation exercise is the number of clicks on that button:
    every such click counts once, and clicks on "Practice Mode", on
    other exercises and on anything else are not counted. *)
Theorem listen_counts_its_clicks cs key :
  attempts (clicks cs) key = Z.of_nat (listenClicks key cs).
Proof.
  unfold clicks. rewrite fold_click_attempts.
  unfold attempts. cbn. rewrite lookup_empty. reflexivity.
Qed.

End Exercises.

(** Option 2, then option 1 (the correct one) on the same question: the
    answer stays 2 and the result stays wrong. *)
Lemma first_answer_is_final_witness :
  Chat.selectedAnswers (Chat.clicks exerciseClicks) !! "m1-q1" = Some 2
  /\ Chat.quizResults (Chat.clicks exerciseClicks) !! "m1-q1" = Some false.
Proof. exact (first_answer_is_final exerciseClicks "m1-q1"). Defined.

(** The card clicked three times shows its back. *)
Lemma card_shows_back_after_odd_clicks_witness :
  Chat.isFlipped (Chat.clicks exerciseClicks) "m2-fc1" = true.
Proof. exact (card_shows_back_after_odd_clicks exerciseClicks "m2-fc1"). Defined.

(** Two clicks on "Listen" and one on "Practice Mode": two plays. *)
Lemma listen_counts_its_clicks_witness :
  Chat.attempts (Chat.clicks exerciseClicks) "m3-p1" = 2.
Proof. exact (listen_counts_its_clicks exerciseClicks "m3-p1"). Defined.

(* ===================================================================== *)
(** * Theorems: the end of the quiz *)
(* ===================================================================== *)

Section QuizCompletion.
Import Quiz.
Variable P : QuizProps.

Lemma step_completionIsFinal c e c' :
  completionIsFinal c -> step P c e = Normal c' -> completionIsFinal c'.
Proof.
  intros [Hr Hi] Hs. unfold step in Hs.
  destruct (dispatch P e.1 e.2 c) as [c1 | ] eqn:Hd; [ | discriminate ].
  cbn [mbind Completion_bind] in Hs.
  destruct (render P (state c1)); [ | discriminate ].
  cbn [mbind Completion_bind] in Hs. injection Hs as <-.
  destruct e as [now ev]. cbn [fst snd] in *.
  destruct ev; cbn [dispatch] in Hd.
  - unfold handleAnswerSelect in Hd.
    destruct (showResult (state c)); injection Hd as <-; unfold commit; cbn;
      rewrite Nat.eqb_refl, eqb_reflx; cbn; split; assumption.
  - unfold handleAnswerSubmit in Hd.
    destruct (currentQuestion P (state c)); [ | discriminate ].
    injection Hd as <-. unfold commit; cbn.
    rewrite Nat.eqb_refl, eqb_reflx; cbn; split; assumption.
  - destruct (interval c) as [i | ] eqn:Ei.
    + assert (Hn : isComplete (state c) = false).
      { destruct (isComplete (state c)); [ | reflexivity ].
        destruct Hi as [Hi _]. specialize (Hi eq_refl). discriminate. }
      unfold tick in Hd. cbn [state] in Hd.
      destruct (timeLeft (state c) <=? 1).
      * unfold handleTimeUp in Hd.
        destruct (negb (showResult (closure i))).
        -- unfold handleAnswerSubmit in Hd.
           destruct (currentQuestion P (closure i)); [ | discriminate ].
           cbn in Hd. injection Hd as <-. unfold commit, completionIsFinal; cbn.
           rewrite Nat.eqb_refl, eqb_reflx; cbn. rewrite Hn in *.
           split; [ exact Hr | split; discriminate ].
        -- cbn in Hd. injection Hd as <-. unfold commit, completionIsFinal; cbn.
           rewrite Nat.eqb_refl, eqb_reflx; cbn. rewrite Hn in *.
           split; [ exact Hr | split; discriminate ].
      * injection Hd as <-. unfold commit, completionIsFinal; cbn.
        rewrite Nat.eqb_refl, eqb_reflx; cbn. rewrite Hn in *.
        split; [ exact Hr | split; discriminate ].
    + injection Hd as <-. unfold commit, completionIsFinal; cbn.
      rewrite Nat.eqb_refl, eqb_reflx; cbn. rewrite Ei. split; assumption.
  - destruct (timeouts c) as [ | t rest] eqn:Et.
    + injection Hd as <-. unfold commit, completionIsFinal; cbn.
      rewrite Nat.eqb_refl, eqb_reflx; cbn. split; assumption.
    + unfold autoAdvance, handleNextQuestion, handleQuizComplete in Hd.
      destruct (_ <? _); injection Hd as <-; unfold commit, completionIsFinal; cbn.
      * replace (currentQuestionIndex (state c) =? S (currentQuestionIndex (state c)))%nat
          with false by (symmetry; apply Nat.eqb_neq; lia).
        cbn. destruct (isComplete (state c)) eqn:Hc; cbn.
        -- split; [ exact Hr | split; reflexivity ].
        -- split; [ exact Hr | split; discriminate ].
      * rewrite Nat.eqb_refl. cbn.
        destruct (isComplete (state c)) eqn:Hc; cbn.
        -- split.
           ++ split; [ intros _; destruct (reported c); discriminate | reflexivity ].
           ++ exact Hi.
        -- split.
           ++ split; [ intros _; destruct (reported c); discriminate | reflexivity ].
           ++ split; reflexivity.
Qed.

Lemma run_completionIsFinal evs : forall c c',
  completionIsFinal c -> run P c evs = Normal c' -> completionIsFinal c'.
Proof.
  induction evs as [ | e evs IH]; intros c c' Hc Hr.
  - injection Hr as <-. exact Hc.
  - cbn [run] in Hr. destruct (step P c e) as [c1 | ] eqn:Hs; [ | discriminate ].
    cbn [mbind Completion_bind] in Hr.
    eapply IH; [ | exact Hr ]. eapply step_completionIsFinal; eauto.
Qed.

Lemma mount_completionIsFinal t0 c : mount P t0 = Normal c -> completionIsFinal c.
Proof.
  unfold mount. cbv zeta. cbn [state].
  destruct (render P (initialState P t0)); [ | discriminate ].
  cbn [mbind Completion_bind]. intros [= <-].
  unfold completionIsFinal. cbn. split; split; try discriminate; intros H; by destruct H.
Qed.

(** (X22) In every session of the quiz, whatever the events and their
    order: [onComplete] has been called exactly when the quiz is
    complete, and the countdown interval is running exactly while it is
    not.  So the summary screen is never shown without the score being
    reported, no score is reported before the summary, and a complete
    quiz has no timer left. *)
Theorem completion_is_reported_and_stops_the_timer t0 evs c :
  session P t0 evs = Normal c ->
  (isComplete (state c) = true <-> reported c <> [])
  /\ (isComplete (state c) = true <-> interval c = None).
Proof.
  unfold session. destruct (mount P t0) as [c0 | ] eqn:Hm; [ | discriminate ].
  cbn [mbind Completion_bind]. intros Hr.
  exact (run_completionIsFinal _ _ _ (mount_completionIsFinal _ _ Hm) Hr).
Qed.

End QuizCompletion.

(** The quiz answered to its end is complete: its score was reported
    and its interval is cleared. *)
Lemma completion_is_reported_and_stops_the_timer_witness :
  match Quiz.session threeQuestions 0 scenario with
  | Normal c =>
      Quiz.isComplete (Quiz.state c) = true
      /\ Quiz.reported c <> [] /\ Quiz.interval c = None
  | Throw _ => False
  end.
Proof.
  destruct (Quiz.session threeQuestions 0 scenario) as [c | e] eqn:Hs;
    pose proof Hs as Hc; vm_compute in Hc; [ | discriminate ].
  destruct (completion_is_reported_and_stops_the_timer threeQuestions 0 scenario c Hs)
    as [Hr Hi].
  assert (H : Quiz.isComplete (Quiz.state c) = true) by (injection Hc as <-; reflexivity).
  split; [ exact H | split; [ apply Hr, H | apply Hi, H ] ].
Defined.

(* ===================================================================== *)
(** * Theorems: the conversation of the chat *)
(* ===================================================================== *)

Section Conversation.
Import Chat.

Variable toLowerCase : string -> string.

Lemma chatStep_answered t0 done c e :
  answered toLowerCase t0 done c ->
  exists done', answered toLowerCase t0 done' (chatStep toLowerCase c e)
    /\ ((done' = done /\ (e.2 = TimeoutFires -> timeouts c = []))
        \/ exists t, e.2 = TimeoutFires /\ timeouts c = [t]
                     /\ done' = done ++ [(t_input t, due t - 2000, e.1)]).
Proof.
  intros Ha. pose proof Ha as (Hm & Hl & Hn & Hf & Hd).
  destruct e as [now ev]. unfold chatStep. cbn [fst snd].
  destruct ev as [value | | ].
  - exists done. split; [ | left; split; [ reflexivity | discriminate ] ].
    unfold answered, waiting. cbn. auto.
  - exists done. split; [ | left; split; [ reflexivity | discriminate ] ].
    unfold handleSubmit.
    destruct (JS.nonEmpty (JS.trim (input c))) eqn:Hi; cbn [negb orb]; [ | exact Ha ].
    destruct (isLoading c) eqn:Hld; [ exact Ha | ].
    assert (Ht : timeouts c = []).
    { destruct (timeouts c) as [ | t ts]; [ reflexivity | ].
      destruct Hl as [_ Hl]. specialize (Hl ltac:(discriminate)). discriminate. }
    unfold answered, waiting. cbn. rewrite Ht. cbn.
    unfold waiting in Hm. rewrite Ht in Hm. rewrite Hm.
    replace (now + 2000 - 2000) with now by lia.
    split; [ rewrite !app_nil_r; reflexivity | ].
    split; [ split; [ discriminate | reflexivity ] | ].
    split; [ lia | ]. split; [ | exact Hd ]. constructor; [ exact Hi | constructor ].
  - destruct (timeouts c) as [ | t rest] eqn:Ht.
    + exists done. split; [ exact Ha | left; split; reflexivity ].
    + assert (Hr : rest = []) by (destruct rest; [ reflexivity | cbn in Hn; lia ]).
      subst rest.
      exists (done ++ [(t_input t, due t - 2000, now)]).
      split; [ | right; exists t; auto ].
      unfold answered, waiting, respond. cbn.
      unfold waiting in Hm. rewrite Ht in Hm. rewrite Hm.
      split; [ rewrite flat_map_app; cbn; rewrite <- !app_assoc; reflexivity | ].
      split; [ split; [ discriminate | intros H; contradiction ] | ].
      split; [ lia | ]. split; [ constructor | ].
      apply Forall_app. split; [ exact Hd | ].
      constructor; [ | constructor ]. cbn. apply Forall_cons in Hf as [Hf _]. exact Hf.
Qed.

Lemma fold_chatStep_answered t0 evs : forall done c,
  answered toLowerCase t0 done c -> exists done', answered toLowerCase t0 done' (fold_left (chatStep toLowerCase) evs c).
Proof.
  induction evs as [ | e evs IH]; intros done c Ha; cbn [fold_left].
  - exists done. exact Ha.
  - destruct (chatStep_answered t0 done c e Ha) as (done' & Ha' & _).
    exact (IH done' _ Ha').
Qed.

Lemma openChat_answered t0 : answered toLowerCase t0 [] (openChat t0).
Proof.
  unfold answered, openChat, waiting. cbn.
  split; [ reflexivity | ]. split; [ split; [ discriminate | intros H; contradiction ] | ].
  split; [ lia | ]. split; constructor.
Qed.

Lemma chat_answered t0 evs :
  exists done, answered toLowerCase t0 done (chat toLowerCase t0 evs).
Proof. apply (fold_chatStep_answered t0 evs [] _ (openChat_answered t0)). Qed.

(** ** ids *)

Lemma inOrder_app lo done x :
  inOrder lo done -> lastReply lo done <= x.1.2 -> x.1.2 + 2000 <= x.2 ->
  inOrder lo (done ++ [x]) /\ lastReply lo (done ++ [x]) = x.2.
Proof.
  revert lo. induction done as [ | y done IH]; intros lo Ho Hl Hx; cbn in *.
  - auto.
  - destruct Ho as (H1 & H2 & H3). destruct (IH _ H3 Hl Hx) as [H4 H5]. auto.
Qed.

Lemma inOrder_lastReply lo done : inOrder lo done -> lo <= lastReply lo done.
Proof.
  revert lo. induction done as [ | y done IH]; intros lo Ho; cbn in *; [ lia | ].
  destruct Ho as (H1 & H2 & H3). specialize (IH _ H3). lia.
Qed.

Lemma chatSchedule_onTime t0 evs : forall now done c,
  answered toLowerCase t0 done c -> onTime t0 now done c ->
  chatSchedule toLowerCase now c evs = true ->
  exists done', answered toLowerCase t0 done' (fold_left (chatStep toLowerCase) evs c) /\ inOrder t0 done'.
Proof.
  induction evs as [ | e evs IH]; intros now done c Ha (Ho & Hl & Hp) Hs;
    cbn [fold_left chatSchedule] in *.
  - exists done. auto.
  - apply andb_true_iff in Hs as [Hs Hs2]. apply andb_true_iff in Hs as [Hs0 Hs1].
    apply Z.leb_le in Hs0.
    destruct (chatStep_answered t0 done c e Ha) as (done' & Ha' & Hcase).
    apply (IH e.1 done' _ Ha'); [ | exact Hs2 ].
    destruct Hcase as [[-> Hnone] | (t & He & Ht & ->)].
    + unfold onTime. split; [ exact Ho | split; [ lia | ] ].
      destruct e as [now' ev]. cbn [fst snd] in *. unfold chatStep. cbn [fst snd].
      destruct ev as [value | | ].
      * exact Hp.
      * unfold handleSubmit. destruct (negb _ || _); [ exact Hp | ].
        cbn. apply Forall_app. split; [ exact Hp | ].
        constructor; [ cbn; lia | constructor ].
      * rewrite (Hnone eq_refl) in Hs1. discriminate.
    + destruct e as [now' ev]. cbn [fst snd] in *. subst ev.
      rewrite Ht in Hs1, Hp. apply Z.leb_le in Hs1.
      apply Forall_cons in Hp as [Hp _].
      destruct (inOrder_app t0 done (t_input t, due t - 2000, now') Ho) as [Ho' Hl'];
        [ cbn; lia | cbn; lia | ].
      unfold onTime. rewrite Hl'. cbn [fst snd].
      split; [ exact Ho' | split; [ lia | ] ].
      unfold chatStep. cbn [fst snd]. rewrite Ht. cbn. constructor.
Qed.

Lemma aiResponse_id u t :
  message_id (aiResponse toLowerCase u t) = JS.toString (t + 1) /\ role (aiResponse toLowerCase u t) = assistant.
Proof.
  unfold aiResponse. cbv zeta.
  destruct (isQuizRequest _); [ split; reflexivity | ].
  destruct (isFlashcardRequest _); [ split; reflexivity | ].
  destruct (isPronunciationRequest _); split; reflexivity.
Qed.

Lemma replies_exchanges done tail :
  Forall (fun m => role m = user) tail ->
  replies (flat_map (exchange toLowerCase) done ++ tail)
  = map (fun x : Exchange => aiResponse toLowerCase x.1.1 x.2) done.
Proof.
  intros Ht. induction done as [ | x done IH]; cbn.
  - unfold replies. induction Ht as [ | m tail Hm _ IHt]; cbn; [ reflexivity | ].
    rewrite Hm. exact IHt.
  - unfold replies in *. cbn. rewrite (proj2 (aiResponse_id x.1.1 x.2)).
    f_equal. exact IH.
Qed.

Lemma replies_answered t0 done c :
  answered toLowerCase t0 done c ->
  replies (messages c) = map (fun x : Exchange => aiResponse toLowerCase x.1.1 x.2) done.
Proof.
  intros (Hm & _). rewrite Hm. unfold replies at 1. cbn [List.filter systemMessage role].
  apply replies_exchanges. unfold waiting.
  destruct (timeouts c); repeat constructor.
Qed.

Lemma toString_inj a b : 0 <= a -> 0 <= b -> JS.toString a = JS.toString b -> a = b.
Proof.
  intros Ha Hb H. pose proof (readDecimal_toString a Ha) as H1.
  rewrite H, (readDecimal_toString b Hb) in H1. congruence.
Qed.

Lemma string_of_uint_noHyphen d : noHyphen (NilEmpty.string_of_uint d) = true.
Proof. induction d; cbn; auto. Qed.

Lemma toString_noHyphen m : 0 <= m -> noHyphen (JS.toString m) = true.
Proof.
  intros Hm. unfold JS.toString. destruct m as [ | p | p]; [ reflexivity | | lia ].
  cbn [Z.to_int NilZero.string_of_int]. unfold NilZero.string_of_uint.
  destruct (Pos.to_uint p) eqn:E;
    try (rewrite <- E at 1; apply string_of_uint_noHyphen; fail);
    try reflexivity; cbn; apply string_of_uint_noHyphen.
Qed.

Lemma itemKey_inj m1 : forall m2 x y,
  noHyphen m1 = true -> noHyphen m2 = true ->
  itemKey m1 x = itemKey m2 y -> m1 = m2 /\ x = y.
Proof.
  unfold itemKey.
  induction m1 as [ | a m1 IH]; intros [ | b m2] x y H1 H2 H.
  - change ("" +:+ "-" +:+ x) with (String "-" x) in H.
    change ("" +:+ "-" +:+ y) with (String "-" y) in H.
    injection H as ->. auto.
  - change ("" +:+ "-" +:+ x) with (String "-" x) in H.
    change (String b m2 +:+ "-" +:+ y) with (String b (m2 +:+ "-" +:+ y)) in H.
    injection H as <- _. cbn in H2. discriminate.
  - change ("" +:+ "-" +:+ y) with (String "-" y) in H.
    change (String a m1 +:+ "-" +:+ x) with (String a (m1 +:+ "-" +:+ x)) in H.
    injection H as -> _. cbn in H1. discriminate.
  - change (String a m1 +:+ "-" +:+ x) with (String a (m1 +:+ "-" +:+ x)) in H.
    change (String b m2 +:+ "-" +:+ y) with (String b (m2 +:+ "-" +:+ y)) in H.
    injection H as -> H. cbn in H1, H2.
    apply andb_true_iff in H1 as [_ H1]. apply andb_true_iff in H2 as [_ H2].
    destruct (IH m2 x y H1 H2 H) as [-> ->]. auto.
Qed.

Lemma inOrder_later lo done :
  inOrder lo done -> Forall (fun x : Exchange => lo + 2000 <= x.2) done.
Proof.
  revert lo. induction done as [ | x done IH]; intros lo Ho; [ constructor | ].
  cbn in Ho. destruct Ho as (H1 & H2 & H3). constructor; [ lia | ].
  specialize (IH _ H3). eapply Forall_impl; [ exact IH | ]. cbn. intros y Hy. lia.
Qed.

Lemma inOrder_ids lo done :
  0 <= lo -> inOrder lo done ->
  NoDup (map (fun x : Exchange => JS.toString (x.2 + 1)) done).
Proof.
  revert lo. induction done as [ | x done IH]; intros lo Hlo Ho; cbn; [ constructor | ].
  cbn in Ho. destruct Ho as (H1 & H2 & H3).
  constructor; [ | apply (IH x.2); [ lia | exact H3 ] ].
  intros Hin. apply list_elem_of_fmap in Hin as (y & Hy & Hiny).
  pose proof (inOrder_later _ _ H3) as Hl. rewrite Forall_forall in Hl.
  specialize (Hl y Hiny). cbn in Hl.
  apply toString_inj in Hy; lia.
Qed.

Lemma chatSchedule_inOrder t0 evs :
  chatSchedule toLowerCase t0 (openChat t0) evs = true ->
  exists done, answered toLowerCase t0 done (chat toLowerCase t0 evs) /\ inOrder t0 done.
Proof.
  intros Hs. unfold chat.
  apply (chatSchedule_onTime t0 evs t0 [] (openChat t0)); [ | | exact Hs ].
  - apply openChat_answered.
  - unfold onTime. cbn. repeat split; [ lia | constructor ].
Qed.

Lemma answered_ids t0 done c :
  answered toLowerCase t0 done c ->
  map message_id (replies (messages c))
  = map (fun x : Exchange => JS.toString (x.2 + 1)) done.
Proof.
  intros Ha. rewrite (replies_answered _ _ _ Ha), map_map.
  apply map_ext. intros x. apply aiResponse_id.
Qed.

(** (X23) Whatever is typed, submitted and answered toLowerCase, and in whatever
    order, the messages of the chat toLowerCase are the system message followed by
    the exchanges so far, each a question with its reply right after it,
    and then at most one question that still waits; [isLoading] holds
    exactly while a reply is pending, and no blank text is ever sent.
    So a reply is never lost, doubled or put after the wrong question. *)
Theorem every_question_gets_its_answer t0 evs :
  exists done,
    messages (chat toLowerCase t0 evs)
    = systemMessage t0 :: flat_map (exchange toLowerCase) done ++ waiting (chat toLowerCase t0 evs)
    /\ (isLoading (chat toLowerCase t0 evs) = true <-> timeouts (chat toLowerCase t0 evs) <> [])
    /\ (length (timeouts (chat toLowerCase t0 evs)) <= 1)%nat
    /\ Forall (fun x : Exchange => JS.nonEmpty (JS.trim x.1.1) = true) done.
Proof.
  destruct (chat_answered t0 evs) as [done (H1 & H2 & H3 & _ & H5)].
  exists done. auto.
Qed.

(** (X24) With a clock that starts at or after the epoch and never runs
    backwards, and timeouts that never run early, the replies of the
    chat toLowerCase have pairwise distinct ids, and the key under which the state
    of an exercise of one reply is kept is never the key of an exercise
    of another reply, whatever the ids of the exercises are. *)
Theorem replies_never_share_exercise_state t0 evs i j m1 m2 x y :
  0 <= t0 ->
  chatSchedule toLowerCase t0 (openChat t0) evs = true ->
  replies (messages (chat toLowerCase t0 evs)) !! i = Some m1 ->
  replies (messages (chat toLowerCase t0 evs)) !! j = Some m2 ->
  i <> j ->
  message_id m1 <> message_id m2
  /\ itemKey (message_id m1) x <> itemKey (message_id m2) y.
Proof.
  intros Ht0 Hs H1 H2 Hij.
  destruct (chatSchedule_inOrder _ _ Hs) as (done & Ha & Ho).
  pose proof (answered_ids _ _ _ Ha) as Hids.
  pose proof (inOrder_ids _ _ Ht0 Ho) as Hnd. rewrite <- Hids in Hnd.
  pose proof (inOrder_later _ _ Ho) as Hl.
  assert (Hne : message_id m1 <> message_id m2).
  { intros He. apply Hij.
    apply (NoDup_lookup _ i j (message_id m1) Hnd).
    - rewrite list_lookup_fmap, H1. reflexivity.
    - rewrite list_lookup_fmap, H2, He. reflexivity. }
  split; [ exact Hne | ].
  assert (Hh : forall k m, replies (messages (chat toLowerCase t0 evs)) !! k = Some m ->
                           noHyphen (message_id m) = true).
  { intros k m Hk.
    assert (Hin : message_id m ∈ map message_id (replies (messages (chat toLowerCase t0 evs)))).
    { apply list_elem_of_fmap. exists m. split; [ reflexivity | ].
      eapply list_elem_of_lookup_2, Hk. }
    rewrite Hids in Hin. apply list_elem_of_fmap in Hin as (e & -> & Hine).
    rewrite Forall_forall in Hl. specialize (Hl e Hine). cbn in Hl.
    apply toString_noHyphen. lia. }
  intros He. apply Hne.
  exact (proj1 (itemKey_inj _ _ _ _ (Hh _ _ H1) (Hh _ _ H2) He)).
Qed.

End Conversation.

(** The replies to a request for a quiz and to one for flashcards, each
    with an exercise called q1: two ids, two keys. *)
Lemma replies_never_share_exercise_state_witness :
  exists m1 m2,
    Chat.replies (Chat.messages (Chat.chat JS.toLowerCaseASCII 1000 twoRequests)) !! 0%nat = Some m1
    /\ Chat.replies (Chat.messages (Chat.chat JS.toLowerCaseASCII 1000 twoRequests)) !! 1%nat = Some m2
    /\ Chat.quiz m1 <> None /\ Chat.flashcards m2 <> None
    /\ Chat.message_id m1 <> Chat.message_id m2
    /\ Chat.itemKey (Chat.message_id m1) "q1" <> Chat.itemKey (Chat.message_id m2) "q1".
Proof.
  destruct (Chat.replies (Chat.messages (Chat.chat JS.toLowerCaseASCII 1000 twoRequests)) !! 0%nat)
    as [m1 | ] eqn:H1; pose proof H1 as E1; vm_compute in E1; [ | discriminate ].
  destruct (Chat.replies (Chat.messages (Chat.chat JS.toLowerCaseASCII 1000 twoRequests)) !! 1%nat)
    as [m2 | ] eqn:H2; pose proof H2 as E2; vm_compute in E2; [ | discriminate ].
  exists m1, m2. split; [ reflexivity | split; [ reflexivity | ] ].
  split; [ injection E1 as <-; discriminate | ].
  split; [ injection E2 as <-; discriminate | ].
  apply (replies_never_share_exercise_state JS.toLowerCaseASCII 1000 twoRequests 0 1 m1 m2 "q1" "q1");
    [ lia | vm_compute; reflexivity | exact H1 | exact H2 | lia ].
Defined.
